(** * FreeRTOS performance tests of ESP-IDF: queue contention, critical
    section speed and non-blocking queue speed.

    The three test programs under
    [components/freertos/test_apps/freertos/performance] are embedded as
    transition systems and state-passing functions, and the properties of
    the multi-core contention harness are proved over every interleaving of
    the test task and the producer tasks. *)

From Stdlib Require Import ZArith Lia List Bool String.
From stdpp Require Import base list numbers.

Local Open Scope Z_scope.

(** ** Port configuration *)

(** The macros a port defines for the tests, and the width of [UBaseType_t].
    [portmacro.h], which declares [UBaseType_t], is not among the sources:
    its width is a field of the configuration. *)
Record port_config := {
  configNUMBER_OF_CORES : nat;
  portTEST_NUM_SAMPLES : nat;
  portTEST_NUM_ITEMS : nat;
  portUBASE_BITS : positive;
}.

(** The values of the ESP-IDF build of the sources: two cores
    ([test_config.h]), 128 samples, 256 items, a 32-bit [UBaseType_t]. *)
Definition idf_config : port_config :=
  {| configNUMBER_OF_CORES := 2;
     portTEST_NUM_SAMPLES := 128;
     portTEST_NUM_ITEMS := 256;
     portUBASE_BITS := 32 |}.

(** A small configuration: two cores, two samples of three items. *)
Definition small_config : port_config :=
  {| configNUMBER_OF_CORES := 2;
     portTEST_NUM_SAMPLES := 2;
     portTEST_NUM_ITEMS := 3;
     portUBASE_BITS := 32 |}.

(** The small configuration with an [UBaseType_t] of [bits] bits. *)
Definition narrow_config (bits : positive) : port_config :=
  {| configNUMBER_OF_CORES := 2;
     portTEST_NUM_SAMPLES := 2;
     portTEST_NUM_ITEMS := 3;
     portUBASE_BITS := bits |}.

(** [2^w], the number of values of [UBaseType_t]. *)
Definition uxModulus (cfg : port_config) : Z := 2 ^ Z.pos (portUBASE_BITS cfg).

(** The cast [( UBaseType_t ) x]. *)
Definition to_UBaseType (cfg : port_config) (x : Z) : Z := x mod uxModulus cfg.

(** [portTEST_GET_TIME()]: the cycle counter, cast to [UBaseType_t].  The
    argument is the number of cycles the counter of the calling core has
    counted at the instant of the call. *)
Definition portTEST_GET_TIME (cfg : port_config) (ccount : Z) : Z :=
  to_UBaseType cfg ccount.

(** Unsigned subtraction and addition in [UBaseType_t]. *)
Definition ux_sub (cfg : port_config) (a b : Z) : Z := to_UBaseType cfg (a - b).
Definition ux_add (cfg : port_config) (a b : Z) : Z := to_UBaseType cfg (a + b).

(** [a / n] for an [UBaseType_t] [a] and a positive [int] constant [n]. *)
Definition ux_div (a : Z) (n : nat) : Z := a / Z.of_nat n.

(** The value an accumulator holds after the samples [l] were added to it,
    one [+=] at a time, starting from [a]. *)
Definition ux_accumulate (cfg : port_config) (a : Z) (l : list Z) : Z :=
  fold_left (ux_add cfg) l a.

(** The sum of a list of integers, without wrap-around. *)
Definition sumZ (l : list Z) : Z := fold_right Z.add 0 l.

(** ** Kernel objects *)

Module Kernel.

(** Modelled from the spec: the kernel's bounded-capacity queue
    ([queue.c] is not among the sources), "a bounded-capacity queue
    abstraction with non-blocking enqueue/dequeue and a reset operation
    restoring it to empty".  [uxLength] is the capacity given at creation,
    [pcItems] the items waiting, oldest first. *)
Record queue := { uxLength : nat; pcItems : list Z }.

Definition xQueueCreate (uxQueueLength : nat) : queue :=
  {| uxLength := uxQueueLength; pcItems := [] |}.

Definition uxQueueMessagesWaiting (q : queue) : nat := length (pcItems q).

(** Modelled from the spec: [xQueueSend( q, &item, 0 )], the non-blocking
    enqueue.  It returns the queue and [pdTRUE] (here [true]) when there was
    room, and leaves the queue as it is and returns [errQUEUE_FULL] (here
    [false]) when it was full. *)
Definition xQueueSend (q : queue) (item : Z) : queue * bool :=
  if (uxQueueMessagesWaiting q <? uxLength q)%nat
  then ({| uxLength := uxLength q; pcItems := pcItems q ++ [item] |}, true)
  else (q, false).

(** Modelled from the spec: [xQueueReceive( q, &v, 0 )], the non-blocking
    dequeue of the oldest item; [None] is [errQUEUE_EMPTY]. *)
Definition xQueueReceive (q : queue) : queue * option Z :=
  match pcItems q with
  | [] => (q, None)
  | v :: rest => ({| uxLength := uxLength q; pcItems := rest |}, Some v)
  end.

(** Modelled from the spec: [xQueueReset], "a reset operation restoring it
    to empty". *)
Definition xQueueReset (q : queue) : queue :=
  {| uxLength := uxLength q; pcItems := [] |}.

(** Modelled from the spec: the counting semaphore, "a counting-signal
    primitive (fan-in completion)" ([semphr.h] is not among the sources). *)
Record semaphore := { uxMaxCount : nat; uxCount : nat }.

Definition xSemaphoreCreateCounting (uxMax uxInitial : nat) : semaphore :=
  {| uxMaxCount := uxMax; uxCount := uxInitial |}.

(** Modelled from the spec: [xSemaphoreGive].  The count grows by one unless
    it is at its maximum, where the call fails and changes nothing. *)
Definition xSemaphoreGive (m : semaphore) : semaphore * bool :=
  if (uxCount m <? uxMaxCount m)%nat
  then ({| uxMaxCount := uxMaxCount m; uxCount := S (uxCount m) |}, true)
  else (m, false).

(** Modelled from the spec: [xSemaphoreTake( m, portMAX_DELAY )].  [None]
    says that the caller stays blocked: the count is zero. *)
Definition xSemaphoreTake (m : semaphore) : option semaphore :=
  match uxCount m with
  | O => None
  | S n => Some {| uxMaxCount := uxMaxCount m; uxCount := n |}
  end.

(** Modelled from the spec: [xTaskNotifyGive], "a one-shot or counting
    notification primitive (fan-out release)": the notification value of the
    task grows by one ([tasks.c] is not among the sources). *)
Definition xTaskNotifyGive (ulValue : nat) : nat := S ulValue.

(** Modelled from the spec: [ulTaskNotifyTake( pdTRUE, portMAX_DELAY )].
    The caller stays blocked ([None]) while the value is zero; otherwise the
    value is cleared and the value it had is returned. *)
Definition ulTaskNotifyTake (ulValue : nat) : option (nat * nat) :=
  match ulValue with
  | O => None
  | S _ => Some (O, ulValue)
  end.

End Kernel.

(** ** Unity assertions *)

(** Modelled from the spec: what a failed Unity assertion reports (Unity is
    not among the sources): the line of the assertion, the expected and the
    actual value, and the message given to the macro. *)
Record failure := {
  fLine : nat;
  fExpected : Z;
  fActual : Z;
  fMessage : string;
}.

Definition pdTRUE : Z := 1.
Definition pdFALSE : Z := 0.
Definition BaseType_of_bool (b : bool) : Z := if b then pdTRUE else pdFALSE.

(** Modelled from the spec: [TEST_ASSERT_EQUAL_MESSAGE( expected, actual,
    message )] at a given line.  [None] when the values are equal and the
    test goes on; the failure that aborts the test otherwise. *)
Definition TEST_ASSERT_EQUAL_MESSAGE (line : nat) (expected actual : Z)
    (message : string) : option failure :=
  if expected =? actual then None
  else Some {| fLine := line; fExpected := expected; fActual := actual;
               fMessage := message |}.

(** Modelled from the spec: [TEST_ASSERT_NOT_NULL_MESSAGE( pointer,
    message )] at a given line, for a handle that is [None] when it is
    [NULL].  [None] when the pointer is not [NULL] and the test goes on;
    otherwise the failure that aborts the test: a pointer that is not
    [NULL], written [1], was expected, and [NULL], written [0], was found. *)
Definition TEST_ASSERT_NOT_NULL_MESSAGE {A : Type} (line : nat)
    (pointer : option A) (message : string) : option failure :=
  match pointer with
  | Some _ => None
  | None => Some {| fLine := line; fExpected := 1; fActual := 0;
                    fMessage := message |}
  end.

(** ** queue_contention.c *)

Module QueueContention.
Import Kernel.

(** *** Tasks and program points *)

(** The tasks of the test: the test task, which runs
    [Test_QueueContention], and the producer task created for each core. *)
Inductive task_id :=
| Main
| Producer (i : nat).

(** The program points of [prvProducerTask], with the values of its local
    counters [iSamples] and [iItems]. *)
Inductive producer_pc :=
| PSample (iSamples : nat)          (* line 111: test of the outer loop *)
| PWait (iSamples : nat)            (* line 113: ulTaskNotifyTake *)
| PStart (iSamples : nat)           (* line 116: first clock reading *)
| PItem (iSamples iItems : nat)     (* lines 118-121: test and xQueueSend *)
| PEnd (iSamples : nat)             (* line 124: second reading, += *)
| PReset (iSamples : nat)           (* line 127: xQueueReset *)
| PGive (iSamples : nat)            (* line 130: xSemaphoreGive *)
| PSuspended.                       (* line 134: vTaskSuspend( NULL ) *)

(** The program points of [Test_QueueContention], with the values of
    [iIter] and [iCore]. *)
Inductive main_pc :=
| MIter (iIter : nat)               (* line 144: test of the outer loop *)
| MNotify (iIter iCore : nat)       (* lines 145-151: the other cores *)
| MNotifyOwn (iIter : nat)          (* line 153: the core of the test task *)
| MTake (iIter iCore : nat)         (* lines 156-158: xSemaphoreTake *)
| MPrintHeader                      (* line 162 *)
| MPrint (iCore : nat)              (* lines 163-165 *)
| MDone.                            (* line 166: return *)

(** A producer task: the core it is pinned to (what [portGET_CORE_ID()]
    returns in it), its notification value, its program point and its
    local variable [uxTempTime]. *)
Record producer_task := {
  xCoreID : nat;
  ulNotifiedValue : nat;
  pxPC : producer_pc;
  uxTempTime : Z;
}.

(** *** Events *)

(** What the tasks do, in the order in which they do it.  The events carry
    the values of the local counters at the call. *)
Inductive event :=
| EvNotifyGive (iIter iCore : nat)             (* xTaskNotifyGive, by the test task *)
| EvSemTake (iIter iCore : nat)                (* xSemaphoreTake returned *)
| EvPrintHeader (nItems nSamples : nat)        (* printf of line 162 *)
| EvPrintCore (iCore : nat) (average : Z)      (* printf of line 164 *)
| EvNotifyTake (xCore iSamples : nat)          (* ulTaskNotifyTake returned *)
| EvGetTime (xCore iSamples : nat) (uxTime : Z)   (* line 116 *)
| EvQueueSend (xCore iSamples iItems : nat) (ok : bool)   (* line 120 *)
| EvElapsed (xCore iSamples : nat) (uxTime uxSample : Z)  (* line 124 *)
| EvQueueReset (xCore iSamples : nat)          (* line 127 *)
| EvSemGive (xCore iSamples : nat).            (* line 130 *)

(** *** The state of the test *)

(** The file-scope variables of [queue_contention.c], the two kinds of
    tasks, the failure that aborted the test if there is one, and the
    events so far, newest first. *)
Record state := {
  xMainPC : main_pc;
  xMainCoreID : nat;                  (* portGET_CORE_ID() in the test task *)
  xProducerTaskHandles : list producer_task;
  xQueueHandles : list queue;
  uxElapsedCumulative : list Z;
  xIterDoneSem : semaphore;
  xTestFailure : option failure;
  xEvents : list event;
}.

Definition set_main (pc : main_pc) (s : state) : state :=
  {| xMainPC := pc; xMainCoreID := xMainCoreID s;
     xProducerTaskHandles := xProducerTaskHandles s;
     xQueueHandles := xQueueHandles s;
     uxElapsedCumulative := uxElapsedCumulative s;
     xIterDoneSem := xIterDoneSem s;
     xTestFailure := xTestFailure s; xEvents := xEvents s |}.

Definition set_tasks (ts : list producer_task) (s : state) : state :=
  {| xMainPC := xMainPC s; xMainCoreID := xMainCoreID s;
     xProducerTaskHandles := ts;
     xQueueHandles := xQueueHandles s;
     uxElapsedCumulative := uxElapsedCumulative s;
     xIterDoneSem := xIterDoneSem s;
     xTestFailure := xTestFailure s; xEvents := xEvents s |}.

Definition set_queues (qs : list queue) (s : state) : state :=
  {| xMainPC := xMainPC s; xMainCoreID := xMainCoreID s;
     xProducerTaskHandles := xProducerTaskHandles s;
     xQueueHandles := qs;
     uxElapsedCumulative := uxElapsedCumulative s;
     xIterDoneSem := xIterDoneSem s;
     xTestFailure := xTestFailure s; xEvents := xEvents s |}.

Definition set_elapsed (a : list Z) (s : state) : state :=
  {| xMainPC := xMainPC s; xMainCoreID := xMainCoreID s;
     xProducerTaskHandles := xProducerTaskHandles s;
     xQueueHandles := xQueueHandles s;
     uxElapsedCumulative := a;
     xIterDoneSem := xIterDoneSem s;
     xTestFailure := xTestFailure s; xEvents := xEvents s |}.

Definition set_sem (m : semaphore) (s : state) : state :=
  {| xMainPC := xMainPC s; xMainCoreID := xMainCoreID s;
     xProducerTaskHandles := xProducerTaskHandles s;
     xQueueHandles := xQueueHandles s;
     uxElapsedCumulative := uxElapsedCumulative s;
     xIterDoneSem := m;
     xTestFailure := xTestFailure s; xEvents := xEvents s |}.

Definition set_failure (f : failure) (s : state) : state :=
  {| xMainPC := xMainPC s; xMainCoreID := xMainCoreID s;
     xProducerTaskHandles := xProducerTaskHandles s;
     xQueueHandles := xQueueHandles s;
     uxElapsedCumulative := uxElapsedCumulative s;
     xIterDoneSem := xIterDoneSem s;
     xTestFailure := Some f; xEvents := xEvents s |}.

Definition emit (e : event) (s : state) : state :=
  {| xMainPC := xMainPC s; xMainCoreID := xMainCoreID s;
     xProducerTaskHandles := xProducerTaskHandles s;
     xQueueHandles := xQueueHandles s;
     uxElapsedCumulative := uxElapsedCumulative s;
     xIterDoneSem := xIterDoneSem s;
     xTestFailure := xTestFailure s; xEvents := e :: xEvents s |}.

(** The events in the order in which they happened. *)
Definition trace (s : state) : list event := reverse (xEvents s).

(** Updates of one producer task. *)
Definition set_pc (pc : producer_pc) (t : producer_task) : producer_task :=
  {| xCoreID := xCoreID t; ulNotifiedValue := ulNotifiedValue t;
     pxPC := pc; uxTempTime := uxTempTime t |}.

Definition set_notified (v : nat) (t : producer_task) : producer_task :=
  {| xCoreID := xCoreID t; ulNotifiedValue := v;
     pxPC := pxPC t; uxTempTime := uxTempTime t |}.

Definition set_temp (x : Z) (t : producer_task) : producer_task :=
  {| xCoreID := xCoreID t; ulNotifiedValue := ulNotifiedValue t;
     pxPC := pxPC t; uxTempTime := x |}.

(** [xTaskNotifyGive( xProducerTaskHandles[ i ] )]. *)
Definition notify_give (i : nat) (s : state) : state :=
  set_tasks
    (alter (fun t => set_notified (xTaskNotifyGive (ulNotifiedValue t)) t) i
       (xProducerTaskHandles s)) s.

(** *** Steps of the tasks *)

Section Steps.
Context (cfg : port_config).

(** One step of [Test_QueueContention] from its program point: [None] when
    the task is blocked or has returned. *)
Definition Test_QueueContention (s : state) : option state :=
  match xMainPC s with
  | MIter iIter =>
      if (iIter <? portTEST_NUM_SAMPLES cfg)%nat
      then Some (set_main (MNotify iIter 0) s)
      else Some (set_main MPrintHeader s)
  | MNotify iIter iCore =>
      if (iCore <? configNUMBER_OF_CORES cfg)%nat then
        if negb (iCore =? xMainCoreID s)%nat
        then Some (set_main (MNotify iIter (S iCore))
                     (emit (EvNotifyGive iIter iCore) (notify_give iCore s)))
        else Some (set_main (MNotify iIter (S iCore)) s)
      else Some (set_main (MNotifyOwn iIter) s)
  | MNotifyOwn iIter =>
      Some (set_main (MTake iIter 0)
              (emit (EvNotifyGive iIter (xMainCoreID s))
                 (notify_give (xMainCoreID s) s)))
  | MTake iIter iCore =>
      if (iCore <? configNUMBER_OF_CORES cfg)%nat then
        match xSemaphoreTake (xIterDoneSem s) with
        | Some m =>
            Some (set_main (MTake iIter (S iCore))
                    (emit (EvSemTake iIter iCore) (set_sem m s)))
        | None => None
        end
      else Some (set_main (MIter (S iIter)) s)
  | MPrintHeader =>
      Some (set_main (MPrint 0)
              (emit (EvPrintHeader (portTEST_NUM_ITEMS cfg)
                       (portTEST_NUM_SAMPLES cfg)) s))
  | MPrint iCore =>
      if (iCore <? configNUMBER_OF_CORES cfg)%nat then
        Some (set_main (MPrint (S iCore))
                (emit (EvPrintCore iCore
                         (ux_div (default 0 (uxElapsedCumulative s !! iCore))
                            (portTEST_NUM_SAMPLES cfg))) s))
      else Some (set_main MDone s)
  | MDone => None
  end.

(** One step of the producer task [xProducerTaskHandles[ i ]] from its
    program point; [ccount] is the cycle count of its core at this instant.
    [None] when the task is blocked or suspended. *)
Definition prvProducerTask (i : nat) (ccount : Z) (s : state) : option state :=
  match xProducerTaskHandles s !! i with
  | None => None
  | Some t =>
      let put t' := set_tasks (<[i := t']> (xProducerTaskHandles s)) in
      let xCore := xCoreID t in
      match pxPC t with
      | PSample iSamples =>
          if (iSamples <? portTEST_NUM_SAMPLES cfg)%nat
          then Some (put (set_pc (PWait iSamples) t) s)
          else Some (put (set_pc PSuspended t) s)
      | PWait iSamples =>
          match ulTaskNotifyTake (ulNotifiedValue t) with
          | Some (v, _) =>
              Some (emit (EvNotifyTake xCore iSamples)
                      (put (set_pc (PStart iSamples) (set_notified v t)) s))
          | None => None
          end
      | PStart iSamples =>
          let now := portTEST_GET_TIME cfg ccount in
          Some (emit (EvGetTime xCore iSamples now)
                  (put (set_pc (PItem iSamples 0) (set_temp now t)) s))
      | PItem iSamples iItems =>
          if (iItems <? portTEST_NUM_ITEMS cfg)%nat then
            match xQueueHandles s !! xCore with
            | None => None
            | Some q =>
                let '(q', ok) := xQueueSend q (Z.of_nat iItems) in
                let s' := emit (EvQueueSend xCore iSamples iItems ok)
                            (set_queues (<[xCore := q']> (xQueueHandles s)) s) in
                match TEST_ASSERT_EQUAL_MESSAGE 120 pdTRUE (BaseType_of_bool ok)
                        "xQueueSend() failed" with
                | None => Some (put (set_pc (PItem iSamples (S iItems)) t) s')
                | Some f => Some (set_failure f s')
                end
            end
          else Some (put (set_pc (PEnd iSamples) t) s)
      | PEnd iSamples =>
          let now := portTEST_GET_TIME cfg ccount in
          let sample := ux_sub cfg now (uxTempTime t) in
          let total := ux_add cfg (default 0 (uxElapsedCumulative s !! xCore)) sample in
          Some (emit (EvElapsed xCore iSamples now sample)
                  (put (set_pc (PReset iSamples) t)
                     (set_elapsed (<[xCore := total]> (uxElapsedCumulative s)) s)))
      | PReset iSamples =>
          Some (emit (EvQueueReset xCore iSamples)
                  (put (set_pc (PGive iSamples) t)
                     (set_queues (alter xQueueReset xCore (xQueueHandles s)) s)))
      | PGive iSamples =>
          Some (emit (EvSemGive xCore iSamples)
                  (put (set_pc (PSample (S iSamples)) t)
                     (set_sem (fst (xSemaphoreGive (xIterDoneSem s))) s)))
      | PSuspended => None
      end
  end.

(** One step of the system: the scheduler runs task [tid] while the cycle
    counter of its core reads [ccount].  Once an assertion has failed the
    test is aborted and no task runs any more. *)
Definition step (l : task_id * Z) (s : state) : option state :=
  match xTestFailure s with
  | Some _ => None
  | None =>
      match fst l with
      | Main => Test_QueueContention s
      | Producer i => prvProducerTask i (snd l) s
      end
  end.

(** A run under a schedule: a scheduled task that cannot run is skipped. *)
Fixpoint exec (sched : list (task_id * Z)) (s : state) : state :=
  match sched with
  | [] => s
  | l :: rest => exec rest (default s (step l s))
  end.

(** [setup_idf] followed by the call of [Test_QueueContention] from the
    test task, which runs on core [xCore]: the accumulators are zero, the
    semaphore counts up to the number of cores from zero, every core has a
    queue of [portTEST_NUM_ITEMS] items and a producer task pinned to it,
    and every task is at its first line. *)
Definition setup_idf (xCore : nat) : state :=
  {| xMainPC := MIter 0;
     xMainCoreID := xCore;
     xProducerTaskHandles :=
       map (fun i => {| xCoreID := i; ulNotifiedValue := 0;
                        pxPC := PSample 0; uxTempTime := 0 |})
           (seq 0 (configNUMBER_OF_CORES cfg));
     xQueueHandles :=
       map (fun _ => xQueueCreate (portTEST_NUM_ITEMS cfg))
           (seq 0 (configNUMBER_OF_CORES cfg));
     uxElapsedCumulative :=
       map (fun _ => 0) (seq 0 (configNUMBER_OF_CORES cfg));
     xIterDoneSem := xSemaphoreCreateCounting (configNUMBER_OF_CORES cfg) 0;
     xTestFailure := None;
     xEvents := [] |}.

End Steps.


(** *** Projections of the trace *)

(** The events of the test task. *)
Definition is_main_event (e : event) : bool :=
  match e with
  | EvNotifyGive _ _ | EvSemTake _ _ | EvPrintHeader _ _ | EvPrintCore _ _ => true
  | _ => false
  end.

(** The events of the producer task that runs on core [c]. *)
Definition is_core_event (c : nat) (e : event) : bool :=
  match e with
  | EvNotifyTake x _ | EvGetTime x _ _ | EvQueueSend x _ _ _
  | EvElapsed x _ _ _ | EvQueueReset x _ | EvSemGive x _ => (x =? c)%nat
  | _ => false
  end.

Definition main_trace (s : state) : list event :=
  List.filter is_main_event (trace s).

Definition core_trace (c : nat) (s : state) : list event :=
  List.filter (is_core_event c) (trace s).

(** The Samples core [c] added to its accumulator, oldest first. *)
Definition sample_of (c : nat) (e : event) : option Z :=
  match e with
  | EvElapsed x _ _ uxSample => if (x =? c)%nat then Some uxSample else None
  | _ => None
  end.

Definition samples (c : nat) (tr : list event) : list Z := omap (sample_of c) tr.

(** The averages printed, oldest first, each with the core it is for. *)
Definition report_of (e : event) : option (nat * Z) :=
  match e with
  | EvPrintCore iCore average => Some (iCore, average)
  | _ => None
  end.

Definition reports (s : state) : list (nat * Z) := omap report_of (trace s).

(** The release and the completion signals of one round of the test task. *)
Definition is_release_of (iIter : nat) (e : event) : bool :=
  match e with
  | EvNotifyGive i _ => (i =? iIter)%nat
  | _ => false
  end.

Definition is_completion_of (iIter : nat) (e : event) : bool :=
  match e with
  | EvSemTake i _ => (i =? iIter)%nat
  | _ => false
  end.

Definition is_sync_event (e : event) : bool :=
  match e with
  | EvNotifyGive _ _ | EvSemTake _ _ => true
  | _ => false
  end.

(** The producers whose completion signal of round [iSamples] is in a list
    of events. *)
Definition is_done_signal (iSamples : nat) (e : event) : bool :=
  match e with
  | EvSemGive _ r => (r =? iSamples)%nat
  | _ => false
  end.

Section Vocabulary.
Context (cfg : port_config).

Local Abbreviation nCores := (configNUMBER_OF_CORES cfg).
Local Abbreviation nSamples := (portTEST_NUM_SAMPLES cfg).
Local Abbreviation nItems := (portTEST_NUM_ITEMS cfg).

(** *** The order of the test task's calls *)

(** The cores other than [me] among the first [k], in increasing order. *)
Definition others (me k : nat) : list nat :=
  List.filter (fun c => negb (c =? me)%nat) (seq 0 k).

(** The order in which a round releases the producers. *)
Definition release_order (me : nat) : list nat := others me nCores ++ [me].

(** The calls of round [iIter]: the releases, then the completions taken. *)
Definition round_log (me iIter : nat) : list event :=
  map (EvNotifyGive iIter) (release_order me)
  ++ map (EvSemTake iIter) (seq 0 nCores).

Definition rounds_log (me n : nat) : list event :=
  flat_map (round_log me) (seq 0 n).

Definition prints_log (acc : list Z) (k : nat) : list event :=
  map (fun j => EvPrintCore j (ux_div (default 0 (acc !! j)) nSamples)) (seq 0 k).

(** The events of the test task when it is at [pc], with the accumulators
    [acc]. *)
Definition main_log (me : nat) (acc : list Z) (pc : main_pc) : list event :=
  match pc with
  | MIter i => rounds_log me i
  | MNotify i k => rounds_log me i ++ map (EvNotifyGive i) (others me k)
  | MNotifyOwn i => rounds_log me i ++ map (EvNotifyGive i) (others me nCores)
  | MTake i k =>
      rounds_log me i ++ map (EvNotifyGive i) (release_order me)
      ++ map (EvSemTake i) (seq 0 k)
  | MPrintHeader => rounds_log me nSamples
  | MPrint k =>
      rounds_log me nSamples ++ [EvPrintHeader nItems nSamples]
      ++ prints_log acc k
  | MDone =>
      rounds_log me nSamples ++ [EvPrintHeader nItems nSamples]
      ++ prints_log acc nCores
  end.

(** *** The order of a producer's calls *)

(** The first [k] enqueue operations of round [r] on the queue of core [c],
    all successful. *)
Definition sends_log (c r k : nat) : list event :=
  map (fun j => EvQueueSend c r j true) (seq 0 k).

(** The timed window of round [r]: the first reading [w.1], the
    [portTEST_NUM_ITEMS] enqueue operations, and the second reading [w.2]
    with the Sample, which is their difference in [UBaseType_t]. *)
Definition window_log (c r : nat) (w : Z * Z) : list event :=
  [EvGetTime c r (fst w)] ++ sends_log c r nItems
  ++ [EvElapsed c r (snd w) (ux_sub cfg (snd w) (fst w))].

(** A whole round of the producer of core [c]. *)
Definition producer_round_log (c r : nat) (w : Z * Z) : list event :=
  [EvNotifyTake c r] ++ window_log c r w ++ [EvQueueReset c r; EvSemGive c r].

(** The rounds [0], [1], ... with the readings [ws]. *)
Definition producer_rounds_log (c : nat) (ws : list (Z * Z)) : list event :=
  concat (imap (producer_round_log c) ws).

(** The Samples of the rounds with the readings [ws]. *)
Definition samples_of_readings (ws : list (Z * Z)) : list Z :=
  map (fun w => ux_sub cfg (snd w) (fst w)) ws.

(** *** Invariants *)

(** The round the test task is in. *)
Definition main_round (pc : main_pc) : nat :=
  match pc with
  | MIter i | MNotify i _ | MNotifyOwn i | MTake i _ => i
  | MPrintHeader | MPrint _ | MDone => nSamples
  end.

(** Whether the test task at [pc] has released the producer of core [c] in
    its round. *)
Definition released (me : nat) (pc : main_pc) (c : nat) : bool :=
  match pc with
  | MNotify _ k => (c <? k)%nat && negb (c =? me)%nat
  | MNotifyOwn _ => negb (c =? me)%nat
  | MTake _ _ => true
  | _ => false
  end.

(** The completions the test task has taken in its round. *)
Definition taken (pc : main_pc) : nat :=
  match pc with
  | MTake _ k => k
  | _ => 0%nat
  end.

Definition main_wf (pc : main_pc) : Prop :=
  match pc with
  | MIter i => (i <= nSamples)%nat
  | MNotify i k | MTake i k => (i < nSamples)%nat /\ (k <= nCores)%nat
  | MNotifyOwn i => (i < nSamples)%nat
  | MPrintHeader | MDone => True
  | MPrint k => (k <= nCores)%nat
  end.

(** The round a producer is in, and whether it is between its release and
    its completion signal. *)
Definition pc_round (pc : producer_pc) : nat :=
  match pc with
  | PSample r | PWait r | PStart r | PItem r _ | PEnd r | PReset r | PGive r => r
  | PSuspended => nSamples
  end.

Definition pc_working (pc : producer_pc) : bool :=
  match pc with
  | PStart _ | PItem _ _ | PEnd _ | PReset _ | PGive _ => true
  | PSample _ | PWait _ | PSuspended => false
  end.

Definition pc_wf (pc : producer_pc) : Prop :=
  match pc with
  | PSample r => (r <= nSamples)%nat
  | PWait r | PStart r | PEnd r | PReset r | PGive r => (r < nSamples)%nat
  | PItem r k => (r < nSamples)%nat /\ (k <= nItems)%nat
  | PSuspended => True
  end.

(** A producer has given its completion signal of round [i]. *)
Definition is_done (i : nat) (t : producer_task) : bool :=
  negb (pc_working (pxPC t)) && (pc_round (pxPC t) =? S i)%nat.

(** How a producer stands to the test task, which is in round [i]: not
    released yet, it waits at the top of round [i]; released, it has the
    notification pending, or is at work in round [i], or has given its
    completion signal and waits at the top of round [i + 1]. *)
Definition task_sync (rel : bool) (i : nat) (t : producer_task) : Prop :=
  pc_wf (pxPC t) /\
  if rel then
    (ulNotifiedValue t = 1%nat /\ pc_working (pxPC t) = false
       /\ pc_round (pxPC t) = i)
    \/ (ulNotifiedValue t = 0%nat /\ pc_working (pxPC t) = true
       /\ pc_round (pxPC t) = i)
    \/ (ulNotifiedValue t = 0%nat /\ is_done i t = true)
  else
    ulNotifiedValue t = 0%nat /\ pc_working (pxPC t) = false
      /\ pc_round (pxPC t) = i.

(** How many elements of a list satisfy [p]. *)
Fixpoint count {A} (p : A -> bool) (l : list A) : nat :=
  match l with
  | [] => 0
  | x :: r => ((if p x then 1 else 0) + count p r)%nat
  end.

(** The barrier invariant: the shape of the arrays, the standing of every
    producer to the test task, and the count of the semaphore, which is the
    number of completion signals given in this round and not yet taken. *)
Record sync_inv (s : state) : Prop := {
  si_tasks_len : length (xProducerTaskHandles s) = nCores;
  si_core : forall c t, xProducerTaskHandles s !! c = Some t -> xCoreID t = c;
  si_me : (xMainCoreID s < nCores)%nat;
  si_main : main_wf (xMainPC s);
  si_sync : forall c t, xProducerTaskHandles s !! c = Some t ->
      task_sync (released (xMainCoreID s) (xMainPC s) c)
        (main_round (xMainPC s)) t;
  si_count : (uxCount (xIterDoneSem s) + taken (xMainPC s))%nat
      = count (is_done (main_round (xMainPC s))) (xProducerTaskHandles s);
  si_max : uxMaxCount (xIterDoneSem s) = nCores;
  si_main_log : main_trace s
      = main_log (xMainCoreID s) (uxElapsedCumulative s) (xMainPC s);
}.

(** The events of the producer of core [c] when it is at [pc] with
    [uxTempTime = tmp], after the windows with the readings [ws]. *)
Definition producer_log (c : nat) (pc : producer_pc) (tmp : Z)
    (ws : list (Z * Z)) : list event :=
  match pc with
  | PSample _ | PWait _ | PSuspended => producer_rounds_log c ws
  | PStart r => producer_rounds_log c ws ++ [EvNotifyTake c r]
  | PItem r k =>
      producer_rounds_log c ws
      ++ [EvNotifyTake c r; EvGetTime c r tmp] ++ sends_log c r k
  | PEnd r =>
      producer_rounds_log c ws
      ++ [EvNotifyTake c r; EvGetTime c r tmp] ++ sends_log c r nItems
  | PReset r =>
      producer_rounds_log c (removelast ws)
      ++ [EvNotifyTake c r] ++ window_log c r (List.last ws (0, 0))
  | PGive r =>
      producer_rounds_log c (removelast ws)
      ++ [EvNotifyTake c r] ++ window_log c r (List.last ws (0, 0))
      ++ [EvQueueReset c r]
  end.

(** The number of windows a producer at [pc] has timed. *)
Definition windows_done (pc : producer_pc) : nat :=
  match pc with
  | PReset r | PGive r => S r
  | _ => pc_round pc
  end.

(** The items in the queue of a producer at [pc]. *)
Definition queue_items (pc : producer_pc) : list Z :=
  match pc with
  | PItem _ k => map Z.of_nat (seq 0 k)
  | PEnd _ | PReset _ => map Z.of_nat (seq 0 nItems)
  | _ => []
  end.

(** The data invariant of the producer of core [c]: its queue, its
    accumulator and its events are those of its program point. *)
Definition producer_inv (s : state) (c : nat) (t : producer_task) : Prop :=
  exists q a ws,
    xQueueHandles s !! c = Some q
    /\ uxLength q = nItems
    /\ pcItems q = queue_items (pxPC t)
    /\ uxElapsedCumulative s !! c = Some a
    /\ a = ux_accumulate cfg 0 (samples_of_readings ws)
    /\ length ws = windows_done (pxPC t)
    /\ core_trace c s = producer_log c (pxPC t) (uxTempTime t) ws.

Record data_inv (s : state) : Prop := {
  di_sync : sync_inv s;
  di_ok : xTestFailure s = None;
  di_producers : forall c t, xProducerTaskHandles s !! c = Some t ->
      producer_inv s c t;
}.

End Vocabulary.

(** *** Properties of the history *)

Section History.
Context (cfg : port_config).

Local Abbreviation nCores := (configNUMBER_OF_CORES cfg).
Local Abbreviation nSamples := (portTEST_NUM_SAMPLES cfg).
Local Abbreviation nItems := (portTEST_NUM_ITEMS cfg).

(** The cores released in round [iIter], in the order of their release. *)
Definition release_of (iIter : nat) (e : event) : option nat :=
  match e with
  | EvNotifyGive i c => if (i =? iIter)%nat then Some c else None
  | _ => None
  end.

Definition released_cores (iIter : nat) (tr : list event) : list nat :=
  omap (release_of iIter) tr.

(** The completion signals consumed in round [iIter]: the values of the
    loop counter [iCore] at the calls. *)
Definition completion_of (iIter : nat) (e : event) : option nat :=
  match e with
  | EvSemTake i c => if (i =? iIter)%nat then Some c else None
  | _ => None
  end.

Definition completions (iIter : nat) (tr : list event) : list nat :=
  omap (completion_of iIter) tr.

(** The cores the test task at [pc] has released in the round it is in. *)
Definition released_so_far (me : nat) (pc : main_pc) : list nat :=
  match pc with
  | MNotify _ k => others me k
  | MNotifyOwn _ => others me nCores
  | MTake _ _ => release_order cfg me
  | _ => []
  end.

(** Round [i] is closed in the events [pre]: all the release signals of the
    round were issued, all its completion signals were consumed, and every
    producer had given its completion signal. *)
Definition round_closed (i : nat) (pre : list event) : Prop :=
  length (List.filter (is_release_of i) pre) = nCores
  /\ length (List.filter (is_completion_of i) pre) = nCores
  /\ forall c, (c < nCores)%nat -> In (EvSemGive c i) pre.

(** What holds of the events [pre] that precede an event [e]:
    a release of round [i + 1] comes after round [i] is closed; the second
    clock reading of a round comes right after the first reading and the
    [portTEST_NUM_ITEMS] enqueue operations of the round (in the order of
    the producer), and its Sample is the difference of the two readings; a
    reset comes right after the second reading of its round; an enqueue
    operation has succeeded. *)
Definition event_ok (pre : list event) (e : event) : Prop :=
  match e with
  | EvNotifyGive (S i) _ => round_closed i pre
  | EvElapsed c r uxTime uxSample =>
      exists pre' uxStart,
        List.filter (is_core_event c) pre
          = pre' ++ EvGetTime c r uxStart :: sends_log c r nItems
        /\ uxSample = ux_sub cfg uxTime uxStart
  | EvQueueReset c r =>
      exists pre' uxTime uxSample,
        List.filter (is_core_event c) pre = pre' ++ [EvElapsed c r uxTime uxSample]
  | EvQueueSend _ _ _ ok => ok = true
  | _ => True
  end.

Definition history_ok (tr : list event) : Prop :=
  forall pre e post, tr = pre ++ e :: post -> event_ok pre e.

End History.

(** *** The cycle counters do not wrap *)

(** The cycle counts at which the producer of core [i] is scheduled. *)
Definition ccounts (i : nat) (sched : list (task_id * Z)) : list Z :=
  omap (fun l => match fst l with
                 | Producer j => if (j =? i)%nat then Some (snd l) else None
                 | Main => None
                 end) sched.

(** The counts start at [lo] or later, never decrease, and stay below [hi]. *)
Fixpoint counts_up (lo hi : Z) (l : list Z) : bool :=
  match l with
  | [] => true
  | t :: r => (lo <=? t) && (t <? hi) && counts_up t hi r
  end.

(** The assumption of the spec's data model, "wraps are assumed not to
    occur within a run": on every core the cycle counter, which started at
    zero, stays below [2^w] and does not go back during the run. *)
Definition no_wrap (cfg : port_config) (sched : list (task_id * Z)) : bool :=
  forallb (fun i => counts_up 0 (uxModulus cfg) (ccounts i sched))
    (seq 0 (configNUMBER_OF_CORES cfg)).

(** Whether a producer at [pc] is between its two clock readings. *)
Definition in_window (pc : producer_pc) : bool :=
  match pc with
  | PItem _ _ | PEnd _ => true
  | _ => false
  end.

(** While the counter of core [c] has not wrapped and has last been seen at
    [lo], the Samples of the core add up to at most [lo], and to at most the
    first reading of the window the producer is in. *)
Definition clock_inv (cfg : port_config) (c : nat) (lo : Z) (s : state) : Prop :=
  (0 <= lo < uxModulus cfg)
  /\ (0 <= sumZ (samples c (trace s)) <= lo)
  /\ forall t, xProducerTaskHandles s !! c = Some t ->
       in_window (pxPC t) = true ->
       sumZ (samples c (trace s)) <= uxTempTime t <= lo.

(** How many averages the test task at [pc] has printed. *)
Definition printed (cfg : port_config) (pc : main_pc) : nat :=
  match pc with
  | MPrint k => k
  | MDone => configNUMBER_OF_CORES cfg
  | _ => 0%nat
  end.

(** *** Schedules *)

(** The schedule that runs the test task and then every producer, [n]
    times over, while the cycle counters advance by one at every turn from
    [t]. *)
Fixpoint round_robin (nCores n : nat) (t : Z) : list (task_id * Z) :=
  match n with
  | O => []
  | S n' =>
      (Main, t) :: map (fun i => (Producer i, t)) (seq 0 nCores)
      ++ round_robin nCores n' (t + 1)
  end.

(** The schedule [sched] on a slower clock: every cycle count divided by
    five, and held at [hi] once it gets there. *)
Definition slowed (hi : Z) (sched : list (task_id * Z)) : list (task_id * Z) :=
  map (fun l => (fst l, Z.min hi (snd l / 5))) sched.

(** The schedule [sched] on a clock that reads zero as long as the count
    is below [k], and [hi] from then on. *)
Definition jump_at (k hi : Z) (sched : list (task_id * Z)) : list (task_id * Z) :=
  map (fun l => (fst l, if snd l <? k then 0 else hi)) sched.

(** *** Failures *)

(** What the failed assertion of line 120 reports. *)
Definition send_failure : failure :=
  {| fLine := 120; fExpected := 1; fActual := 0;
     fMessage := "xQueueSend() failed" |}.

(** The last event of a run. *)
Definition last_event (s : state) : option event := head (xEvents s).

(** Two queues that unexpectedly hold items: each has the three places of
    the small configuration, and two of them are taken. *)
Definition crowded_queues : list queue :=
  [{| uxLength := 3; pcItems := [7; 8] |};
   {| uxLength := 3; pcItems := [7; 8] |}].

(** An enqueue operation that failed. *)
Definition is_failed_send (e : event) : bool :=
  match e with
  | EvQueueSend _ _ _ false => true
  | _ => false
  end.

(** What the events tell of a failure: while no assertion has failed, no
    enqueue operation has failed; once one has, the failure is that of line
    120, the failed operation is the last event, and it is the only one. *)
Definition abort_inv (s : state) : Prop :=
  match xTestFailure s with
  | None => forall e, In e (xEvents s) -> is_failed_send e = false
  | Some f =>
      f = send_failure
      /\ exists e rest, xEvents s = e :: rest /\ is_failed_send e = true
           /\ forall e', In e' rest -> is_failed_send e' = false
  end.

(** *** How far the test is from its end *)

Section Progress.
Context (cfg : port_config).
Local Abbreviation nCores := (configNUMBER_OF_CORES cfg).
Local Abbreviation nSamples := (portTEST_NUM_SAMPLES cfg).
Local Abbreviation nItems := (portTEST_NUM_ITEMS cfg).

(** The steps of a round of [Test_QueueContention], and those that follow
    its last round: the test of the loop, the header and the lines. *)
Definition main_round_steps : nat := 2 * nCores + 4.
Definition main_tail_steps : nat := nCores + 3.

(** The steps [Test_QueueContention] has still to take from [pc]. *)
Definition main_steps_left (pc : main_pc) : nat :=
  match pc with
  | MIter iIter => (nSamples - iIter) * main_round_steps + main_tail_steps
  | MNotify iIter iCore =>
      (nSamples - S iIter) * main_round_steps + main_tail_steps
      + (2 * nCores + 3 - iCore)
  | MNotifyOwn iIter =>
      (nSamples - S iIter) * main_round_steps + main_tail_steps + (nCores + 2)
  | MTake iIter iCore =>
      (nSamples - S iIter) * main_round_steps + main_tail_steps
      + (nCores + 1 - iCore)
  | MPrintHeader => nCores + 2
  | MPrint iCore => nCores + 1 - iCore
  | MDone => 0
  end.

(** The steps of a round of [prvProducerTask]. *)
Definition producer_round_steps : nat := nItems + 7.

(** The steps [prvProducerTask] has still to take from [pc]. *)
Definition producer_steps_left (pc : producer_pc) : nat :=
  match pc with
  | PSample iSamples => (nSamples - iSamples) * producer_round_steps + 1
  | PWait iSamples =>
      (nSamples - S iSamples) * producer_round_steps + 1 + (nItems + 6)
  | PStart iSamples =>
      (nSamples - S iSamples) * producer_round_steps + 1 + (nItems + 5)
  | PItem iSamples iItems =>
      (nSamples - S iSamples) * producer_round_steps + 1 + (nItems + 4 - iItems)
  | PEnd iSamples => (nSamples - S iSamples) * producer_round_steps + 1 + 3
  | PReset iSamples => (nSamples - S iSamples) * producer_round_steps + 1 + 2
  | PGive iSamples => (nSamples - S iSamples) * producer_round_steps + 1 + 1
  | PSuspended => 0
  end.

(** The steps all the tasks together have still to take. *)
Definition steps_left (s : state) : nat :=
  main_steps_left (xMainPC s)
  + sum_list_with (fun t => producer_steps_left (pxPC t)) (xProducerTaskHandles s).

(** The steps of a whole run: those of the test task and those of the
    producers. *)
Definition run_steps : nat :=
  nSamples * main_round_steps + main_tail_steps
  + nCores * (nSamples * producer_round_steps + 1).

(** The scheduled steps of a schedule that were taken, the scheduled task
    being able to run. *)
Fixpoint steps_taken (sched : list (task_id * Z)) (s : state) : nat :=
  match sched with
  | [] => 0
  | l :: rest =>
      match step cfg l s with
      | Some s' => S (steps_taken rest s')
      | None => steps_taken rest s
      end
  end.

(** Whether task [tid] can take a step. *)
Definition can_run (tid : task_id) (s : state) : bool :=
  match step cfg (tid, 0) s with
  | Some _ => true
  | None => false
  end.

End Progress.

(** *** Fair schedules and the events of the producers *)

(** A stretch of a schedule in which every task gets a turn. *)
Definition turn_for_all (nCores : nat) (block : list (task_id * Z)) : Prop :=
  In Main (map fst block)
  /\ forall c, (c < nCores)%nat -> In (Producer c) (map fst block).

(** The core and the round of an event of a producer. *)
Definition producer_event (e : event) : option (nat * nat) :=
  match e with
  | EvNotifyTake c r | EvGetTime c r _ | EvQueueSend c r _ _
  | EvElapsed c r _ _ | EvQueueReset c r | EvSemGive c r => Some (c, r)
  | _ => None
  end.

End QueueContention.

(** ** crit_speed.c *)

Module CritSpeed.

(** What the test does, in order: a reading of the clock with the value
    read, the entry into and the exit from the critical section, and a line
    printed with the value given for its [%u]. *)
Inductive event :=
| EvGetTime (uxTime : Z)
| EvEnterCritical
| EvExitCritical
| EvPrintf (format : string) (value : Z).

(** The local variables of [Test_CriticalSectionSpeed], the number of clock
    readings made so far, the nesting count of the critical section, and
    the events so far, newest first. *)
Record state := {
  uxEntryElapsedCumulative : Z;
  uxExitElapsedCumulative : Z;
  uxTemp : Z;
  uxReadings : nat;
  uxCriticalNesting : nat;
  xEvents : list event;
}.

Definition trace (st : state) : list event := reverse (xEvents st).

Section Test.
Context (cfg : port_config).

(** The environment: [ccount n] is the cycle count at the [n]-th reading
    of the clock, counted from zero. *)
Context (ccount : nat -> Z).

(** [portTEST_GET_TIME()], with the value read as result. *)
Definition get_time (st : state) : Z * state :=
  let now := portTEST_GET_TIME cfg (ccount (uxReadings st)) in
  (now,
   {| uxEntryElapsedCumulative := uxEntryElapsedCumulative st;
      uxExitElapsedCumulative := uxExitElapsedCumulative st;
      uxTemp := uxTemp st;
      uxReadings := S (uxReadings st);
      uxCriticalNesting := uxCriticalNesting st;
      xEvents := EvGetTime now :: xEvents st |}).

Definition set_temp (x : Z) (st : state) : state :=
  {| uxEntryElapsedCumulative := uxEntryElapsedCumulative st;
     uxExitElapsedCumulative := uxExitElapsedCumulative st;
     uxTemp := x;
     uxReadings := uxReadings st;
     uxCriticalNesting := uxCriticalNesting st;
     xEvents := xEvents st |}.

Definition add_entry (x : Z) (st : state) : state :=
  {| uxEntryElapsedCumulative := ux_add cfg (uxEntryElapsedCumulative st) x;
     uxExitElapsedCumulative := uxExitElapsedCumulative st;
     uxTemp := uxTemp st;
     uxReadings := uxReadings st;
     uxCriticalNesting := uxCriticalNesting st;
     xEvents := xEvents st |}.

Definition add_exit (x : Z) (st : state) : state :=
  {| uxEntryElapsedCumulative := uxEntryElapsedCumulative st;
     uxExitElapsedCumulative := ux_add cfg (uxExitElapsedCumulative st) x;
     uxTemp := uxTemp st;
     uxReadings := uxReadings st;
     uxCriticalNesting := uxCriticalNesting st;
     xEvents := xEvents st |}.

(** Modelled from the spec: [portENTER_CRITICAL( &mux )] (or
    [taskENTER_CRITICAL()]), "enter critical section"; the kernel's macro is
    not among the sources.  The nesting count grows by one. *)
Definition portENTER_CRITICAL (st : state) : state :=
  {| uxEntryElapsedCumulative := uxEntryElapsedCumulative st;
     uxExitElapsedCumulative := uxExitElapsedCumulative st;
     uxTemp := uxTemp st;
     uxReadings := uxReadings st;
     uxCriticalNesting := S (uxCriticalNesting st);
     xEvents := EvEnterCritical :: xEvents st |}.

(** Modelled from the spec: [portEXIT_CRITICAL( &mux )], "exit critical
    section".  The nesting count goes down by one. *)
Definition portEXIT_CRITICAL (st : state) : state :=
  {| uxEntryElapsedCumulative := uxEntryElapsedCumulative st;
     uxExitElapsedCumulative := uxExitElapsedCumulative st;
     uxTemp := uxTemp st;
     uxReadings := uxReadings st;
     uxCriticalNesting := pred (uxCriticalNesting st);
     xEvents := EvExitCritical :: xEvents st |}.

Definition printf (format : string) (value : Z) (st : state) : state :=
  {| uxEntryElapsedCumulative := uxEntryElapsedCumulative st;
     uxExitElapsedCumulative := uxExitElapsedCumulative st;
     uxTemp := uxTemp st;
     uxReadings := uxReadings st;
     uxCriticalNesting := uxCriticalNesting st;
     xEvents := EvPrintf format value :: xEvents st |}.

(** The body of the loop, lines 79 to 95. *)
Definition sample_body (st : state) : state :=
  (* uxTemp = portTEST_GET_TIME(); *)
  let '(t0, st) := get_time st in
  let st := set_temp t0 st in
  let st := portENTER_CRITICAL st in
  (* uxEntryElapsedCumulative += ( portTEST_GET_TIME() - uxTemp ); *)
  let '(t1, st) := get_time st in
  let st := add_entry (ux_sub cfg t1 (uxTemp st)) st in
  (* uxTemp = portTEST_GET_TIME(); *)
  let '(t2, st) := get_time st in
  let st := set_temp t2 st in
  let st := portEXIT_CRITICAL st in
  (* uxExitElapsedCumulative += ( portTEST_GET_TIME() - uxTemp ); *)
  let '(t3, st) := get_time st in
  add_exit (ux_sub cfg t3 (uxTemp st)) st.

(** [for( i = 0; i < n; i++ )] with a body that does not use [i]: [n] is
    the number of iterations left. *)
Fixpoint sample_loop (n : nat) (st : state) : state :=
  match n with
  | O => st
  | S n' => sample_loop n' (sample_body st)
  end.

(** The formats of the two lines, each with its newline. *)
Definition entry_format : string :=
  String.append "taskENTER_CRITICAL() average elapsed time: %u"
    (String (Ascii.ascii_of_nat 10) EmptyString).
Definition exit_format : string :=
  String.append "taskEXIT_CRITICAL() average elapsed time: %u"
    (String (Ascii.ascii_of_nat 10) EmptyString).

(** The state at the entry of the function: the three locals are zero. *)
Definition initial : state :=
  {| uxEntryElapsedCumulative := 0;
     uxExitElapsedCumulative := 0;
     uxTemp := 0;
     uxReadings := 0;
     uxCriticalNesting := 0;
     xEvents := [] |}.

Definition Test_CriticalSectionSpeed : state :=
  let st := sample_loop (portTEST_NUM_SAMPLES cfg) initial in
  let st := printf entry_format
              (ux_div (uxEntryElapsedCumulative st) (portTEST_NUM_SAMPLES cfg)) st in
  printf exit_format
    (ux_div (uxExitElapsedCumulative st) (portTEST_NUM_SAMPLES cfg)) st.

(** The lines printed, in order. *)
Definition printed_lines (tr : list event) : list (string * Z) :=
  omap (fun e => match e with
                 | EvPrintf f v => Some (f, v)
                 | _ => None
                 end) tr.

(** The events of the [i]-th iteration: each of the two calls stands alone
    between two readings of the clock. *)
Definition sample_events (i : nat) : list event :=
  [EvGetTime (portTEST_GET_TIME cfg (ccount (4 * i)));
   EvEnterCritical;
   EvGetTime (portTEST_GET_TIME cfg (ccount (4 * i + 1)));
   EvGetTime (portTEST_GET_TIME cfg (ccount (4 * i + 2)));
   EvExitCritical;
   EvGetTime (portTEST_GET_TIME cfg (ccount (4 * i + 3)))].

(** The Samples of the [i]-th iteration, as the test computes them. *)
Definition entry_sample (i : nat) : Z :=
  ux_sub cfg (portTEST_GET_TIME cfg (ccount (4 * i + 1)))
    (portTEST_GET_TIME cfg (ccount (4 * i))).

Definition exit_sample (i : nat) : Z :=
  ux_sub cfg (portTEST_GET_TIME cfg (ccount (4 * i + 3)))
    (portTEST_GET_TIME cfg (ccount (4 * i + 2))).

(** The cycles the [i]-th entry and the [i]-th exit took. *)
Definition entry_cycles (i : nat) : Z := ccount (4 * i + 1) - ccount (4 * i).
Definition exit_cycles (i : nat) : Z := ccount (4 * i + 3) - ccount (4 * i + 2).

(** The cycle counter does not wrap while the test runs: its readings do
    not decrease and stay between [0] and [2^w]. *)
Definition no_wrap : Prop :=
  (forall i j, (i <= j)%nat -> (j < 4 * portTEST_NUM_SAMPLES cfg)%nat ->
     ccount i <= ccount j)
  /\ (forall i, (i < 4 * portTEST_NUM_SAMPLES cfg)%nat ->
     0 <= ccount i < uxModulus cfg).

End Test.

(** *** The critical section and the cycles of the calls *)

(** The nesting count of the critical section after the events [tr], from
    the count [n]; [None] when an exit comes at count zero. *)
Fixpoint nesting_after (n : nat) (tr : list event) : option nat :=
  match tr with
  | [] => Some n
  | EvEnterCritical :: rest => nesting_after (S n) rest
  | EvExitCritical :: rest =>
      match n with
      | O => None
      | S m => nesting_after m rest
      end
  | _ :: rest => nesting_after n rest
  end.

(** The events that come at nesting count [d], from the count [n]. *)
Fixpoint events_at (d n : nat) (tr : list event) : list event :=
  match tr with
  | [] => []
  | e :: rest =>
      (if (n =? d)%nat then [e] else [])
      ++ events_at d (match e with
                      | EvEnterCritical => S n
                      | EvExitCritical => pred n
                      | _ => n
                      end) rest
  end.

(** Neither an entry nor an exit takes [2^w] cycles or more. *)
Definition calls_short (cfg : port_config) (ccount : nat -> Z) : Prop :=
  forall i, (i < portTEST_NUM_SAMPLES cfg)%nat ->
    0 <= entry_cycles ccount i < uxModulus cfg
    /\ 0 <= exit_cycles ccount i < uxModulus cfg.

End CritSpeed.


(** ** queue_speed.c *)

Module QueueSpeed.
Import Kernel.

(** What the test does, in order: a reading of the clock, a non-blocking
    send with the value sent and its result, a non-blocking receive with
    the value received if there was one, and a line printed. *)
Inductive event :=
| EvGetTime (uxTime : Z)
| EvQueueSend (item : Z) (ok : bool)
| EvQueueReceive (item : option Z)
| EvPrintf (format : string) (value : Z).

(** The file-scope handle [xQueueHandle] ([None] is [NULL]), the locals of
    [Test_QueueSpeedNonBlocking], the number of clock readings made so far,
    and the events so far, newest first. *)
Record state := {
  xQueueHandle : option queue;
  uxSendElapsedCumulative : Z;
  uxRecvElapsedCumulative : Z;
  uxTemp : Z;
  iValue : Z;
  uxReadings : nat;
  xEvents : list event;
}.

Definition trace (st : state) : list event := reverse (xEvents st).

(** How a part of the test ends: it goes on with a state, or an assertion
    has failed and the test is aborted. *)
Inductive result :=
| Ok (st : state)
| Abort (f : failure) (st : state).

Definition bind (r : result) (k : state -> result) : result :=
  match r with
  | Ok st => k st
  | Abort f st => Abort f st
  end.

(** [for( i = first; i < first + n; i++ )]: [n] is the number of
    iterations left. *)
Fixpoint for_loop (body : nat -> state -> result) (i n : nat) (st : state) : result :=
  match n with
  | O => Ok st
  | S n' => bind (body i st) (for_loop body (S i) n')
  end.

Section Test.
Context (cfg : port_config).

(** The environment: [ccount n] is the cycle count at the [n]-th reading
    of the clock, counted from zero. *)
Context (ccount : nat -> Z).

Definition emit (e : event) (st : state) : state :=
  {| xQueueHandle := xQueueHandle st;
     uxSendElapsedCumulative := uxSendElapsedCumulative st;
     uxRecvElapsedCumulative := uxRecvElapsedCumulative st;
     uxTemp := uxTemp st; iValue := iValue st;
     uxReadings := uxReadings st;
     xEvents := e :: xEvents st |}.

Definition set_queue (q : option queue) (st : state) : state :=
  {| xQueueHandle := q;
     uxSendElapsedCumulative := uxSendElapsedCumulative st;
     uxRecvElapsedCumulative := uxRecvElapsedCumulative st;
     uxTemp := uxTemp st; iValue := iValue st;
     uxReadings := uxReadings st;
     xEvents := xEvents st |}.

Definition set_temp (x : Z) (st : state) : state :=
  {| xQueueHandle := xQueueHandle st;
     uxSendElapsedCumulative := uxSendElapsedCumulative st;
     uxRecvElapsedCumulative := uxRecvElapsedCumulative st;
     uxTemp := x; iValue := iValue st;
     uxReadings := uxReadings st;
     xEvents := xEvents st |}.

Definition set_value (x : Z) (st : state) : state :=
  {| xQueueHandle := xQueueHandle st;
     uxSendElapsedCumulative := uxSendElapsedCumulative st;
     uxRecvElapsedCumulative := uxRecvElapsedCumulative st;
     uxTemp := uxTemp st; iValue := x;
     uxReadings := uxReadings st;
     xEvents := xEvents st |}.

Definition add_send (x : Z) (st : state) : state :=
  {| xQueueHandle := xQueueHandle st;
     uxSendElapsedCumulative := ux_add cfg (uxSendElapsedCumulative st) x;
     uxRecvElapsedCumulative := uxRecvElapsedCumulative st;
     uxTemp := uxTemp st; iValue := iValue st;
     uxReadings := uxReadings st;
     xEvents := xEvents st |}.

Definition add_recv (x : Z) (st : state) : state :=
  {| xQueueHandle := xQueueHandle st;
     uxSendElapsedCumulative := uxSendElapsedCumulative st;
     uxRecvElapsedCumulative := ux_add cfg (uxRecvElapsedCumulative st) x;
     uxTemp := uxTemp st; iValue := iValue st;
     uxReadings := uxReadings st;
     xEvents := xEvents st |}.

(** [portTEST_GET_TIME()], with the value read as result. *)
Definition get_time (st : state) : Z * state :=
  let now := portTEST_GET_TIME cfg (ccount (uxReadings st)) in
  (now,
   {| xQueueHandle := xQueueHandle st;
      uxSendElapsedCumulative := uxSendElapsedCumulative st;
      uxRecvElapsedCumulative := uxRecvElapsedCumulative st;
      uxTemp := uxTemp st; iValue := iValue st;
      uxReadings := S (uxReadings st);
      xEvents := EvGetTime now :: xEvents st |}).

(** [xQueueSend( xQueueHandle, &i, 0 )] on the handle of the state; a send
    on a [NULL] handle fails. *)
Definition queue_send (item : Z) (st : state) : bool * state :=
  match xQueueHandle st with
  | Some q =>
      let '(q', ok) := xQueueSend q item in
      (ok, emit (EvQueueSend item ok) (set_queue (Some q') st))
  | None => (false, emit (EvQueueSend item false) st)
  end.

(** [xQueueReceive( xQueueHandle, &iValue, 0 )]: the value received is
    stored in [iValue]. *)
Definition queue_receive (st : state) : bool * state :=
  match xQueueHandle st with
  | Some q =>
      match xQueueReceive q with
      | (q', Some v) =>
          (true, emit (EvQueueReceive (Some v)) (set_value v (set_queue (Some q') st)))
      | (_, None) => (false, emit (EvQueueReceive None) st)
      end
  | None => (false, emit (EvQueueReceive None) st)
  end.

(** [TEST_ASSERT_EQUAL_MESSAGE( pdTRUE, ok, message )] at [line]. *)
Definition assert_true (line : nat) (ok : bool) (message : string)
    (st : state) : result :=
  match TEST_ASSERT_EQUAL_MESSAGE line pdTRUE (BaseType_of_bool ok) message with
  | None => Ok st
  | Some f => Abort f st
  end.

(** The body of the first loop, lines 80 to 82. *)
Definition send_body (i : nat) (st : state) : result :=
  let '(t0, st) := get_time st in
  let st := set_temp t0 st in
  let '(ok, st) := queue_send (Z.of_nat i) st in
  bind (assert_true 81 ok "xQueueSend() failed" st) (fun st =>
  let '(t1, st) := get_time st in
  Ok (add_send (ux_sub cfg t1 (uxTemp st)) st)).

(** The body of the second loop, lines 86 to 89. *)
Definition recv_body (i : nat) (st : state) : result :=
  let '(t0, st) := get_time st in
  let st := set_temp t0 st in
  let '(ok, st) := queue_receive st in
  bind (assert_true 88 ok "xQueueReceive() failed" st) (fun st =>
  let '(t1, st) := get_time st in
  Ok (add_recv (ux_sub cfg t1 (uxTemp st)) st)).

(** The formats of the two lines, each with its newline. *)
Definition send_format : string :=
  String.append "xQueueSend() average elapsed time: %u"
    (String (Ascii.ascii_of_nat 10) EmptyString).
Definition recv_format : string :=
  String.append "xQueueReceive() average elapsed time: %u"
    (String (Ascii.ascii_of_nat 10) EmptyString).

Definition Test_QueueSpeedNonBlocking (st : state) : result :=
  let st := {| xQueueHandle := xQueueHandle st;
               uxSendElapsedCumulative := 0;
               uxRecvElapsedCumulative := 0;
               uxTemp := 0; iValue := iValue st;
               uxReadings := uxReadings st;
               xEvents := xEvents st |} in
  bind (for_loop send_body 0 (portTEST_NUM_SAMPLES cfg) st) (fun st =>
  bind (for_loop recv_body 0 (portTEST_NUM_SAMPLES cfg) st) (fun st =>
  let st := emit (EvPrintf send_format
                    (ux_div (uxSendElapsedCumulative st) (portTEST_NUM_SAMPLES cfg))) st in
  Ok (emit (EvPrintf recv_format
              (ux_div (uxRecvElapsedCumulative st) (portTEST_NUM_SAMPLES cfg))) st))).

(** [setup_idf] when it succeeds: the queue is created with room for
    [portTEST_NUM_SAMPLES] items, [xQueueCreate] has returned it and the
    assertion of line 105 holds. *)
Definition setup_idf : state :=
  {| xQueueHandle := Some (xQueueCreate (portTEST_NUM_SAMPLES cfg));
     uxSendElapsedCumulative := 0;
     uxRecvElapsedCumulative := 0;
     uxTemp := 0; iValue := 0;
     uxReadings := 0;
     xEvents := [] |}.

(** [teardown_idf]: the queue is deleted and the handle set to [NULL]. *)
Definition teardown_idf (st : state) : state := set_queue None st.

(** [setup_idf] with the two ways it can end, lines 104 and 105:
    [xQueueCreate] returns the queue when [created] is true, and [NULL]
    when the memory for the queue is not to be had; the assertion of line
    105 aborts the test on [NULL]. *)
Definition setup_idf_or_abort (created : bool) : result :=
  let st := set_queue (if created then xQueueHandle setup_idf else None)
              setup_idf in
  match TEST_ASSERT_NOT_NULL_MESSAGE 105 (xQueueHandle st)
          "Queue creation failed" with
  | None => Ok st
  | Some f => Abort f st
  end.

(** The test case: [setup_idf(); Test_QueueSpeedNonBlocking();
    teardown_idf();].  A failed assertion aborts it before the teardown. *)
Definition test_case (created : bool) : result :=
  bind (setup_idf_or_abort created) (fun st =>
  bind (Test_QueueSpeedNonBlocking st) (fun st => Ok (teardown_idf st))).

(** The sends and the receives among the events, the clock readings and
    the printed lines left out. *)
Definition is_queue_event (e : event) : bool :=
  match e with
  | EvQueueSend _ _ | EvQueueReceive _ => true
  | _ => false
  end.

Definition queue_events (st : state) : list event :=
  List.filter is_queue_event (trace st).

End Test.

(** *** The timed calls and the failure of a send *)
Section Vocabulary.
Context (cfg : port_config) (ccount : nat -> Z).

(** What the assertion of line 81 reports when it fails. *)
Definition send_failure : failure :=
  {| fLine := 81; fExpected := pdTRUE; fActual := pdFALSE;
     fMessage := "xQueueSend() failed" |}.

(** What the assertion of line 105 reports when it fails. *)
Definition creation_failure : failure :=
  {| fLine := 105; fExpected := 1; fActual := 0;
     fMessage := "Queue creation failed" |}.

(** The places left in a queue. *)
Definition free_places (q : queue) : nat := (uxLength q - length (pcItems q))%nat.

(** The lines printed, in order. *)
Definition printed_lines (tr : list event) : list (string * Z) :=
  omap (fun e => match e with
                 | EvPrintf f v => Some (f, v)
                 | _ => None
                 end) tr.

(** The clock readings of the test when [r0] readings were made before it:
    the [k]-th reading of the test. *)
Definition reading (r0 k : nat) : Z := portTEST_GET_TIME cfg (ccount (r0 + k)).

(** The events of the [i]-th iteration of the first loop and of the second
    loop: the call alone between two readings of the clock. *)
Definition send_events (r0 i : nat) : list event :=
  [EvGetTime (reading r0 (2 * i)); EvQueueSend (Z.of_nat i) true;
   EvGetTime (reading r0 (2 * i + 1))].

Definition recv_events (r0 i : nat) (v : Z) : list event :=
  [EvGetTime (reading r0 (2 * i)); EvQueueReceive (Some v);
   EvGetTime (reading r0 (2 * i + 1))].

(** The events of a send that finds the queue full. *)
Definition failed_send_events (r0 i : nat) : list event :=
  [EvGetTime (reading r0 (2 * i)); EvQueueSend (Z.of_nat i) false].

(** The Sample of the [i]-th timed call, as the test computes it, and the
    cycles the call took. *)
Definition call_sample (r0 i : nat) : Z :=
  ux_sub cfg (reading r0 (2 * i + 1)) (reading r0 (2 * i)).

Definition call_cycles (r0 i : nat) : Z :=
  ccount (r0 + (2 * i + 1))%nat - ccount (r0 + 2 * i)%nat.

(** None of the first [n] timed calls takes [2^w] cycles or more. *)
Definition calls_short (r0 n : nat) : Prop :=
  forall k, (k < n)%nat -> 0 <= call_cycles r0 k < uxModulus cfg.

End Vocabulary.

End QueueSpeed.


(** * Proofs *)

(** ** Lists *)

Section CountFacts.
Context {A : Type} (p : A -> bool).

Lemma count_le_length (l : list A) : (QueueContention.count p l <= length l)%nat.
Proof. induction l as [|x l IH]; simpl; [lia|]. destruct (p x); lia. Qed.

Lemma count_insert (l : list A) (i : nat) (x y : A) :
  l !! i = Some x ->
  (QueueContention.count p (<[i := y]> l) + (if p x then 1 else 0)
   = QueueContention.count p l + (if p y then 1 else 0))%nat.
Proof.
  revert i. induction l as [|z l IH]; intros [|i] H; simpl in *; try discriminate.
  - injection H as ->. lia.
  - specialize (IH _ H). lia.
Qed.

Lemma count_all_false (l : list A) :
  (forall i x, l !! i = Some x -> p x = false) -> QueueContention.count p l = 0%nat.
Proof.
  induction l as [|z l IH]; intros H; simpl; [done|].
  rewrite (H 0%nat z eq_refl). rewrite IH; [done|].
  intros i x Hi. apply (H (S i) x Hi).
Qed.

Lemma count_full (l : list A) :
  QueueContention.count p l = length l -> forall i x, l !! i = Some x -> p x = true.
Proof.
  induction l as [|z l IH]; intros H i x Hi; [done|].
  simpl in H. pose proof (count_le_length l).
  destruct (p z) eqn:Hz; [|lia].
  destruct i as [|i]; simpl in Hi.
  - by injection Hi as <-.
  - apply (IH ltac:(lia) i x Hi).
Qed.

Lemma count_not_full (l : list A) :
  (QueueContention.count p l < length l)%nat -> exists i x, l !! i = Some x /\ p x = false.
Proof.
  induction l as [|z l IH]; simpl; intros H; [lia|].
  destruct (p z) eqn:Hz.
  - destruct IH as (i & x & Hi & Hx); [lia|]. by exists (S i), x.
  - by exists 0%nat, z.
Qed.

End CountFacts.

Lemma filter_filter_imp {A} (p q : A -> bool) (l : list A) :
  (forall x, p x = true -> q x = true) ->
  List.filter p (List.filter q l) = List.filter p l.
Proof.
  intros H. induction l as [|x l IH]; simpl; [done|].
  destruct (q x) eqn:Hq; simpl.
  - by rewrite IH.
  - destruct (p x) eqn:Hp; [|done]. rewrite (H x Hp) in Hq. done.
Qed.

Lemma omap_filter {A B} (f : A -> option B) (q : A -> bool) (l : list A) :
  (forall x, q x = false -> f x = None) ->
  omap f (List.filter q l) = omap f l.
Proof.
  intros H. induction l as [|x l IH]; simpl; [done|].
  destruct (q x) eqn:Hq; simpl.
  - destruct (f x); [f_equal|]; exact IH.
  - rewrite (H x Hq). exact IH.
Qed.

Lemma filter_none {A} (p : A -> bool) (l : list A) :
  (forall x, In x l -> p x = false) -> List.filter p l = [].
Proof.
  induction l as [|x l IH]; simpl; intros H; [done|].
  rewrite (H x) by auto. apply IH. auto.
Qed.

Lemma omap_none {A B} (f : A -> option B) (l : list A) :
  (forall x, In x l -> f x = None) -> omap f l = [].
Proof.
  induction l as [|x l IH]; simpl; intros H; [done|].
  rewrite (H x) by auto. apply IH. auto.
Qed.

Lemma omap_snoc {A B} (f : A -> option B) (l : list A) (x : A) :
  omap f (l ++ [x]) = omap f l ++ match f x with Some y => [y] | None => [] end.
Proof. rewrite omap_app. simpl. by destruct (f x). Qed.

Lemma filter_all {A} (p : A -> bool) (l : list A) :
  (forall x, In x l -> p x = true) -> List.filter p l = l.
Proof.
  induction l as [|x l IH]; simpl; intros H; [done|].
  rewrite (H x) by auto. f_equal. apply IH. auto.
Qed.

Lemma sumZ_app l1 l2 : sumZ (l1 ++ l2) = sumZ l1 + sumZ l2.
Proof. induction l1 as [|x l1 IH]; simpl; [done|]. rewrite IH. lia. Qed.

Lemma filter_snoc {A} (p : A -> bool) (l : list A) (x : A) :
  List.filter p (l ++ [x]) = List.filter p l ++ (if p x then [x] else []).
Proof. rewrite List.filter_app. simpl. by destruct (p x). Qed.

Lemma lookup_alter_inv {A} (f : A -> A) (l : list A) (i c : nat) (y : A) :
  alter f i l !! c = Some y ->
  exists x, l !! c = Some x /\ y = (if decide (c = i) then f x else x).
Proof.
  intros H. destruct (decide (c = i)) as [->|Hne].
  - rewrite list_lookup_alter_eq in H. destruct (l !! i) as [x|]; [|done].
    injection H as <-. by exists x.
  - rewrite list_lookup_alter_ne in H by done. by exists y.
Qed.

Lemma lookup_insert_inv {A} (l : list A) (i c : nat) (x y : A) :
  <[i := x]> l !! c = Some y ->
  (c = i /\ y = x) \/ (c <> i /\ l !! c = Some y).
Proof.
  intros H. destruct (decide (c = i)) as [->|Hne].
  - left. split; [done|]. pose proof (lookup_lt_Some _ _ _ H) as Hlt.
    rewrite length_insert in Hlt. rewrite list_lookup_insert_eq in H by done.
    by injection H.
  - right. by rewrite list_lookup_insert_ne in H.
Qed.

(** Sums over a list. *)
Section SumFacts.
Context {A : Type} (f : A -> nat).

Lemma sum_list_with_insert (l : list A) (i : nat) (x y : A) :
  l !! i = Some x ->
  (sum_list_with f (<[i := y]> l) + f x = sum_list_with f l + f y)%nat.
Proof.
  revert i. induction l as [|z l IH]; intros [|i] H; simpl in *; try discriminate.
  - injection H as ->. lia.
  - specialize (IH _ H). lia.
Qed.

Lemma sum_list_with_alter (g : A -> A) (l : list A) (i : nat) :
  (forall x, f (g x) = f x) ->
  sum_list_with f (alter g i l) = sum_list_with f l.
Proof.
  intros Hg. revert i. induction l as [|z l IH]; intros [|i]; simpl; try done.
  - by rewrite Hg.
  - f_equal. apply IH.
Qed.

Lemma sum_list_with_zero (l : list A) :
  sum_list_with f l = 0%nat <-> forall i x, l !! i = Some x -> f x = 0%nat.
Proof.
  induction l as [|z l IH]; simpl.
  - split; [by intros _ i x|done].
  - split.
    + intros H [|i] x Hx; simpl in Hx.
      * injection Hx as <-. lia.
      * apply (proj1 IH ltac:(lia) i x Hx).
    + intros H. rewrite (H 0%nat z eq_refl). simpl. apply IH.
      intros i x Hx. apply (H (S i) x Hx).
Qed.

Lemma sum_list_with_const (l : list A) (n : nat) :
  (forall i x, l !! i = Some x -> f x = n) ->
  sum_list_with f l = (length l * n)%nat.
Proof.
  induction l as [|z l IH]; intros H; simpl; [done|].
  rewrite (H 0%nat z eq_refl), IH; [lia|].
  intros i x Hx. apply (H (S i) x Hx).
Qed.

End SumFacts.

Lemma in_reverse {A} (x : A) (l : list A) : In x (reverse l) <-> In x l.
Proof. unfold reverse. rewrite <- rev_alt. symmetry. apply in_rev. Qed.


(** ** Arithmetic in [UBaseType_t] *)

Section UBase.
Context (cfg : port_config).

Lemma uxModulus_pos : 0 < uxModulus cfg.
Proof. unfold uxModulus. apply Z.pow_pos_nonneg; lia. Qed.

Lemma to_UBaseType_small x : 0 <= x < uxModulus cfg -> to_UBaseType cfg x = x.
Proof. intros H. unfold to_UBaseType. by apply Z.mod_small. Qed.

Lemma to_UBaseType_range x : 0 <= to_UBaseType cfg x < uxModulus cfg.
Proof. unfold to_UBaseType. apply Z.mod_pos_bound, uxModulus_pos. Qed.

Lemma ux_accumulate_sum a l :
  to_UBaseType cfg a = a ->
  ux_accumulate cfg a l = to_UBaseType cfg (a + sumZ l).
Proof.
  revert a. induction l as [|x l IH]; intros a Ha; simpl.
  - by rewrite Z.add_0_r, Ha.
  - unfold ux_accumulate in *. simpl. rewrite IH.
    + unfold ux_add, to_UBaseType. rewrite Zplus_mod_idemp_l. f_equal. lia.
    + unfold ux_add, to_UBaseType. apply Z.mod_mod.
      pose proof uxModulus_pos. lia.
Qed.

Lemma ux_accumulate_0 l :
  ux_accumulate cfg 0 l = to_UBaseType cfg (sumZ l).
Proof. rewrite ux_accumulate_sum; [done|]. apply Z.mod_0_l.
  pose proof uxModulus_pos. lia. Qed.

End UBase.

(** When the quotient of the wrapped sum is that of the sum. *)
Lemma wrapped_quotient (m n x : Z) :
  0 < n <= m -> 0 <= x -> ((x mod m) / n = x / n <-> x < m).
Proof.
  intros Hn Hx. split.
  - intros Heq. destruct (Z_lt_ge_dec x m) as [|Hge]; [done|]. exfalso.
    assert (Hm : x mod m <= x - m).
    { pose proof (Z.mod_pos_bound x m ltac:(lia)).
      pose proof (Z.div_mod x m ltac:(lia)).
      assert (1 <= x / m) by (apply Z.div_le_lower_bound; lia). nia. }
    assert (Hd : (x mod m) / n <= (x - n) / n) by (apply Z.div_le_mono; lia).
    replace (x - n) with (x + (-1) * n) in Hd by lia.
    rewrite Z.div_add in Hd by lia. lia.
  - intros Hlt. by rewrite Z.mod_small by lia.
Qed.

Lemma quotient_floor (a n : Z) :
  0 < n -> n * (a / n) <= a < n * (a / n) + n.
Proof.
  intros Hn. pose proof (Z.div_mod a n ltac:(lia)).
  pose proof (Z.mod_pos_bound a n Hn). lia.
Qed.

(** The difference of two readings of the clock is the number of cycles
    between them when that number is below [2^w], whether or not the counter
    has wrapped between the two. *)
Lemma ux_sub_readings (cfg : port_config) (c0 c1 : Z) :
  0 <= c1 - c0 < uxModulus cfg ->
  ux_sub cfg (portTEST_GET_TIME cfg c1) (portTEST_GET_TIME cfg c0) = c1 - c0.
Proof.
  intros H. unfold ux_sub, portTEST_GET_TIME, to_UBaseType.
  rewrite <- Zminus_mod. by apply Z.mod_small.
Qed.

Lemma sumZ_bounds (l : list Z) (hi : Z) :
  (forall x, In x l -> 0 <= x) -> sumZ l < hi -> 0 <= sumZ l < hi.
Proof.
  intros Hl Hs. split; [|done].
  induction l as [|x l IH]; simpl in *; [lia|].
  pose proof (Hl x (or_introl eq_refl)).
  assert (0 <= sumZ l); [|lia].
  clear Hs IH. induction l as [|y l IH]; simpl; [lia|].
  pose proof (Hl y (or_intror (or_introl eq_refl))).
  assert (0 <= sumZ l); [|lia]. apply IH. intros z [->|Hz]; apply Hl; simpl; auto.
Qed.


(** ** The queue contention test *)

Module QueueContentionProofs.
Import Kernel QueueContention.

(** *** Traces and updates of the arrays *)

Lemma trace_emit e s s' :
  xEvents s' = e :: xEvents s -> trace s' = trace s ++ [e].
Proof. intros H. unfold trace. by rewrite H, reverse_cons. Qed.

Lemma main_trace_emit e s s' :
  xEvents s' = e :: xEvents s ->
  main_trace s' = main_trace s ++ (if is_main_event e then [e] else []).
Proof.
  intros H. unfold main_trace. rewrite (trace_emit e s s' H). apply filter_snoc.
Qed.

Lemma main_trace_same s s' : xEvents s' = xEvents s -> main_trace s' = main_trace s.
Proof. intros H. unfold main_trace, trace. by rewrite H. Qed.

Lemma others_S_ne me k : k <> me -> others me (S k) = others me k ++ [k].
Proof.
  intros H. unfold others. rewrite seq_S, List.filter_app. simpl.
  destruct (Nat.eqb_spec k me); [done|]. done.
Qed.

Lemma others_S_eq me : others me (S me) = others me me.
Proof.
  unfold others. rewrite seq_S, List.filter_app. simpl.
  rewrite Nat.eqb_refl. simpl. by rewrite app_nil_r.
Qed.

Lemma count_alter {A} (p : A -> bool) (f : A -> A) (l : list A) (i : nat) :
  (forall x, p (f x) = p x) -> count p (alter f i l) = count p l.
Proof.
  intros Hf. revert i. induction l as [|z l IH]; intros [|i]; simpl; try done.
  - by rewrite Hf.
  - f_equal. apply IH.
Qed.

Lemma main_trace_emit_producer e s s0 s' :
  is_main_event e = false ->
  xEvents s' = e :: xEvents s0 -> xEvents s0 = xEvents s ->
  main_trace s' = main_trace s.
Proof.
  intros He H H0. rewrite (main_trace_emit e s0 s' H), He, app_nil_r.
  by apply main_trace_same.
Qed.

Lemma core_trace_emit c e s s' :
  xEvents s' = e :: xEvents s ->
  core_trace c s' = core_trace c s ++ (if is_core_event c e then [e] else []).
Proof.
  intros H. unfold core_trace. rewrite (trace_emit e s s' H). apply filter_snoc.
Qed.

Lemma core_trace_same c s s' : xEvents s' = xEvents s -> core_trace c s' = core_trace c s.
Proof. intros H. unfold core_trace, trace. by rewrite H. Qed.

Lemma sends_log_S c r k :
  sends_log c r (S k) = sends_log c r k ++ [EvQueueSend c r k true].
Proof. unfold sends_log. by rewrite seq_S, map_app. Qed.

Lemma core_trace_other c i e s s0 s' :
  c <> i -> (forall x, is_core_event x e = (i =? x)%nat) ->
  xEvents s' = e :: xEvents s0 -> xEvents s0 = xEvents s ->
  core_trace c s' = core_trace c s.
Proof.
  intros Hne He H H0. rewrite (core_trace_emit c e s0 s' H), He.
  rewrite (proj2 (Nat.eqb_neq i c)) by done. rewrite app_nil_r.
  by apply core_trace_same.
Qed.

Lemma core_trace_own i e s s0 s' :
  (forall x, is_core_event x e = (i =? x)%nat) ->
  xEvents s' = e :: xEvents s0 -> xEvents s0 = xEvents s ->
  core_trace i s' = core_trace i s ++ [e].
Proof.
  intros He H H0. rewrite (core_trace_emit i e s0 s' H), He, Nat.eqb_refl.
  f_equal. by apply core_trace_same.
Qed.

(** Tactics: the cases of a step, and the frame of a producer's step. *)

Ltac case_step H :=
  unfold step in H;
  repeat match type of H with
  | context [match ?x with _ => _ end] => destruct x eqn:?
  | Some _ = Some _ => injection H as <-
  | None = Some _ => discriminate H
  | Test_QueueContention _ _ = _ => unfold Test_QueueContention in H
  | prvProducerTask _ _ _ _ = _ => unfold prvProducerTask in H
  end.

Ltac ltb_facts :=
  repeat match goal with
  | H : (_ <? _)%nat = true |- _ => apply Nat.ltb_lt in H
  | H : (_ <? _)%nat = false |- _ => apply Nat.ltb_ge in H
  | H : (_ =? _)%nat = true |- _ => apply Nat.eqb_eq in H
  | H : (_ =? _)%nat = false |- _ => apply Nat.eqb_neq in H
  | H : negb _ = true |- _ => apply negb_true_iff in H
  | H : negb _ = false |- _ => apply negb_false_iff in H
  end.

Ltac producer_frame :=
  try done;
  try (eapply main_trace_emit_producer; [| reflexivity | reflexivity]; done).

Ltac frame_other :=
  let c := fresh "c" in
  let Hne := fresh "Hne" in
  intros c Hne;
  first [ by apply core_trace_same
        | eapply core_trace_other; [exact Hne | | reflexivity | reflexivity];
            intros ?; reflexivity
        | simpl;
          first [ done
                | rewrite list_lookup_insert_ne by done; done
                | rewrite list_lookup_alter_ne by done; done ] ].

Ltac list_norm :=
  rewrite <- ?app_assoc; simpl; rewrite <- ?app_assoc; done.

Ltac own_event s :=
  erewrite (core_trace_own _ _ s); [| | reflexivity | reflexivity];
  [| intros ?; reflexivity].


(** *** The barrier invariant *)

Section Invariants.
Context (cfg : port_config).
Local Abbreviation nCores := (configNUMBER_OF_CORES cfg).
Local Abbreviation nSamples := (portTEST_NUM_SAMPLES cfg).
Local Abbreviation nItems := (portTEST_NUM_ITEMS cfg).

Lemma rounds_log_S me n :
  rounds_log cfg me (S n) = rounds_log cfg me n ++ round_log cfg me n.
Proof.
  unfold rounds_log. rewrite seq_S, flat_map_app. simpl. by rewrite app_nil_r.
Qed.

Lemma prints_log_S acc k :
  prints_log cfg acc (S k)
  = prints_log cfg acc k
    ++ [EvPrintCore k (ux_div (default 0 (acc !! k)) nSamples)].
Proof. unfold prints_log. by rewrite seq_S, map_app. Qed.

(** A main program point outside the rounds releases no producer, so a
    producer at work excludes it. *)
Lemma main_log_acc me acc acc' pc :
  (exists c, released me pc c = true) ->
  main_log cfg me acc' pc = main_log cfg me acc pc.
Proof. intros [c H]. destruct pc; simpl in *; congruence. Qed.

Lemma task_sync_released_working me pc c i t :
  task_sync cfg (released me pc c) i t -> pc_working (pxPC t) = true ->
  released me pc c = true.
Proof.
  intros [_ H] Hw. destruct (released me pc c); [done|].
  destruct H as (_ & H & _). congruence.
Qed.

(** A step of producer [i] that changes neither its standing to the test
    task nor the semaphore keeps the barrier invariant. *)
Lemma sync_inv_producer i t t' s s' :
  sync_inv cfg s ->
  xProducerTaskHandles s !! i = Some t ->
  xProducerTaskHandles s' = <[i := t']> (xProducerTaskHandles s) ->
  xMainPC s' = xMainPC s ->
  xMainCoreID s' = xMainCoreID s ->
  xIterDoneSem s' = xIterDoneSem s ->
  main_trace s' = main_trace s ->
  (pc_working (pxPC t) = true \/ uxElapsedCumulative s' = uxElapsedCumulative s) ->
  xCoreID t' = xCoreID t ->
  (forall rel, task_sync cfg rel (main_round cfg (xMainPC s)) t ->
      task_sync cfg rel (main_round cfg (xMainPC s)) t'
      /\ is_done cfg (main_round cfg (xMainPC s)) t'
         = is_done cfg (main_round cfg (xMainPC s)) t) ->
  sync_inv cfg s'.
Proof.
  intros Hinv Hi Hts Hpc Hme Hsem Htr Hacc Hcore Hsync.
  destruct Hinv as [Hlen Hc Hm Hwf Hs Hcnt Hmax Hlog].
  assert (Hlt : (i < length (xProducerTaskHandles s))%nat)
    by (eapply lookup_lt_Some; eauto).
  destruct (Hsync _ (Hs i t Hi)) as [Hsync' Hdone].
  constructor; rewrite ?Hts, ?Hpc, ?Hme, ?Hsem, ?Htr.
  - by rewrite length_insert.
  - intros c x Hx. destruct (decide (c = i)) as [->|Hne].
    + rewrite list_lookup_insert_eq in Hx by done. injection Hx as <-.
      rewrite Hcore. eauto.
    + rewrite list_lookup_insert_ne in Hx by done. eauto.
  - done.
  - done.
  - intros c x Hx. destruct (decide (c = i)) as [->|Hne].
    + rewrite list_lookup_insert_eq in Hx by done. by injection Hx as <-.
    + rewrite list_lookup_insert_ne in Hx by done. eauto.
  - pose proof (count_insert (is_done cfg (main_round cfg (xMainPC s)))
                  _ i t t' Hi) as Hci.
    rewrite Hdone in Hci. rewrite Hcnt. lia.
  - done.
  - rewrite Hlog. destruct Hacc as [Hw | ->]; [|done].
    symmetry. apply main_log_acc. exists i.
    by eapply task_sync_released_working; [apply (Hs i t Hi)|].
Qed.

(** A step inside one of the three stretches of the producer's loop. *)
Lemma task_sync_same rel i t t' :
  ulNotifiedValue t' = ulNotifiedValue t ->
  pc_working (pxPC t') = pc_working (pxPC t) ->
  (pc_wf cfg (pxPC t) -> pc_round cfg (pxPC t') = pc_round cfg (pxPC t)
                         /\ pc_wf cfg (pxPC t')) ->
  task_sync cfg rel i t ->
  task_sync cfg rel i t' /\ is_done cfg i t' = is_done cfg i t.
Proof.
  intros Hn Hw Hr [Hwf H]. destruct (Hr Hwf) as [Hr' Hwf'].
  unfold task_sync, is_done. rewrite Hn, Hw, Hr'. done.
Qed.

(** The producer consumes its release. *)
Lemma task_sync_take rel i r t v x :
  pxPC t = PWait r -> ulTaskNotifyTake (ulNotifiedValue t) = Some (v, x) ->
  task_sync cfg rel i t ->
  task_sync cfg rel i (set_pc (PStart r) (set_notified v t))
  /\ is_done cfg i (set_pc (PStart r) (set_notified v t)) = is_done cfg i t.
Proof.
  intros Hpc Htake [Hwf H]. unfold ulTaskNotifyTake in Htake.
  destruct (ulNotifiedValue t) as [|n] eqn:Hn; [done|]. injection Htake as <- <-.
  unfold task_sync, is_done in *. rewrite Hpc in *. simpl in *.
  destruct rel.
  - destruct H as [(_ & _ & <-)|[(? & ? & _)|(? & _)]]; try done.
    split; [|by rewrite (proj2 (Nat.eqb_neq r (S r))) by lia].
    split; [done|]. right. by left.
  - by destruct H as [? _].
Qed.

Lemma is_done_set_notified i v t :
  is_done cfg i (set_notified v t) = is_done cfg i t.
Proof. done. Qed.

(** The release of an idle producer makes its notification pending. *)
Lemma task_sync_give i t :
  task_sync cfg false i t ->
  task_sync cfg true i (set_notified (xTaskNotifyGive (ulNotifiedValue t)) t).
Proof.
  intros (Hwf & Hn & Hw & Hr). split; [done|]. left. simpl.
  rewrite Hn. done.
Qed.

Opaque seq.

Lemma sync_inv_main_step s s' :
  sync_inv cfg s -> Test_QueueContention cfg s = Some s' -> sync_inv cfg s'.
Proof.
  intros Hinv Hstep. case_step Hstep; ltb_facts;
    destruct Hinv as [Hlen Hc Hm Hwf Hs Hcnt Hmax Hlog];
    rewrite Heqm in *; simpl in *.
  - (* MIter, enter the round *)
    constructor; simpl; try done.
    + lia.
    + by rewrite (main_trace_same s), Hlog, app_nil_r.
  - (* MIter, leave the loop *)
    assert (iIter = nSamples) as -> by lia.
    constructor; simpl; try done.
  - (* MNotify, another core *)
    constructor; simpl; try done.
    + by rewrite length_alter.
    + intros c t (x & Hx & ->)%lookup_alter_inv.
      destruct (decide (c = iCore)); simpl; eauto.
    + lia.
    + intros c t (x & Hx & ->)%lookup_alter_inv.
      specialize (Hs c x Hx). destruct (decide (c = iCore)) as [->|Hne].
      * rewrite Nat.ltb_irrefl in Hs. simpl in Hs.
        replace ((iCore <? S iCore)%nat && negb (iCore =? xMainCoreID s)%nat)
          with true.
        { by apply task_sync_give. }
        symmetry. apply andb_true_iff. split; [apply Nat.ltb_lt; lia|].
        apply negb_true_iff. by apply Nat.eqb_neq.
      * replace (c <? S iCore)%nat with (c <? iCore)%nat; [done|].
        destruct (Nat.ltb_spec c iCore), (Nat.ltb_spec c (S iCore)); try done; lia.
    + rewrite count_alter; done.
    + erewrite main_trace_emit by reflexivity. simpl.
      rewrite (main_trace_same s), Hlog by done.
      rewrite others_S_ne by done. by rewrite map_app, app_assoc.
  - (* MNotify, the own core is skipped *)
    subst iCore. constructor; simpl; try done.
    + lia.
    + intros c t Hx. specialize (Hs c t Hx).
      replace ((c <? S (xMainCoreID s))%nat && negb (c =? xMainCoreID s)%nat)
        with ((c <? xMainCoreID s)%nat && negb (c =? xMainCoreID s)%nat); [done|].
      destruct (Nat.eqb_spec c (xMainCoreID s)); simpl; [by rewrite !andb_false_r|].
      rewrite !andb_true_r.
      destruct (Nat.ltb_spec c (xMainCoreID s)), (Nat.ltb_spec c (S (xMainCoreID s)));
        try done; lia.
    + by rewrite (main_trace_same s), Hlog, others_S_eq.
  - (* MNotify, end of the loop *)
    assert (iCore = nCores) as -> by lia.
    constructor; simpl; try done.
    + lia.
    + intros c t Hx. specialize (Hs c t Hx).
      apply lookup_lt_Some in Hx. rewrite Hlen in Hx.
      apply Nat.ltb_lt in Hx. by rewrite Hx in Hs.
  - (* MNotifyOwn *)
    constructor; simpl; try done.
    + by rewrite length_alter.
    + intros c t (x & Hx & ->)%lookup_alter_inv.
      destruct (decide (c = xMainCoreID s)); simpl; eauto.
    + lia.
    + intros c t (x & Hx & ->)%lookup_alter_inv.
      specialize (Hs c x Hx). destruct (decide (c = xMainCoreID s)) as [->|Hne].
      * rewrite Nat.eqb_refl in Hs. simpl in Hs. by apply task_sync_give.
      * apply Nat.eqb_neq in Hne. by rewrite Hne in Hs.
    + rewrite count_alter; done.
    + erewrite main_trace_emit by reflexivity. simpl.
      rewrite (main_trace_same s), Hlog by done.
      unfold release_order. by rewrite map_app, app_nil_r, !app_assoc.
  - (* MTake, a completion is taken *)
    unfold xSemaphoreTake in Heqo. destruct (uxCount (xIterDoneSem s)) eqn:Hn; [done|].
    injection Heqo as <-.
    constructor; simpl; try done.
    + lia.
    + rewrite <- Hcnt. lia.
    + erewrite main_trace_emit by reflexivity. simpl.
      rewrite (main_trace_same s), Hlog by done.
      by rewrite seq_S, map_app, !app_assoc.
  - (* MTake, end of the round *)
    assert (iCore = nCores) as -> by lia.
    pose proof (count_le_length (is_done cfg iIter) (xProducerTaskHandles s)) as Hle.
    assert (Hfull : count (is_done cfg iIter) (xProducerTaskHandles s)
                    = length (xProducerTaskHandles s)) by lia.
    assert (Hall : forall c t, xProducerTaskHandles s !! c = Some t ->
                     task_sync cfg false (S iIter) t).
    { intros c t Hx. pose proof (count_full _ _ Hfull c t Hx) as Hd.
      destruct (Hs c t Hx) as (Hpwf & H). split; [done|].
      unfold is_done in Hd. apply andb_true_iff in Hd as [Hw Hr].
      apply negb_true_iff in Hw. apply Nat.eqb_eq in Hr.
      destruct H as [(_ & _ & H)|[(_ & H & _)|(H & _)]]; [lia|congruence|done]. }
    constructor; simpl; try done.
    + lia.
    + rewrite count_all_false; [lia|]. intros c t Hx.
      destruct (Hall c t Hx) as (_ & _ & Hw & Hr). unfold is_done.
      rewrite Hr. apply andb_false_iff. right. apply Nat.eqb_neq. lia.
    + rewrite (main_trace_same s), Hlog, rounds_log_S by done. done.
  - (* MPrintHeader *)
    constructor; simpl; try done.
    + lia.
    + erewrite main_trace_emit by reflexivity. simpl.
      by rewrite Hlog.
  - (* MPrint *)
    constructor; simpl; try done.
    erewrite main_trace_emit by reflexivity. simpl.
    rewrite Hlog, prints_log_S.
    by rewrite <- app_assoc.
  - (* MPrint, end of the loop *)
    assert (iCore = nCores) as -> by lia.
    constructor; simpl; try done.
Qed.

Transparent seq.

Lemma task_sync_working rel i t :
  task_sync cfg rel i t -> pc_working (pxPC t) = true ->
  rel = true /\ ulNotifiedValue t = 0%nat /\ pc_round cfg (pxPC t) = i /\ pc_wf cfg (pxPC t).
Proof.
  intros [Hwf H] Hw. destruct rel.
  - destruct H as [(_ & ? & _)|[(? & _ & ?)|(_ & H)]]; try congruence; [done|].
    unfold is_done in H. rewrite Hw in H. done.
  - destruct H as (_ & ? & _). congruence.
Qed.

Lemma sync_inv_producer_step i ccount s s' :
  sync_inv cfg s -> prvProducerTask cfg i ccount s = Some s' -> sync_inv cfg s'.
Proof.
  intros Hinv Hstep. case_step Hstep; ltb_facts.
  - (* PSample, enter the round *)
    eapply (sync_inv_producer i p); eauto; producer_frame.
    intros rel. apply task_sync_same; try done; rewrite Heqp0; simpl; try done.
  - (* PSample, leave the loop *)
    eapply (sync_inv_producer i p); eauto; producer_frame.
    intros rel. apply task_sync_same; try done; rewrite Heqp0; simpl; try done.
    intros Hwf. split; [lia|done].
  - (* PWait *)
    eapply (sync_inv_producer i p); eauto; producer_frame.
    intros rel. by apply (task_sync_take rel _ _ _ _ n0).
  - (* PStart *)
    eapply (sync_inv_producer i p); eauto; producer_frame.
    intros rel. apply task_sync_same; try done; rewrite Heqp0; simpl; try done.
    intros Hwf. split; [done|]. split; [done|lia].
  - (* PItem, the assertion fails *)
    destruct Hinv as [Hlen Hc Hm Hwf Hs Hcnt Hmax Hlog].
    constructor; simpl; try done.
    erewrite main_trace_emit by reflexivity. simpl.
    by rewrite app_nil_r.
  - (* PItem, the item is sent *)
    eapply (sync_inv_producer i p); eauto; producer_frame.
    intros rel. apply task_sync_same; try done; rewrite Heqp0; simpl; try done.
    intros [Hr Hk]. split; [done|]. split; [done|lia].
  - (* PItem, end of the loop *)
    eapply (sync_inv_producer i p); eauto; producer_frame.
    intros rel. apply task_sync_same; try done; rewrite Heqp0; simpl; try done.
    intros [Hr Hk]. done.
  - (* PEnd *)
    eapply (sync_inv_producer i p); eauto; producer_frame.
    + left. by rewrite Heqp0.
    + intros rel. apply task_sync_same; try done; rewrite Heqp0; simpl; try done.
  - (* PReset *)
    eapply (sync_inv_producer i p); eauto; producer_frame.
    intros rel. apply task_sync_same; try done; rewrite Heqp0; simpl; try done.
  - (* PGive *)
    destruct Hinv as [Hlen Hc Hm Hwf Hs Hcnt Hmax Hlog].
    assert (Hlt : (i < length (xProducerTaskHandles s))%nat)
      by (eapply lookup_lt_Some; eauto).
    destruct (task_sync_working _ _ _ (Hs i p Heqo)) as (Hrel & Hn & Hr & Hpwf);
      [by rewrite Heqp0|].
    rewrite Heqp0 in Hr, Hpwf. simpl in Hr, Hpwf.
    pose proof (count_insert (is_done cfg (main_round cfg (xMainPC s)))
                  _ i p (set_pc (PSample (S iSamples)) p) Heqo) as Hci.
    assert (Hd : is_done cfg (main_round cfg (xMainPC s)) p = false).
    { unfold is_done. by rewrite Heqp0. }
    assert (Hd' : is_done cfg (main_round cfg (xMainPC s))
                    (set_pc (PSample (S iSamples)) p) = true).
    { unfold is_done. simpl. rewrite Hr. apply Nat.eqb_refl. }
    rewrite Hd, Hd' in Hci.
    pose proof (count_le_length (is_done cfg (main_round cfg (xMainPC s)))
                  (<[i:=set_pc (PSample (S iSamples)) p]> (xProducerTaskHandles s))) as Hle.
    rewrite length_insert in Hle.
    assert (Hroom : (uxCount (xIterDoneSem s) < uxMaxCount (xIterDoneSem s))%nat) by lia.
    constructor; simpl; try done.
    + by rewrite length_insert.
    + intros c x Hx. destruct (decide (c = i)) as [->|Hne].
      * rewrite list_lookup_insert_eq in Hx by done. injection Hx as <-. simpl. eauto.
      * rewrite list_lookup_insert_ne in Hx by done. eauto.
    + intros c x Hx. destruct (decide (c = i)) as [->|Hne].
      * rewrite list_lookup_insert_eq in Hx by done. injection Hx as <-.
        rewrite Hrel. split; [simpl; lia|]. right. right. done.
      * rewrite list_lookup_insert_ne in Hx by done. eauto.
    + unfold xSemaphoreGive. apply Nat.ltb_lt in Hroom. rewrite Hroom. simpl. lia.
    + unfold xSemaphoreGive. destruct (_ <? _)%nat; done.
    + erewrite main_trace_emit by reflexivity. simpl.
      rewrite app_nil_r. rewrite (main_trace_same s) by done.
      rewrite Hlog. symmetry. apply main_log_acc. by exists i.
Qed.

Lemma sync_inv_step l s s' :
  sync_inv cfg s -> step cfg l s = Some s' -> sync_inv cfg s'.
Proof.
  intros Hinv Hstep. unfold step in Hstep.
  destruct (xTestFailure s); [done|]. destruct l as [[|i] ccount]; simpl in Hstep.
  - by eapply sync_inv_main_step.
  - by eapply sync_inv_producer_step.
Qed.

(** *** The data invariant *)

Lemma producer_inv_frame s s' c t t' :
  producer_inv cfg s c t ->
  pxPC t' = pxPC t -> uxTempTime t' = uxTempTime t ->
  xQueueHandles s' !! c = xQueueHandles s !! c ->
  uxElapsedCumulative s' !! c = uxElapsedCumulative s !! c ->
  core_trace c s' = core_trace c s ->
  producer_inv cfg s' c t'.
Proof.
  intros (q & a & ws & H) Hpc Htmp Hq Ha Htr. exists q, a, ws.
  by rewrite Hpc, Htmp, Hq, Ha, Htr.
Qed.

Lemma ux_accumulate_snoc a l x :
  ux_accumulate cfg a (l ++ [x]) = ux_add cfg (ux_accumulate cfg a l) x.
Proof. unfold ux_accumulate. by rewrite fold_left_app. Qed.

Lemma producer_rounds_log_snoc c ws w :
  producer_rounds_log cfg c (ws ++ [w])
  = producer_rounds_log cfg c ws ++ producer_round_log cfg c (length ws) w.
Proof.
  unfold producer_rounds_log. rewrite imap_app, concat_app. simpl.
  by rewrite app_nil_r, Nat.add_0_r.
Qed.

Lemma data_inv_main_step s s' :
  data_inv cfg s -> Test_QueueContention cfg s = Some s' -> data_inv cfg s'.
Proof.
  intros [Hsync Hok Hprod] Hstep.
  constructor; [by eapply sync_inv_main_step| |].
  - case_step Hstep; done.
  - intros c t' Ht'.
    case_step Hstep; simpl in Ht';
      try (apply lookup_alter_inv in Ht' as (t & Ht & ->));
      try (eapply producer_inv_frame; [eapply Hprod; eassumption|..]; try done;
           try (by case_decide);
           try (erewrite core_trace_emit by reflexivity; simpl;
                rewrite app_nil_r; by apply core_trace_same)).
Qed.

Lemma data_inv_update i t' s s' :
  data_inv cfg s -> sync_inv cfg s' -> xTestFailure s' = None ->
  xProducerTaskHandles s' = <[i := t']> (xProducerTaskHandles s) ->
  (forall c, c <> i -> xQueueHandles s' !! c = xQueueHandles s !! c) ->
  (forall c, c <> i -> uxElapsedCumulative s' !! c = uxElapsedCumulative s !! c) ->
  (forall c, c <> i -> core_trace c s' = core_trace c s) ->
  producer_inv cfg s' i t' ->
  data_inv cfg s'.
Proof.
  intros [Hsync Hok Hprod] Hsync' Hok' Hts Hq Ha Htr Hi.
  constructor; [done..|]. intros c x Hx. rewrite Hts in Hx.
  apply lookup_insert_inv in Hx as [[-> ->]|[Hne Hx]]; [done|].
  eapply producer_inv_frame; eauto.
Qed.

Opaque seq.

Lemma data_inv_producer_step i ccount s s' :
  data_inv cfg s -> prvProducerTask cfg i ccount s = Some s' -> data_inv cfg s'.
Proof.
  intros Hinv Hstep. pose proof Hinv as [Hsync Hok Hprod].
  assert (Hsync' : sync_inv cfg s') by (by eapply sync_inv_producer_step).
  unfold prvProducerTask in Hstep.
  destruct (xProducerTaskHandles s !! i) as [t|] eqn:Hi; [|done].
  pose proof (si_core _ _ Hsync i t Hi) as Hcore. rewrite Hcore in Hstep.
  destruct (Hprod i t Hi) as (q & a & ws & Hq & Hcap & Hitems & Ha & Hacc & Hlen & Hlog).
  destruct (si_sync _ _ Hsync i t Hi) as [Hwf _].
  rewrite Hq, Ha in Hstep. simpl in Hstep.
  destruct (pxPC t) eqn:Hpc; simpl in *.
  - (* PSample *)
    destruct (Nat.ltb_spec iSamples nSamples); injection Hstep as <-;
      (eapply data_inv_update; [exact Hinv|exact Hsync'|exact Hok|reflexivity|frame_other..|]);
      exists q, a, ws; simpl; repeat split; try done; try lia.
  - (* PWait *)
    destruct (ulTaskNotifyTake (ulNotifiedValue t)) as [[v x]|]; [|done].
    injection Hstep as <-.
    eapply data_inv_update; [exact Hinv|exact Hsync'|exact Hok|reflexivity|frame_other..|].
    exists q, a, ws; repeat split; try done.
    own_event s. by rewrite Hlog.
  - (* PStart *)
    injection Hstep as <-.
    eapply data_inv_update; [exact Hinv|exact Hsync'|exact Hok|reflexivity|frame_other..|].
    exists q, a, ws; repeat split; try done.
    own_event s. rewrite Hlog. simpl. unfold sends_log. simpl.
    list_norm.
  - (* PItem *)
    destruct Hwf as [Hr Hk].
    destruct (Nat.ltb_spec iItems nItems) as [Hlt|Hge].
    + unfold xQueueSend, uxQueueMessagesWaiting in Hstep.
      rewrite Hitems, Hcap, length_map, length_seq in Hstep.
      rewrite (proj2 (Nat.ltb_lt _ _) Hlt) in Hstep. simpl in Hstep.
      injection Hstep as <-.
      eapply data_inv_update; [exact Hinv|exact Hsync'|exact Hok|reflexivity|frame_other..|].
      exists {| uxLength := nItems;
                pcItems := map Z.of_nat (seq 0 iItems) ++ [Z.of_nat iItems] |}, a, ws;
        repeat split; try done.
      * simpl. apply list_lookup_insert_eq. by eapply lookup_lt_Some.
      * simpl. by rewrite seq_S, map_app.
      * own_event s. rewrite Hlog. simpl. rewrite sends_log_S.
        list_norm.
    + injection Hstep as <-. assert (iItems = nItems) as -> by lia.
      eapply data_inv_update; [exact Hinv|exact Hsync'|exact Hok|reflexivity|frame_other..|].
      exists q, a, ws; repeat split; try done.
  - (* PEnd *)
    injection Hstep as <-.
    eapply data_inv_update; [exact Hinv|exact Hsync'|exact Hok|reflexivity|frame_other..|].
    exists q, (ux_add cfg a (ux_sub cfg (portTEST_GET_TIME cfg ccount) (uxTempTime t))),
      (ws ++ [(uxTempTime t, portTEST_GET_TIME cfg ccount)]); repeat split; try done.
    + simpl. apply list_lookup_insert_eq. by eapply lookup_lt_Some.
    + unfold samples_of_readings. rewrite map_app. simpl.
      rewrite ux_accumulate_snoc. by rewrite Hacc.
    + rewrite length_app. simpl. lia.
    + own_event s. rewrite Hlog. simpl.
      rewrite removelast_last, last_last. unfold window_log. simpl.
      list_norm.
  - (* PReset *)
    injection Hstep as <-.
    eapply data_inv_update; [exact Hinv|exact Hsync'|exact Hok|reflexivity|frame_other..|].
    exists (xQueueReset q), a, ws; repeat split; try done.
    + simpl. by rewrite list_lookup_alter_eq, Hq.
    + own_event s. rewrite Hlog. simpl. list_norm.
  - (* PGive *)
    injection Hstep as <-.
    eapply data_inv_update; [exact Hinv|exact Hsync'|exact Hok|reflexivity|frame_other..|].
    exists q, a, ws; repeat split; try done.
    own_event s. rewrite Hlog. simpl.
    assert (Hne : ws <> []) by (intros ->; done).
    destruct (exists_last Hne) as (l & w & ->).
    rewrite removelast_last, last_last, producer_rounds_log_snoc.
    rewrite length_app in Hlen. simpl in Hlen.
    replace (length l) with iSamples by lia.
    unfold producer_round_log. list_norm.
  - (* PSuspended *)
    done.
Qed.

Transparent seq.

Lemma data_inv_step l s s' :
  data_inv cfg s -> step cfg l s = Some s' -> data_inv cfg s'.
Proof.
  intros Hinv Hstep. unfold step in Hstep.
  destruct (xTestFailure s); [done|]. destruct l as [[|i] ccount]; simpl in Hstep.
  - by eapply data_inv_main_step.
  - by eapply data_inv_producer_step.
Qed.


Lemma lookup_map_seq {A} (f : nat -> A) (a n i : nat) (x : A) :
  map f (seq a n) !! i = Some x <-> x = f (a + i)%nat /\ (i < n)%nat.
Proof.
  revert a i. induction n as [|n IH]; intros a i; simpl.
  - split; [done|lia].
  - destruct i as [|i]; simpl.
    + rewrite Nat.add_0_r. split; [intros [= <-]; split; [done|lia]|by intros [-> _]].
    + rewrite IH. replace (S a + i)%nat with (a + S i)%nat by lia.
      split; intros [? ?]; split; try done; lia.
Qed.

Lemma sync_inv_setup xCore qs :
  (xCore < nCores)%nat -> sync_inv cfg (set_queues qs (setup_idf cfg xCore)).
Proof.
  intros Hme. constructor; simpl; try done.
  - by rewrite length_map, length_seq.
  - by intros c t [-> _]%lookup_map_seq.
  - lia.
  - intros c t [-> _]%lookup_map_seq. split; simpl; [lia|done].
  - rewrite count_all_false; [done|]. by intros c t [-> _]%lookup_map_seq.
Qed.

Lemma data_inv_setup xCore :
  (xCore < nCores)%nat -> data_inv cfg (setup_idf cfg xCore).
Proof.
  intros Hme. constructor; [by apply (sync_inv_setup xCore (xQueueHandles (setup_idf cfg xCore)))|done|].
  intros c t [-> Hc]%lookup_map_seq.
  exists (xQueueCreate nItems), 0, []. simpl.
  repeat split; try done; apply lookup_map_seq; done.
Qed.

Lemma sync_inv_exec sched s : sync_inv cfg s -> sync_inv cfg (exec cfg sched s).
Proof.
  revert s. induction sched as [|l sched IH]; intros s H; simpl; [done|].
  apply IH. destruct (step cfg l s) eqn:Hstep; simpl; [|done].
  by eapply sync_inv_step.
Qed.

Lemma data_inv_exec sched s : data_inv cfg s -> data_inv cfg (exec cfg sched s).
Proof.
  revert s. induction sched as [|l sched IH]; intros s H; simpl; [done|].
  apply IH. destruct (step cfg l s) eqn:Hstep; simpl; [|done].
  by eapply data_inv_step.
Qed.

End Invariants.

(** *** Closed rounds *)

Section Rounds.
Context (cfg : port_config).
Local Abbreviation nCores := (configNUMBER_OF_CORES cfg).
Local Abbreviation nSamples := (portTEST_NUM_SAMPLES cfg).
Local Abbreviation nItems := (portTEST_NUM_ITEMS cfg).

Lemma length_others me k :
  length (others me k) = if (me <? k)%nat then (k - 1)%nat else k.
Proof.
  induction k as [|k IH]; [done|].
  destruct (decide (k = me)) as [->|Hne].
  - rewrite others_S_eq, IH, Nat.ltb_irrefl.
    rewrite (proj2 (Nat.ltb_lt me (S me))) by lia. lia.
  - rewrite others_S_ne, length_app, IH by done. simpl.
    destruct (Nat.ltb_spec me k), (Nat.ltb_spec me (S k)); lia.
Qed.

Lemma length_release_order me :
  (me < nCores)%nat -> length (release_order cfg me) = nCores.
Proof.
  intros H. unfold release_order. rewrite length_app, length_others.
  rewrite (proj2 (Nat.ltb_lt _ _) H). simpl. lia.
Qed.

(** The events of a kind that a round contributes. *)
Lemma filter_rounds_log (p : event -> bool) me i n :
  (forall j, j <> i -> List.filter p (round_log cfg me j) = []) ->
  List.filter p (rounds_log cfg me n)
  = if (i <? n)%nat then List.filter p (round_log cfg me i) else [].
Proof.
  intros H. induction n as [|n IH]; [done|].
  rewrite rounds_log_S, List.filter_app, IH.
  destruct (Nat.ltb_spec i n), (Nat.ltb_spec i (S n)); try lia.
  - rewrite (H n) by lia. by rewrite app_nil_r.
  - by assert (i = n) as -> by lia.
  - apply H. lia.
Qed.

Lemma filter_release_round me i j :
  List.filter (is_release_of i) (round_log cfg me j)
  = if (j =? i)%nat then map (EvNotifyGive j) (release_order cfg me) else [].
Proof.
  unfold round_log. rewrite List.filter_app.
  rewrite (filter_none _ (map (EvSemTake j) _))
    by (by intros x (y & <- & _)%in_map_iff).
  rewrite app_nil_r. destruct (Nat.eqb_spec j i) as [->|Hne].
  - apply filter_all. intros x (y & <- & _)%in_map_iff. simpl. apply Nat.eqb_refl.
  - apply filter_none. intros x (y & <- & _)%in_map_iff. simpl.
    by apply Nat.eqb_neq.
Qed.

Lemma filter_completion_round me i j :
  List.filter (is_completion_of i) (round_log cfg me j)
  = if (j =? i)%nat then map (EvSemTake j) (seq 0 nCores) else [].
Proof.
  unfold round_log. rewrite List.filter_app.
  rewrite (filter_none _ (map (EvNotifyGive j) _))
    by (by intros x (y & <- & _)%in_map_iff).
  simpl. destruct (Nat.eqb_spec j i) as [->|Hne].
  - apply filter_all. intros x (y & <- & _)%in_map_iff. simpl. apply Nat.eqb_refl.
  - apply filter_none. intros x (y & <- & _)%in_map_iff. simpl.
    by apply Nat.eqb_neq.
Qed.

(** The events of the test task beyond the rounds it has closed. *)
Definition main_log_tail (me : nat) (acc : list Z) (pc : main_pc) : list event :=
  match pc with
  | MIter _ | MPrintHeader => []
  | MNotify i k => map (EvNotifyGive i) (others me k)
  | MNotifyOwn i => map (EvNotifyGive i) (others me nCores)
  | MTake i k =>
      map (EvNotifyGive i) (release_order cfg me) ++ map (EvSemTake i) (seq 0 k)
  | MPrint k => [EvPrintHeader nItems nSamples] ++ prints_log cfg acc k
  | MDone => [EvPrintHeader nItems nSamples] ++ prints_log cfg acc nCores
  end.

Lemma main_log_tail_eq me acc pc :
  main_log cfg me acc pc
  = rounds_log cfg me (main_round cfg pc) ++ main_log_tail me acc pc.
Proof. destruct pc; simpl; by rewrite ?app_nil_r. Qed.

Lemma main_log_tail_round me acc pc i e :
  (i < main_round cfg pc)%nat -> In e (main_log_tail me acc pc) ->
  is_release_of i e = false /\ is_completion_of i e = false.
Proof.
  intros Hi He.
  assert (Hcases : (exists c, e = EvNotifyGive (main_round cfg pc) c)
                   \/ (exists c, e = EvSemTake (main_round cfg pc) c)
                   \/ (exists a b, e = EvPrintHeader a b)
                   \/ (exists a b, e = EvPrintCore a b)).
  { destruct pc; simpl in He; try done;
      repeat match goal with
      | H : In _ (_ ++ _) |- _ => apply in_app_iff in H as [H|H]
      | H : In _ (map _ _) |- _ => apply in_map_iff in H as (? & <- & _)
      | H : In _ (prints_log _ _ _) |- _ => unfold prints_log in H
      | H : _ \/ _ |- _ => destruct H as [<-|H]
      | H : False |- _ => destruct H
      end; simpl; eauto 6. }
  destruct Hcases as [[c ->]|[[c ->]|[(a & b & ->)|(a & b & ->)]]]; simpl;
    split; try done; apply Nat.eqb_neq; lia.
Qed.

Lemma filter_main_log (p : event -> bool) me acc pc i :
  (forall e, p e = true -> is_release_of i e = true \/ is_completion_of i e = true) ->
  (forall j, j <> i -> List.filter p (round_log cfg me j) = []) ->
  (i < main_round cfg pc)%nat ->
  List.filter p (main_log cfg me acc pc) = List.filter p (round_log cfg me i).
Proof.
  intros Hp Hj Hi. rewrite main_log_tail_eq, List.filter_app.
  rewrite (filter_rounds_log p me i) by done.
  rewrite (proj2 (Nat.ltb_lt _ _) Hi).
  rewrite (filter_none p (main_log_tail _ _ _)); [by rewrite app_nil_r|].
  intros e He. destruct (main_log_tail_round me acc pc i e Hi He) as [H1 H2].
  destruct (p e) eqn:Hpe; [|done]. destruct (Hp e Hpe); congruence.
Qed.

Lemma in_producer_rounds c i ws :
  (i < length ws)%nat -> In (EvSemGive c i) (producer_rounds_log cfg c ws).
Proof.
  induction ws as [|w ws IH] using rev_ind; simpl; [lia|].
  rewrite length_app, producer_rounds_log_snoc. simpl. intros Hi.
  apply in_app_iff. destruct (decide (i = length ws)) as [->|Hne].
  - right. unfold producer_round_log. rewrite !in_app_iff. right. right.
    simpl. auto.
  - left. apply IH. lia.
Qed.

Lemma in_producer_log c i pc tmp ws :
  length ws = windows_done cfg pc -> (i < pc_round cfg pc)%nat ->
  In (EvSemGive c i) (producer_log cfg c pc tmp ws).
Proof.
  intros Hlen Hi.
  destruct pc; simpl in *; rewrite ?in_app_iff;
    try (left; apply in_producer_rounds; lia);
    try (apply in_producer_rounds; lia).
  all: left; apply in_producer_rounds;
    destruct ws as [|w ws] using rev_ind; simpl in Hlen; [lia|];
    rewrite removelast_last; rewrite length_app in Hlen; simpl in Hlen; lia.
Qed.

Lemma task_sync_round rel i t :
  task_sync cfg rel i t -> (i <= pc_round cfg (pxPC t))%nat.
Proof.
  intros [_ H]. destruct rel.
  - destruct H as [(_ & _ & <-)|[(_ & _ & <-)|(_ & H)]]; [done..|].
    unfold is_done in H. apply andb_true_iff in H as [_ H].
    apply Nat.eqb_eq in H. lia.
  - destruct H as (_ & _ & <-). done.
Qed.

(** A round that the test task has left is closed. *)
Lemma round_closed_of_state s i :
  data_inv cfg s -> (i < main_round cfg (xMainPC s))%nat ->
  round_closed cfg i (trace s).
Proof.
  intros [Hsync _ Hprod] Hi. pose proof Hsync as [Hlen Hc Hm Hwf Hs Hcnt Hmax Hlog].
  repeat split.
  - rewrite <- (filter_filter_imp (is_release_of i) is_main_event)
      by (by intros []).
    fold (main_trace s). rewrite Hlog.
    rewrite (filter_main_log _ _ _ _ i); auto.
    + rewrite filter_release_round, Nat.eqb_refl, length_map.
      by apply length_release_order.
    + intros j Hj. rewrite filter_release_round.
      by rewrite (proj2 (Nat.eqb_neq j i)).
  - rewrite <- (filter_filter_imp (is_completion_of i) is_main_event)
      by (by intros []).
    fold (main_trace s). rewrite Hlog.
    rewrite (filter_main_log _ _ _ _ i); auto.
    + by rewrite filter_completion_round, Nat.eqb_refl, length_map, length_seq.
    + intros j Hj. rewrite filter_completion_round.
      by rewrite (proj2 (Nat.eqb_neq j i)).
  - intros c Hcn. rewrite <- Hlen in Hcn.
    destruct (lookup_lt_is_Some_2 _ _ Hcn) as [t Ht].
    destruct (Hprod c t Ht) as (q & a & ws & _ & _ & _ & _ & _ & Hl & Htr).
    pose proof (task_sync_round _ _ _ (Hs c t Ht)) as Hr.
    assert (Hin : In (EvSemGive c i) (core_trace c s)).
    { rewrite Htr. apply in_producer_log; [done|lia]. }
    unfold core_trace in Hin. by apply filter_In in Hin as [Hin _].
Qed.

End Rounds.

(** *** The history of a run *)

Section Hist.
Context (cfg : port_config).
Local Abbreviation nCores := (configNUMBER_OF_CORES cfg).
Local Abbreviation nSamples := (portTEST_NUM_SAMPLES cfg).
Local Abbreviation nItems := (portTEST_NUM_ITEMS cfg).

Lemma snoc_split {A} (tr pre post : list A) (e x : A) :
  tr ++ [e] = pre ++ x :: post ->
  (pre = tr /\ x = e /\ post = [])
  \/ exists post', post = post' ++ [e] /\ tr = pre ++ x :: post'.
Proof.
  destruct post as [|y post] using rev_ind.
  - intros H. apply app_inj_tail in H as [-> ->]. by left.
  - intros H. clear IHpost. right. exists post.
    rewrite app_comm_cons, app_assoc in H.
    apply app_inj_tail in H as [-> ->]. done.
Qed.

Lemma history_ok_snoc tr e :
  history_ok cfg tr -> event_ok cfg tr e -> history_ok cfg (tr ++ [e]).
Proof.
  intros Htr He pre x post Heq.
  apply snoc_split in Heq as [(-> & -> & _)|(post' & -> & ->)]; [done|].
  by eapply Htr.
Qed.

Lemma step_event_ok l s s' :
  data_inv cfg s -> step cfg l s = Some s' ->
  trace s' = trace s
  \/ exists e, trace s' = trace s ++ [e] /\ event_ok cfg (trace s) e.
Proof.
  intros Hinv Hstep. pose proof Hinv as [Hsync Hok Hprod].
  unfold step in Hstep. rewrite Hok in Hstep.
  destruct l as [[|i] ccount]; simpl in Hstep.
  - (* the test task *)
    case_step Hstep; try (by left);
      right; eexists; (split; [by eapply trace_emit|]); try done.
    + destruct iIter as [|i]; [done|]. simpl.
      apply round_closed_of_state; [done|]. rewrite Heqm. simpl. lia.
    + destruct iIter as [|i]; [done|]. simpl.
      apply round_closed_of_state; [done|]. rewrite Heqm. simpl. lia.
  - (* a producer *)
    unfold prvProducerTask in Hstep.
    destruct (xProducerTaskHandles s !! i) as [t|] eqn:Hi; [|done].
    pose proof (si_core _ _ Hsync i t Hi) as Hcore. rewrite Hcore in Hstep.
    destruct (Hprod i t Hi) as (q & a & ws & Hq & Hcap & Hitems & Ha & Hacc & Hlen & Hlog).
    destruct (si_sync _ _ Hsync i t Hi) as [Hwf _].
    rewrite Hq, Ha in Hstep. simpl in Hstep.
    destruct (pxPC t) eqn:Hpc; simpl in *.
    + destruct (_ <? _)%nat; injection Hstep as <-; by left.
    + destruct (ulTaskNotifyTake _) as [[v x]|]; [|done]. injection Hstep as <-.
      right; eexists; (split; [by eapply trace_emit|]); done.
    + injection Hstep as <-.
      right; eexists; (split; [by eapply trace_emit|]); done.
    + destruct Hwf as [Hr Hk].
      destruct (Nat.ltb_spec iItems nItems) as [Hlt|Hge].
      * unfold xQueueSend, uxQueueMessagesWaiting in Hstep.
        rewrite Hitems, Hcap, length_map, length_seq in Hstep.
        rewrite (proj2 (Nat.ltb_lt _ _) Hlt) in Hstep. simpl in Hstep.
        injection Hstep as <-.
        right; eexists; (split; [by eapply trace_emit|]); done.
      * injection Hstep as <-. by left.
    + injection Hstep as <-.
      right; eexists; (split; [by eapply trace_emit|]). simpl.
      fold (core_trace i s). rewrite Hlog.
      exists (producer_rounds_log cfg i ws ++ [EvNotifyTake i iSamples]), (uxTempTime t).
      split; [|done]. by rewrite <- app_assoc.
    + injection Hstep as <-.
      right; eexists; (split; [by eapply trace_emit|]). simpl.
      fold (core_trace i s). rewrite Hlog. unfold window_log.
      exists (producer_rounds_log cfg i (removelast ws)
              ++ EvNotifyTake i iSamples
                 :: EvGetTime i iSamples (fst (List.last ws (0, 0)))
                 :: sends_log i iSamples nItems),
        (snd (List.last ws (0, 0))),
        (ux_sub cfg (snd (List.last ws (0, 0))) (fst (List.last ws (0, 0)))).
      list_norm.
    + injection Hstep as <-.
      right; eexists; (split; [by eapply trace_emit|]); done.
    + done.
Qed.

Lemma history_ok_step l s s' :
  data_inv cfg s -> history_ok cfg (trace s) -> step cfg l s = Some s' ->
  history_ok cfg (trace s').
Proof.
  intros Hinv Hh Hstep.
  destruct (step_event_ok l s s' Hinv Hstep) as [->|(e & -> & He)]; [done|].
  by apply history_ok_snoc.
Qed.

Lemma history_ok_exec sched s :
  data_inv cfg s -> history_ok cfg (trace s) ->
  history_ok cfg (trace (exec cfg sched s)).
Proof.
  revert s. induction sched as [|l sched IH]; intros s Hinv Hh; simpl; [done|].
  destruct (step cfg l s) eqn:Hstep; simpl; [|by apply IH].
  apply IH; [by eapply data_inv_step|by eapply history_ok_step].
Qed.

Lemma history_ok_run xCore sched :
  (xCore < nCores)%nat ->
  history_ok cfg (trace (exec cfg sched (setup_idf cfg xCore))).
Proof.
  intros Hme. apply history_ok_exec; [by apply data_inv_setup|].
  intros pre e post H. by destruct pre.
Qed.

End Hist.

(** *** Cycle counters that do not wrap *)

Ltac frame_task :=
  let t' := fresh "t'" in
  let Ht' := fresh "Ht'" in
  intros t' Ht'; simpl in Ht';
  first
    [ by (exists t')
    | apply lookup_alter_inv in Ht' as (? & ? & ->); eexists; split; [eassumption|];
      by case_decide
    | rewrite list_lookup_insert_ne in Ht' by done; by (exists t') ].

Section Clock.
Context (cfg : port_config).
Local Abbreviation nCores := (configNUMBER_OF_CORES cfg).
Local Abbreviation nSamples := (portTEST_NUM_SAMPLES cfg).
Local Abbreviation nItems := (portTEST_NUM_ITEMS cfg).

Lemma samples_emit c e s s' :
  xEvents s' = e :: xEvents s ->
  samples c (trace s')
  = samples c (trace s) ++ match sample_of c e with Some x => [x] | None => [] end.
Proof. intros H. unfold samples. rewrite (trace_emit e s s' H). apply omap_snoc. Qed.

Lemma samples_same c s s' :
  xEvents s' = xEvents s -> samples c (trace s') = samples c (trace s).
Proof. intros H. unfold samples, trace. by rewrite H. Qed.

Lemma clock_inv_mono c lo lo' s :
  clock_inv cfg c lo s -> lo <= lo' < uxModulus cfg -> clock_inv cfg c lo' s.
Proof.
  intros (Hlo & Hsum & Hwin) Hle. repeat split; try lia.
  - by apply (Hwin t).
  - pose proof (Hwin t H H0). lia.
Qed.

(** A step that changes neither the Samples of core [c] nor the point and
    the first reading of its producer. *)
Lemma clock_inv_frame c lo s s' :
  clock_inv cfg c lo s ->
  samples c (trace s') = samples c (trace s) ->
  (forall t', xProducerTaskHandles s' !! c = Some t' ->
     exists t, xProducerTaskHandles s !! c = Some t
               /\ (in_window (pxPC t') = true ->
                   in_window (pxPC t) = true /\ uxTempTime t' = uxTempTime t)) ->
  clock_inv cfg c lo s'.
Proof.
  intros (Hlo & Hsum & Hwin) Hs Ht. unfold clock_inv. rewrite Hs.
  split; [done|]. split; [done|]. intros t' Ht' Hw'.
  destruct (Ht t' Ht') as (t & Hl & Hw). destruct (Hw Hw') as [Hw0 ->].
  by apply Hwin.
Qed.

Lemma clock_inv_other c lo tid ccount s s' :
  sync_inv cfg s -> clock_inv cfg c lo s ->
  step cfg (tid, ccount) s = Some s' -> tid <> Producer c ->
  clock_inv cfg c lo s'.
Proof.
  intros Hsync Hinv Hstep Hne. unfold step in Hstep.
  destruct (xTestFailure s); [done|]. destruct tid as [|i]; simpl in Hstep.
  - case_step Hstep;
      (eapply clock_inv_frame; [exact Hinv| |frame_task]);
      first [ by apply samples_same
            | erewrite samples_emit by reflexivity; simpl; by rewrite app_nil_r ].
  - assert (Hic : i <> c) by congruence.
    unfold prvProducerTask in Hstep.
    destruct (xProducerTaskHandles s !! i) as [t|] eqn:Hi; [|done].
    pose proof (si_core _ _ Hsync i t Hi) as Hcore. rewrite Hcore in Hstep.
    case_step Hstep;
      (eapply clock_inv_frame; [exact Hinv| |frame_task]);
      first [ by apply samples_same
            | erewrite samples_emit by reflexivity; simpl;
              rewrite ?(proj2 (Nat.eqb_neq i c)) by done; by rewrite app_nil_r ].
Qed.

Lemma clock_inv_own c lo ccount s s' :
  sync_inv cfg s -> clock_inv cfg c lo s ->
  step cfg (Producer c, ccount) s = Some s' -> lo <= ccount < uxModulus cfg ->
  clock_inv cfg c ccount s'.
Proof.
  intros Hsync Hinv Hstep Hcc. unfold step in Hstep.
  destruct (xTestFailure s); [done|]. simpl in Hstep.
  unfold prvProducerTask in Hstep.
  destruct (xProducerTaskHandles s !! c) as [t|] eqn:Hi; [|done].
  pose proof (si_core _ _ Hsync c t Hi) as Hcore. rewrite Hcore in Hstep.
  assert (Hlt : (c < length (xProducerTaskHandles s))%nat)
    by (by eapply lookup_lt_Some).
  pose proof Hinv as (Hlo & Hsum & Hwin). specialize (Hwin t Hi).
  assert (Hnow : portTEST_GET_TIME cfg ccount = ccount).
  { apply to_UBaseType_small. lia. }
  destruct (pxPC t) eqn:Hpc; simpl in Hwin.
  - (* PSample *)
    destruct (_ <? _)%nat; injection Hstep as <-;
      (split; [lia|]); rewrite (samples_same c s) by done; (split; [lia|]);
      intros t' Ht'; simpl in Ht'; rewrite list_lookup_insert_eq in Ht' by done;
      by injection Ht' as <-.
  - (* PWait *)
    destruct (ulTaskNotifyTake _) as [[v x]|]; [|done]. injection Hstep as <-.
    split; [lia|]. erewrite samples_emit by reflexivity. simpl.
    rewrite app_nil_r, (samples_same c s) by done. split; [lia|].
    intros t' Ht'; simpl in Ht'; rewrite list_lookup_insert_eq in Ht' by done.
    by injection Ht' as <-.
  - (* PStart *)
    injection Hstep as <-.
    split; [lia|]. erewrite samples_emit by reflexivity. simpl.
    rewrite app_nil_r, (samples_same c s) by done. split; [lia|].
    intros t' Ht'; simpl in Ht'; rewrite list_lookup_insert_eq in Ht' by done.
    injection Ht' as <-. simpl. rewrite Hnow. lia.
  - (* PItem *)
    specialize (Hwin eq_refl).
    destruct (_ <? _)%nat.
    + destruct (xQueueHandles s !! c) as [q|]; [|done].
      destruct (xQueueSend q _) as [q' ok].
      destruct (TEST_ASSERT_EQUAL_MESSAGE _ _ _ _); injection Hstep as <-.
      * split; [lia|]. erewrite samples_emit by reflexivity. simpl.
        rewrite app_nil_r, (samples_same c s) by done. split; [lia|].
        intros t' Ht'; simpl in Ht'. rewrite Hi in Ht'. injection Ht' as <-.
        rewrite Hpc. lia.
      * split; [lia|]. erewrite samples_emit by reflexivity. simpl.
        rewrite app_nil_r, (samples_same c s) by done. split; [lia|].
        intros t' Ht'; simpl in Ht'; rewrite list_lookup_insert_eq in Ht' by done.
        injection Ht' as <-. simpl. lia.
    + injection Hstep as <-.
      split; [lia|]. rewrite (samples_same c s) by done. split; [lia|].
      intros t' Ht'; simpl in Ht'; rewrite list_lookup_insert_eq in Ht' by done.
      injection Ht' as <-. simpl. lia.
  - (* PEnd *)
    specialize (Hwin eq_refl). injection Hstep as <-.
    split; [lia|]. erewrite samples_emit by reflexivity. simpl.
    rewrite Nat.eqb_refl, (samples_same c s), sumZ_app by done. simpl.
    rewrite Hnow. unfold ux_sub. rewrite to_UBaseType_small by lia.
    split; [lia|].
    intros t' Ht'; simpl in Ht'; rewrite list_lookup_insert_eq in Ht' by done.
    by injection Ht' as <-.
  - (* PReset *)
    injection Hstep as <-.
    split; [lia|]. erewrite samples_emit by reflexivity. simpl.
    rewrite app_nil_r, (samples_same c s) by done. split; [lia|].
    intros t' Ht'; simpl in Ht'; rewrite list_lookup_insert_eq in Ht' by done.
    by injection Ht' as <-.
  - (* PGive *)
    injection Hstep as <-.
    split; [lia|]. erewrite samples_emit by reflexivity. simpl.
    rewrite app_nil_r, (samples_same c s) by done. split; [lia|].
    intros t' Ht'; simpl in Ht'; rewrite list_lookup_insert_eq in Ht' by done.
    by injection Ht' as <-.
  - done.
Qed.

Lemma clock_inv_exec c sched s lo :
  sync_inv cfg s -> clock_inv cfg c lo s ->
  counts_up lo (uxModulus cfg) (ccounts c sched) = true ->
  exists lo', clock_inv cfg c lo' (exec cfg sched s).
Proof.
  revert s lo. induction sched as [|[tid ccount] sched IH]; intros s lo Hsync Hinv Hup.
  - by exists lo.
  - simpl.
    assert (Hdec : tid = Producer c \/ tid <> Producer c).
    { destruct tid as [|j]; [by right|].
      destruct (decide (j = c)) as [->|?]; [by left|right; congruence]. }
    destruct Hdec as [->|Hne].
    + simpl in Hup. rewrite Nat.eqb_refl in Hup. simpl in Hup.
      apply andb_true_iff in Hup as [Hup1 Hup2].
      apply andb_true_iff in Hup1 as [Hlo Hhi].
      apply Z.leb_le in Hlo. apply Z.ltb_lt in Hhi.
      destruct (step cfg (Producer c, ccount) s) as [s'|] eqn:Hstep; simpl.
      * apply (IH s' ccount); [by eapply sync_inv_step| |done].
        by eapply clock_inv_own.
      * apply (IH s ccount); [done| |done]. by eapply clock_inv_mono.
    + assert (Hcc : ccounts c ((tid, ccount) :: sched) = ccounts c sched).
      { unfold ccounts. simpl. destruct tid as [|j]; [done|].
        destruct (Nat.eqb_spec j c); [congruence|done]. }
      rewrite Hcc in Hup.
      destruct (step cfg (tid, ccount) s) as [s'|] eqn:Hstep; simpl.
      * apply (IH s' lo); [by eapply sync_inv_step| |done].
        by eapply clock_inv_other.
      * by apply (IH s lo).
Qed.

Lemma no_wrap_core sched c :
  no_wrap cfg sched = true -> (c < nCores)%nat ->
  counts_up 0 (uxModulus cfg) (ccounts c sched) = true.
Proof.
  unfold no_wrap. rewrite forallb_forall. intros H Hc. apply H.
  apply in_seq. lia.
Qed.

(** While the cycle counters do not wrap, the Samples of a core add up to
    less than [2^w]. *)
Lemma samples_fit xCore sched c :
  (xCore < nCores)%nat -> no_wrap cfg sched = true -> (c < nCores)%nat ->
  0 <= sumZ (samples c (trace (exec cfg sched (setup_idf cfg xCore))))
    < uxModulus cfg.
Proof.
  intros Hme Hnw Hc.
  destruct (clock_inv_exec c sched (setup_idf cfg xCore) 0) as (lo & Hlo & Hsum & _).
  - apply (sync_inv_setup cfg xCore (xQueueHandles (setup_idf cfg xCore)) Hme).
  - pose proof (uxModulus_pos cfg). split; [lia|]. split; [simpl; lia|].
    intros t [-> _]%lookup_map_seq. done.
  - by apply no_wrap_core.
  - lia.
Qed.

End Clock.

(** *** Samples, accumulators and reports *)

Section Results.
Context (cfg : port_config).
Local Abbreviation nCores := (configNUMBER_OF_CORES cfg).
Local Abbreviation nSamples := (portTEST_NUM_SAMPLES cfg).
Local Abbreviation nItems := (portTEST_NUM_ITEMS cfg).

(** The Samples in the events of a producer. *)
Lemma samples_sends c r k : samples c (sends_log c r k) = [].
Proof. apply omap_none. by intros x (j & <- & _)%in_map_iff. Qed.

Lemma samples_round c r w :
  samples c (producer_round_log cfg c r w) = [ux_sub cfg (snd w) (fst w)].
Proof.
  unfold producer_round_log, window_log, samples.
  rewrite !omap_app. fold (samples c (sends_log c r nItems)).
  rewrite samples_sends. simpl. by rewrite Nat.eqb_refl.
Qed.

Lemma samples_rounds c ws :
  samples c (producer_rounds_log cfg c ws) = samples_of_readings cfg ws.
Proof.
  induction ws as [|w ws IH] using rev_ind; [done|].
  rewrite producer_rounds_log_snoc. unfold samples in *.
  rewrite omap_app, IH. fold (samples c (producer_round_log cfg c (length ws) w)).
  rewrite samples_round. unfold samples_of_readings. by rewrite map_app.
Qed.

Lemma samples_app c l1 l2 : samples c (l1 ++ l2) = samples c l1 ++ samples c l2.
Proof. apply omap_app. Qed.

Lemma samples_cons_none c e l :
  sample_of c e = None -> samples c (e :: l) = samples c l.
Proof. intros H. unfold samples. simpl. by rewrite H. Qed.

Lemma samples_producer_log c pc tmp ws :
  length ws = windows_done cfg pc ->
  samples c (producer_log cfg c pc tmp ws) = samples_of_readings cfg ws.
Proof.
  intros Hlen. destruct pc; simpl in Hlen; unfold producer_log, window_log;
    try apply samples_rounds.
  - by rewrite samples_app, samples_rounds, app_nil_r.
  - rewrite !samples_app, samples_rounds, samples_sends. simpl.
    by rewrite !app_nil_r.
  - rewrite !samples_app, samples_rounds, samples_sends. simpl.
    by rewrite !app_nil_r.
  - destruct ws as [|w ws _] using rev_ind; [done|].
    rewrite removelast_last, last_last, !samples_app, samples_rounds, samples_sends.
    simpl. rewrite Nat.eqb_refl.
    unfold samples_of_readings. by rewrite map_app.
  - destruct ws as [|w ws _] using rev_ind; [done|].
    rewrite removelast_last, last_last, !samples_app, samples_rounds, samples_sends.
    simpl. rewrite Nat.eqb_refl.
    unfold samples_of_readings. by rewrite map_app.
Qed.

Lemma samples_core_trace c s :
  samples c (core_trace c s) = samples c (trace s).
Proof.
  apply omap_filter. intros [] H; simpl in *; try done. by rewrite H.
Qed.

(** The accumulator of a core holds what its Samples add up to in
    [UBaseType_t]. *)
Lemma accumulator_samples s c :
  data_inv cfg s -> (c < nCores)%nat ->
  uxElapsedCumulative s !! c
  = Some (ux_accumulate cfg 0 (samples c (trace s))).
Proof.
  intros [Hsync _ Hprod] Hc. rewrite <- (si_tasks_len _ _ Hsync) in Hc.
  destruct (lookup_lt_is_Some_2 _ _ Hc) as [t Ht].
  destruct (Hprod c t Ht) as (q & a & ws & _ & _ & _ & Ha & -> & Hl & Htr).
  rewrite Ha, <- samples_core_trace, Htr. by rewrite samples_producer_log.
Qed.

(** The averages the test task has printed. *)
Lemma reports_rounds_log me n : omap report_of (rounds_log cfg me n) = [].
Proof.
  apply omap_none. intros x Hx. unfold rounds_log in Hx.
  apply in_flat_map in Hx as (i & _ & Hx). unfold round_log in Hx.
  apply in_app_iff in Hx as [Hx|Hx]; by apply in_map_iff in Hx as (y & <- & _).
Qed.

Lemma reports_prints_log acc k :
  omap report_of (prints_log cfg acc k)
  = map (fun j => (j, ux_div (default 0 (acc !! j)) nSamples)) (seq 0 k).
Proof.
  unfold prints_log. induction (seq 0 k) as [|j l IH]; simpl; [done|].
  f_equal. exact IH.
Qed.

Lemma reports_main_log me acc pc :
  omap report_of (main_log cfg me acc pc)
  = map (fun j => (j, ux_div (default 0 (acc !! j)) nSamples))
      (seq 0 (printed cfg pc)).
Proof.
  rewrite main_log_tail_eq, omap_app, reports_rounds_log. simpl.
  destruct pc; simpl; try apply reports_prints_log;
    try (apply omap_none; by intros x (y & <- & _)%in_map_iff).
  - done.
  - rewrite omap_app. rewrite !omap_none; try done;
      by intros x (y & <- & _)%in_map_iff.
  - done.
Qed.

Lemma reports_state s :
  sync_inv cfg s ->
  reports s
  = map (fun j => (j, ux_div (default 0 (uxElapsedCumulative s !! j)) nSamples))
      (seq 0 (printed cfg (xMainPC s))).
Proof.
  intros Hsync. unfold reports.
  rewrite <- (omap_filter report_of is_main_event) by (by intros []).
  fold (main_trace s). rewrite (si_main_log _ _ Hsync). apply reports_main_log.
Qed.

(** When the test task has returned, every producer has timed all its
    windows. *)
Lemma producer_finished s c t :
  sync_inv cfg s -> printed cfg (xMainPC s) <> 0%nat \/ xMainPC s = MDone ->
  xProducerTaskHandles s !! c = Some t ->
  windows_done cfg (pxPC t) = nSamples
  /\ (pxPC t = PSample nSamples \/ pxPC t = PSuspended).
Proof.
  intros Hsync Hpc Ht. destruct (si_sync _ _ Hsync c t Ht) as [Hwf Hs].
  assert (Hrel : released (xMainCoreID s) (xMainPC s) c = false
                 /\ main_round cfg (xMainPC s) = nSamples).
  { destruct (xMainPC s); simpl in *; try done; destruct Hpc; done. }
  destruct Hrel as [Hrel Hround]. rewrite Hrel, Hround in Hs.
  destruct Hs as (_ & Hw & Hr).
  destruct (pxPC t); simpl in *; try done; subst; auto.
  lia.
Qed.

End Results.

(** *** The order of the releases *)

Section Order.
Context (cfg : port_config).
Local Abbreviation nCores := (configNUMBER_OF_CORES cfg).
Local Abbreviation nSamples := (portTEST_NUM_SAMPLES cfg).
Local Abbreviation nItems := (portTEST_NUM_ITEMS cfg).

Lemma filter_release_map i tr :
  List.filter (is_release_of i) tr = map (EvNotifyGive i) (released_cores i tr).
Proof.
  induction tr as [|e tr IH]; [done|]. unfold released_cores in *. simpl.
  destruct e; simpl; try exact IH.
  destruct (Nat.eqb_spec iIter i) as [->|]; simpl; [f_equal|]; exact IH.
Qed.

Lemma filter_completion_map i tr :
  List.filter (is_completion_of i) tr = map (EvSemTake i) (completions i tr).
Proof.
  induction tr as [|e tr IH]; [done|]. unfold completions in *. simpl.
  destruct e; simpl; try exact IH.
  destruct (Nat.eqb_spec iIter i) as [->|]; simpl; [f_equal|]; exact IH.
Qed.

Lemma released_map_give i j l :
  released_cores i (map (EvNotifyGive j) l) = if (j =? i)%nat then l else [].
Proof.
  unfold released_cores. induction l as [|c l IH]; simpl.
  - by destruct (j =? i)%nat.
  - destruct (j =? i)%nat; [f_equal|]; exact IH.
Qed.

Lemma released_map_take i j l : released_cores i (map (EvSemTake j) l) = [].
Proof. apply omap_none. by intros x (y & <- & _)%in_map_iff. Qed.

Lemma completions_map_take i j l :
  completions i (map (EvSemTake j) l) = if (j =? i)%nat then l else [].
Proof.
  unfold completions. induction l as [|c l IH]; simpl.
  - by destruct (j =? i)%nat.
  - destruct (j =? i)%nat; [f_equal|]; exact IH.
Qed.

Lemma completions_map_give i j l : completions i (map (EvNotifyGive j) l) = [].
Proof. apply omap_none. by intros x (y & <- & _)%in_map_iff. Qed.

Lemma released_app i l1 l2 :
  released_cores i (l1 ++ l2) = released_cores i l1 ++ released_cores i l2.
Proof. apply omap_app. Qed.

Lemma completions_app i l1 l2 :
  completions i (l1 ++ l2) = completions i l1 ++ completions i l2.
Proof. apply omap_app. Qed.

Lemma released_prints i acc k : released_cores i (prints_log cfg acc k) = [].
Proof. apply omap_none. by intros x (y & <- & _)%in_map_iff. Qed.

Lemma completions_prints i acc k : completions i (prints_log cfg acc k) = [].
Proof. apply omap_none. by intros x (y & <- & _)%in_map_iff. Qed.

Lemma released_rounds_log me i n :
  released_cores i (rounds_log cfg me n)
  = if (i <? n)%nat then release_order cfg me else [].
Proof.
  induction n as [|n IH]; [done|].
  rewrite rounds_log_S, released_app, IH. unfold round_log.
  rewrite released_app, released_map_give, released_map_take, app_nil_r.
  destruct (Nat.ltb_spec i n), (Nat.ltb_spec i (S n)), (Nat.eqb_spec n i);
    try lia; by rewrite ?app_nil_r.
Qed.

Lemma completions_rounds_log me i n :
  completions i (rounds_log cfg me n)
  = if (i <? n)%nat then seq 0 nCores else [].
Proof.
  induction n as [|n IH]; [done|].
  rewrite rounds_log_S, completions_app, IH. unfold round_log.
  rewrite completions_app, completions_map_give, completions_map_take.
  destruct (Nat.ltb_spec i n), (Nat.ltb_spec i (S n)), (Nat.eqb_spec n i);
    try lia; by rewrite ?app_nil_r.
Qed.

(** The cores released in round [i], as the program point of the test task
    tells. *)
Lemma released_main_log me acc pc i :
  released_cores i (main_log cfg me acc pc)
  = if (i <? main_round cfg pc)%nat then release_order cfg me
    else if (i =? main_round cfg pc)%nat then released_so_far cfg me pc
    else [].
Proof.
  rewrite main_log_tail_eq, released_app, released_rounds_log.
  assert (Htail : released_cores i (main_log_tail cfg me acc pc)
            = if (main_round cfg pc =? i)%nat then released_so_far cfg me pc else []).
  { destruct pc; simpl;
      rewrite ?released_app, ?released_map_give, ?released_map_take,
        ?released_prints, ?app_nil_r; try done; by destruct (_ =? _)%nat. }
  rewrite Htail.
  destruct (Nat.ltb_spec i (main_round cfg pc)), (Nat.eqb_spec (main_round cfg pc) i),
    (Nat.eqb_spec i (main_round cfg pc)); try lia; by rewrite ?app_nil_r.
Qed.

Lemma completions_main_log me acc pc i :
  completions i (main_log cfg me acc pc)
  = if (i <? main_round cfg pc)%nat then seq 0 nCores
    else if (i =? main_round cfg pc)%nat then seq 0 (taken pc)
    else [].
Proof.
  rewrite main_log_tail_eq, completions_app, completions_rounds_log.
  assert (Htail : completions i (main_log_tail cfg me acc pc)
            = if (main_round cfg pc =? i)%nat then seq 0 (taken pc) else []).
  { destruct pc; simpl;
      rewrite ?completions_app, ?completions_map_give, ?completions_map_take,
        ?completions_prints, ?app_nil_r; try done; by destruct (_ =? _)%nat. }
  rewrite Htail.
  destruct (Nat.ltb_spec i (main_round cfg pc)), (Nat.eqb_spec (main_round cfg pc) i),
    (Nat.eqb_spec i (main_round cfg pc)); try lia; by rewrite ?app_nil_r.
Qed.

Lemma released_trace s i :
  sync_inv cfg s ->
  released_cores i (trace s)
  = released_cores i
      (main_log cfg (xMainCoreID s) (uxElapsedCumulative s) (xMainPC s)).
Proof.
  intros Hsync. rewrite <- (si_main_log _ _ Hsync). unfold main_trace.
  symmetry. apply omap_filter. by intros [].
Qed.

Lemma completions_trace s i :
  sync_inv cfg s ->
  completions i (trace s)
  = completions i
      (main_log cfg (xMainCoreID s) (uxElapsedCumulative s) (xMainPC s)).
Proof.
  intros Hsync. rewrite <- (si_main_log _ _ Hsync). unfold main_trace.
  symmetry. apply omap_filter. by intros [].
Qed.

Lemma others_prefix me k n : (k <= n)%nat -> others me k `prefix_of` others me n.
Proof.
  intros H. unfold others. replace n with (k + (n - k))%nat by lia.
  rewrite seq_app, List.filter_app. by eexists.
Qed.

Lemma released_so_far_prefix me pc :
  main_wf cfg pc -> released_so_far cfg me pc `prefix_of` release_order cfg me.
Proof.
  intros Hwf. unfold release_order. destruct pc; simpl in *;
    try (by apply prefix_nil).
  - etrans; [apply (others_prefix me iCore nCores); lia|]. by eexists.
  - by eexists.
  - done.
Qed.

Lemma in_others me k c : In c (others me k) <-> (c < k)%nat /\ c <> me.
Proof.
  unfold others. rewrite filter_In, in_seq, negb_true_iff, Nat.eqb_neq. lia.
Qed.

End Order.

(** *** The core of the test task *)

Section MainCore.
Context (cfg : port_config).
Local Abbreviation nCores := (configNUMBER_OF_CORES cfg).
Local Abbreviation nSamples := (portTEST_NUM_SAMPLES cfg).
Local Abbreviation nItems := (portTEST_NUM_ITEMS cfg).

Lemma main_core_exec sched s :
  xMainCoreID (exec cfg sched s) = xMainCoreID s.
Proof.
  revert s. induction sched as [|l sched IH]; intros s; simpl; [done|].
  rewrite IH. destruct (step cfg l s) as [s'|] eqn:Hstep; simpl; [|done].
  destruct l as [tid cc]. case_step Hstep; done.
Qed.

(** A run in two parts. *)
Lemma exec_app sched1 sched2 s :
  exec cfg (sched1 ++ sched2) s = exec cfg sched2 (exec cfg sched1 s).
Proof. revert s. induction sched1 as [|l sched1 IH]; intros s; simpl; [done|apply IH]. Qed.

End MainCore.


(** *** A failed enqueue operation *)

Section Failure.
Context (cfg : port_config).
Local Abbreviation nCores := (configNUMBER_OF_CORES cfg).
Local Abbreviation nSamples := (portTEST_NUM_SAMPLES cfg).
Local Abbreviation nItems := (portTEST_NUM_ITEMS cfg).

(** The barrier invariant does not depend on the queues. *)
Lemma sync_inv_set_queues qs s : sync_inv cfg s -> sync_inv cfg (set_queues qs s).
Proof. intros [? ? ? ? ? ? ? ?]. by constructor. Qed.

(** Once an assertion has failed nothing runs any more. *)
Lemma exec_aborted sched s f :
  xTestFailure s = Some f -> exec cfg sched s = s.
Proof.
  intros Hf. induction sched as [|l sched IH]; simpl; [done|].
  unfold step. rewrite Hf. simpl. exact IH.
Qed.

(** The step on which an assertion fails: it is an enqueue operation of a
    producer, the report is that of line 120, and no average has been
    printed. *)
Lemma failing_step l s s' f :
  sync_inv cfg s -> xTestFailure s = None ->
  step cfg l s = Some s' -> xTestFailure s' = Some f ->
  f = send_failure
  /\ (exists c r k, last_event s' = Some (EvQueueSend c r k false))
  /\ reports s' = [].
Proof.
  intros Hsync Hok Hstep Hf.
  assert (Hsync' : sync_inv cfg s') by (by eapply sync_inv_step).
  unfold step in Hstep. rewrite Hok in Hstep.
  destruct l as [[|i] ccount]; simpl in Hstep.
  - case_step Hstep; simpl in Hf; congruence.
  - unfold prvProducerTask in Hstep.
    destruct (xProducerTaskHandles s !! i) as [t|] eqn:Hi; [|done].
    destruct (pxPC t) eqn:Hpc;
      try (case_step Hstep; simpl in Hf; congruence).
    destruct (_ <? _)%nat; [|injection Hstep as <-; simpl in Hf; congruence].
    destruct (xQueueHandles s !! xCoreID t) as [q|]; [|done].
    destruct (xQueueSend q _) as [q' ok].
    destruct ok; simpl in Hstep; injection Hstep as <-; simpl in Hf;
      [congruence|].
    injection Hf as <-. split; [done|]. split; [by eexists _, _, _|].
    rewrite (reports_state cfg _ Hsync'). simpl.
    destruct (task_sync_working cfg _ _ _ (si_sync _ _ Hsync i t Hi)) as (Hrel & _);
      [by rewrite Hpc|].
    destruct (xMainPC s); simpl in *; done.
Qed.

Lemma failing_run sched s f :
  sync_inv cfg s -> xTestFailure s = None ->
  xTestFailure (exec cfg sched s) = Some f ->
  f = send_failure
  /\ (exists c r k, last_event (exec cfg sched s) = Some (EvQueueSend c r k false))
  /\ reports (exec cfg sched s) = [].
Proof.
  revert s. induction sched as [|l sched IH]; intros s Hsync Hok Hf; simpl in *.
  - congruence.
  - destruct (step cfg l s) as [s'|] eqn:Hstep; simpl in *; [|by apply IH].
    destruct (xTestFailure s') as [f'|] eqn:Hf'.
    + rewrite (exec_aborted sched s' f' Hf') in *.
      rewrite Hf' in Hf. injection Hf as <-. by eapply failing_step.
    + apply IH; [by eapply sync_inv_step|done|done].
Qed.

(** A step emits at most one event; it fails the assertion of line 120
    exactly when the event is an enqueue operation that failed. *)
Lemma step_failed_send l s s' :
  step cfg l s = Some s' ->
  (xEvents s' = xEvents s /\ xTestFailure s' = None)
  \/ exists e, xEvents s' = e :: xEvents s
       /\ ((is_failed_send e = false /\ xTestFailure s' = None)
           \/ (is_failed_send e = true /\ xTestFailure s' = Some send_failure)).
Proof.
  intros Hstep. unfold step in Hstep.
  destruct (xTestFailure s) eqn:Hok; [done|].
  destruct l as [[|i] ccount]; simpl in Hstep.
  - case_step Hstep; simpl; rewrite ?Hok; first [by left | right; eexists; by eauto].
  - unfold prvProducerTask in Hstep.
    destruct (xProducerTaskHandles s !! i) as [t|] eqn:Hi; [|done].
    destruct (pxPC t) eqn:Hpc;
      try (case_step Hstep; simpl; rewrite ?Hok;
           first [by left | right; eexists; by eauto]).
    destruct (_ <? _)%nat; [|injection Hstep as <-; simpl; rewrite Hok; by left].
    destruct (xQueueHandles s !! xCoreID t) as [q|]; [|done].
    destruct (xQueueSend q _) as [q' ok].
    destruct ok; simpl in Hstep; injection Hstep as <-; simpl; rewrite ?Hok;
      right; eexists; (split; [reflexivity|]); [left|right]; done.
Qed.

Lemma abort_inv_step l s s' :
  abort_inv s -> step cfg l s = Some s' -> abort_inv s'.
Proof.
  intros Hinv Hstep.
  assert (Hok : xTestFailure s = None).
  { unfold step in Hstep. by destruct (xTestFailure s). }
  unfold abort_inv in *. rewrite Hok in Hinv.
  destruct (step_failed_send l s s' Hstep)
    as [[He Hf]|(e & He & [[Hne Hf]|[Hfs Hf]])]; rewrite Hf, He.
  - done.
  - intros e' [<-|Hin]; [done|by apply Hinv].
  - split; [done|]. by exists e, (xEvents s).
Qed.

Lemma abort_inv_exec sched s : abort_inv s -> abort_inv (exec cfg sched s).
Proof.
  revert s. induction sched as [|l sched IH]; intros s H; simpl; [done|].
  apply IH. destruct (step cfg l s) eqn:Hstep; simpl; [|done].
  by eapply abort_inv_step.
Qed.

(** Before the queues are tampered with, no enqueue operation fails. *)
Lemma abort_inv_run xCore sched qs :
  (xCore < nCores)%nat ->
  abort_inv (set_queues qs (exec cfg sched (setup_idf cfg xCore))).
Proof.
  intros Hme.
  assert (Hinv : data_inv cfg (exec cfg sched (setup_idf cfg xCore)))
    by (by apply data_inv_exec, data_inv_setup).
  unfold abort_inv. simpl. rewrite (di_ok _ _ Hinv).
  intros e Hin. destruct e; try done. destruct ok; [done|].
  assert (Hin' : In (EvQueueSend xCore0 iSamples iItems false)
                   (trace (exec cfg sched (setup_idf cfg xCore)))).
  { unfold trace. by apply in_reverse. }
  apply in_split in Hin' as (pre & post & Heq).
  pose proof (history_ok_run cfg xCore sched Hme _ _ _ Heq) as Hev.
  simpl in Hev. discriminate Hev.
Qed.

(** A failed enqueue operation among the events is the last of them, and
    the assertion of line 120 has failed. *)
Lemma failed_send_is_last s pre e post :
  abort_inv s -> trace s = pre ++ e :: post -> is_failed_send e = true ->
  post = [] /\ xTestFailure s = Some send_failure
  /\ forall e', In e' pre -> is_failed_send e' = false.
Proof.
  unfold abort_inv, trace. intros Hinv Heq He.
  destruct (xTestFailure s) as [f|].
  - destruct Hinv as (-> & e0 & rest & Hev & He0 & Hrest).
    rewrite Hev, reverse_cons in Heq.
    apply snoc_split in Heq as [(-> & -> & ->)|(post' & -> & Hr)].
    + split; [done|]. split; [done|]. intros e' Hin. apply Hrest.
      by apply in_reverse.
    + exfalso. assert (Hin : In e rest).
      { apply in_reverse. rewrite Hr. apply in_elt. }
      rewrite (Hrest e Hin) in He. done.
  - exfalso. assert (Hin : In e (xEvents s)).
    { apply in_reverse. rewrite Heq. apply in_elt. }
    rewrite (Hinv e Hin) in He. done.
Qed.

(** The enqueue operation of a producer whose queue is full: it fails, the
    assertion of line 120 fails with it, and nothing has changed but that. *)
Lemma full_queue_send_fails c t r k q ccount s :
  xTestFailure s = None ->
  xProducerTaskHandles s !! c = Some t ->
  pxPC t = PItem r k -> (k < nItems)%nat ->
  xQueueHandles s !! xCoreID t = Some q ->
  (uxLength q <= uxQueueMessagesWaiting q)%nat ->
  let s' := exec cfg [(Producer c, ccount)] s in
  trace s' = trace s ++ [EvQueueSend (xCoreID t) r k false]
  /\ xTestFailure s' = Some send_failure
  /\ forall sched', exec cfg sched' s' = s'.
Proof.
  intros Hok Ht Hpc Hk Hq Hfull s'.
  assert (Hs' : s' = set_failure send_failure
                  (emit (EvQueueSend (xCoreID t) r k false)
                     (set_queues (<[xCoreID t := q]> (xQueueHandles s)) s))).
  { unfold s'. cbn [exec]. unfold step. rewrite Hok. cbn [fst snd].
    unfold prvProducerTask. rewrite Ht, Hpc.
    rewrite (proj2 (Nat.ltb_lt _ _) Hk), Hq.
    unfold xQueueSend. rewrite (proj2 (Nat.ltb_ge _ _) Hfull). reflexivity. }
  rewrite Hs'. split; [|split]; try reflexivity.
  - unfold trace. simpl. by rewrite reverse_cons.
  - intros sched'. by eapply exec_aborted.
Qed.

(** C7, as the code has it.  Let the queues be replaced, at any point of
    a run, by queues [qs] in any condition.  When a producer is scheduled
    at its enqueue operation and finds its queue full, the operation fails
    and the run is aborted there.  An enqueue operation that has failed
    has aborted the run at once: it is the last event, no enqueue operation
    failed before it, the assertion of line 120 has failed, whatever is
    scheduled next changes nothing, and no average is printed, for any
    core.  The report is the line, the expected and the actual value and
    the message [xQueueSend() failed], the same for every core and every
    round; and no other assertion fails. *)
Theorem failed_send_aborts_the_run (xCore : nat)
    (sched0 sched1 : list (task_id * Z)) (qs : list queue) :
  (xCore < nCores)%nat ->
  let s := exec cfg sched1
             (set_queues qs (exec cfg sched0 (setup_idf cfg xCore))) in
  (forall pre c r k post,
     trace s = pre ++ EvQueueSend c r k false :: post ->
     post = []
     /\ (forall e, In e pre -> is_failed_send e = false)
     /\ xTestFailure s = Some send_failure
     /\ reports s = []
     /\ forall sched', exec cfg sched' s = s)
  /\ (forall f, xTestFailure s = Some f ->
      f = send_failure
      /\ (exists c r k, last_event s = Some (EvQueueSend c r k false))
      /\ reports s = []
      /\ forall sched', exec cfg sched' s = s)
  /\ (forall c t r k q ccount,
      xTestFailure s = None ->
      xProducerTaskHandles s !! c = Some t ->
      pxPC t = PItem r k -> (k < nItems)%nat ->
      xQueueHandles s !! xCoreID t = Some q ->
      (uxLength q <= uxQueueMessagesWaiting q)%nat ->
      let s' := exec cfg [(Producer c, ccount)] s in
      trace s' = trace s ++ [EvQueueSend (xCoreID t) r k false]
      /\ xTestFailure s' = Some send_failure
      /\ reports s' = []
      /\ forall sched', exec cfg sched' s' = s').
Proof.
  intros Hme s.
  assert (Hinv : data_inv cfg (exec cfg sched0 (setup_idf cfg xCore)))
    by (by apply data_inv_exec, data_inv_setup).
  assert (Hrun : forall f, xTestFailure s = Some f ->
            f = send_failure
            /\ (exists c r k, last_event s = Some (EvQueueSend c r k false))
            /\ reports s = []
            /\ forall sched', exec cfg sched' s = s).
  { intros f Hf.
    destruct (failing_run sched1
                (set_queues qs (exec cfg sched0 (setup_idf cfg xCore))) f)
      as (H1 & H2 & H3).
    - apply sync_inv_set_queues, (di_sync _ _ Hinv).
    - apply (di_ok _ _ Hinv).
    - exact Hf.
    - repeat split; try done. intros sched'. by eapply exec_aborted. }
  split; [|split; [exact Hrun|]].
  - intros pre c r k post Heq.
    assert (Habort : abort_inv s) by (by apply abort_inv_exec, abort_inv_run).
    destruct (failed_send_is_last s pre _ post Habort Heq eq_refl)
      as (Hpost & Hf & Hpre).
    destruct (Hrun _ Hf) as (_ & _ & Hrep & Hstuck). done.
  - intros c t r k q ccount Hok Ht Hpc Hk Hq Hfull s'.
    destruct (full_queue_send_fails c t r k q ccount s Hok Ht Hpc Hk Hq Hfull)
      as (Htr & Hf & Hstuck).
    fold s' in Htr, Hf, Hstuck.
    split; [exact Htr|]. split; [exact Hf|]. split; [|exact Hstuck].
    destruct (failing_run (sched1 ++ [(Producer c, ccount)])
                (set_queues qs (exec cfg sched0 (setup_idf cfg xCore))) send_failure)
      as (_ & _ & H3).
    + apply sync_inv_set_queues, (di_sync _ _ Hinv).
    + apply (di_ok _ _ Hinv).
    + rewrite exec_app. exact Hf.
    + rewrite exec_app in H3. exact H3.
Qed.

End Failure.

(** The queues hold two items when the first round begins: the second
    enqueue operation of the producer of core 1 finds its queue full and
    fails, and the run stops there. *)
Lemma failed_send_aborts_the_run_witness :
  (0 < configNUMBER_OF_CORES small_config)%nat
  /\ (let s := exec small_config (round_robin 2 10 0)
                 (set_queues crowded_queues
                    (exec small_config [] (setup_idf small_config 0))) in
      trace s
      = [EvNotifyGive 0 1; EvNotifyTake 1 0; EvGetTime 1 0 3;
         EvNotifyGive 0 0; EvNotifyTake 0 0; EvQueueSend 1 0 0 true;
         EvGetTime 0 0 5] ++ EvQueueSend 1 0 1 false :: []
      /\ xTestFailure s = Some send_failure
      /\ reports s = []
      /\ forall sched', exec small_config sched' s = s)
  /\ (let s := exec small_config (take 17 (round_robin 2 10 0))
                 (set_queues crowded_queues
                    (exec small_config [] (setup_idf small_config 0))) in
      let s' := exec small_config [(Producer 1, 5)] s in
      xTestFailure s = None
      /\ xQueueHandles s !! 1%nat = Some {| uxLength := 3; pcItems := [7; 8; 0] |}
      /\ trace s' = trace s ++ [EvQueueSend 1 0 1 false]
      /\ xTestFailure s' = Some send_failure
      /\ reports s' = []
      /\ forall sched', exec small_config sched' s' = s').
Proof.
  assert (H0 : (0 < configNUMBER_OF_CORES small_config)%nat) by (simpl; lia).
  split; [exact H0|]. split.
  - assert (H1 : trace (exec small_config (round_robin 2 10 0)
                          (set_queues crowded_queues
                             (exec small_config [] (setup_idf small_config 0))))
                 = [EvNotifyGive 0 1; EvNotifyTake 1 0; EvGetTime 1 0 3;
                    EvNotifyGive 0 0; EvNotifyTake 0 0; EvQueueSend 1 0 0 true;
                    EvGetTime 0 0 5]
                   ++ EvQueueSend 1 0 1 false :: [])
      by (vm_compute; reflexivity).
    pose proof (failed_send_aborts_the_run small_config 0 [] (round_robin 2 10 0)
                  crowded_queues H0) as H.
    cbv zeta in H. destruct H as [Hsend _].
    destruct (Hsend _ _ _ _ _ H1) as (_ & _ & Hf & Hrep & Hstuck).
    intros s. split; [exact H1|]. split; [exact Hf|].
    split; [exact Hrep|exact Hstuck].
  - pose proof (failed_send_aborts_the_run small_config 0 []
                  (take 17 (round_robin 2 10 0)) crowded_queues H0) as H.
    cbv zeta in H. destruct H as (_ & _ & Hstep).
    intros s s'.
    assert (Hok : xTestFailure s = None) by (vm_compute; reflexivity).
    assert (Hq : xQueueHandles s !! 1%nat
                 = Some {| uxLength := 3; pcItems := [7; 8; 0] |})
      by (vm_compute; reflexivity).
    split; [exact Hok|]. split; [exact Hq|].
    apply (Hstep 1%nat
             {| xCoreID := 1; ulNotifiedValue := 0; pxPC := PItem 0 1;
                uxTempTime := 3 |}
             0%nat 1%nat {| uxLength := 3; pcItems := [7; 8; 0] |} 5 Hok).
    + vm_compute. reflexivity.
    + reflexivity.
    + vm_compute. lia.
    + exact Hq.
    + vm_compute. lia.
Defined.

(** The report does not tell the core or the round: a run that fails on
    core 1 in round 0 and a run that fails on core 0 in round 1 have the
    same report. *)
Lemma failure_report_omits_core_and_round :
  let sA := exec small_config (round_robin 2 10 0)
              (set_queues crowded_queues (setup_idf small_config 0)) in
  let sB := exec small_config
              (repeat (Main, 100) 5 ++ repeat (Producer 0, 100) 5)
              (set_queues crowded_queues
                 (exec small_config (round_robin 2 15 0) (setup_idf small_config 0))) in
  last_event sA = Some (EvQueueSend 1 0 1 false)
  /\ last_event sB = Some (EvQueueSend 0 1 1 false)
  /\ xTestFailure sA = Some send_failure
  /\ xTestFailure sB = xTestFailure sA.
Proof. vm_compute. repeat split; reflexivity. Qed.

(** Hence no reading of the report gives the core and the round of the
    failure. *)
Lemma no_decoder_of_failure_reports :
  ~ exists decode : failure -> nat * nat,
      forall sched0 sched1 qs c r k f,
        let s := exec small_config sched1
                   (set_queues qs (exec small_config sched0 (setup_idf small_config 0))) in
        xTestFailure s = Some f ->
        last_event s = Some (EvQueueSend c r k false) ->
        decode f = (c, r).
Proof.
  intros [decode H].
  pose proof (H [] (round_robin 2 10 0) crowded_queues 1%nat 0%nat 1%nat send_failure
                ltac:(vm_compute; reflexivity) ltac:(vm_compute; reflexivity)) as HA.
  pose proof (H (round_robin 2 15 0)
                (repeat (Main, 100) 5 ++ repeat (Producer 0, 100) 5)
                crowded_queues 0%nat 1%nat 1%nat send_failure
                ltac:(vm_compute; reflexivity) ltac:(vm_compute; reflexivity)) as HB.
  congruence.
Qed.

(** *** Complete runs *)

Section Complete.
Context (cfg : port_config).
Local Abbreviation nCores := (configNUMBER_OF_CORES cfg).
Local Abbreviation nSamples := (portTEST_NUM_SAMPLES cfg).
Local Abbreviation nItems := (portTEST_NUM_ITEMS cfg).

(** The averages printed are those of the accumulators, which hold the
    Samples added up in [UBaseType_t]. *)
Lemma reports_samples s :
  data_inv cfg s ->
  reports s
  = map (fun c => (c, ux_div (ux_accumulate cfg 0 (samples c (trace s))) nSamples))
      (seq 0 (printed cfg (xMainPC s))).
Proof.
  intros Hinv. pose proof (di_sync _ _ Hinv) as Hsync.
  rewrite (reports_state cfg s Hsync). apply map_ext_in.
  intros c [_ Hc]%in_seq. f_equal.
  assert (Hp : (printed cfg (xMainPC s) <= nCores)%nat).
  { pose proof (si_main _ _ Hsync). destruct (xMainPC s); simpl in *; lia. }
  rewrite (accumulator_samples cfg s c Hinv) by lia. done.
Qed.

(** The events of a producer when the test task has returned: all its
    rounds, whole. *)
Lemma producer_complete s c :
  data_inv cfg s -> xMainPC s = MDone -> (c < nCores)%nat ->
  exists ws,
    length ws = nSamples
    /\ core_trace c s = producer_rounds_log cfg c ws
    /\ samples c (trace s) = samples_of_readings cfg ws.
Proof.
  intros Hinv Hdone Hc. pose proof (di_sync _ _ Hinv) as Hsync.
  rewrite <- (si_tasks_len _ _ Hsync) in Hc.
  destruct (lookup_lt_is_Some_2 _ _ Hc) as [t Ht].
  destruct (di_producers _ _ Hinv c t Ht) as (q & a & ws & _ & _ & _ & _ & _ & Hl & Htr).
  destruct (producer_finished cfg s c t Hsync (or_intror Hdone) Ht) as [Hw Hpc].
  exists ws. split; [lia|].
  rewrite <- samples_core_trace, Htr.
  split; [by destruct Hpc as [-> | ->]|].
  by apply samples_producer_log.
Qed.

Lemma samples_nonneg ws : 0 <= sumZ (samples_of_readings cfg ws).
Proof.
  induction ws as [|w ws IH]; simpl; [lia|].
  pose proof (to_UBaseType_range cfg (snd w - fst w)). unfold ux_sub. lia.
Qed.

Lemma trace_samples_nonneg s c :
  data_inv cfg s -> (c < nCores)%nat -> 0 <= sumZ (samples c (trace s)).
Proof.
  intros Hinv Hc. pose proof (di_sync _ _ Hinv) as Hsync.
  rewrite <- (si_tasks_len _ _ Hsync) in Hc.
  destruct (lookup_lt_is_Some_2 _ _ Hc) as [t Ht].
  destruct (di_producers _ _ Hinv c t Ht) as (q & a & ws & _ & _ & _ & _ & _ & Hl & Htr).
  rewrite <- samples_core_trace, Htr, samples_producer_log by done.
  apply samples_nonneg.
Qed.

Lemma producer_round_log_flat c r w :
  producer_round_log cfg c r w
  = [EvNotifyTake c r; EvGetTime c r (fst w)] ++ sends_log c r nItems
    ++ [EvElapsed c r (snd w) (ux_sub cfg (snd w) (fst w));
        EvQueueReset c r; EvSemGive c r].
Proof. unfold producer_round_log, window_log. simpl. by rewrite <- app_assoc. Qed.

End Complete.

(** *** The run of the test application *)

(** C1. On two cores, with 256 items and 128 samples, and cycle counters
    that do not wrap, a run in which the test task has returned has printed
    exactly two averages, for core 0 and for core 1; each is the sum of the
    128 Samples of its core divided by 128; and the events of each producer
    are 128 whole rounds, each with exactly 256 successful enqueue
    operations on the queue of its core between the two clock readings
    whose difference is the Sample. *)
Theorem idf_run_reports_two_averages (xCore : nat) (sched : list (task_id * Z)) :
  (xCore < 2)%nat ->
  no_wrap idf_config sched = true ->
  let s := exec idf_config sched (setup_idf idf_config xCore) in
  xMainPC s = MDone ->
  reports s = [(0%nat, sumZ (samples 0 (trace s)) / 128);
               (1%nat, sumZ (samples 1 (trace s)) / 128)]
  /\ forall c, (c < 2)%nat ->
       exists ws : list (Z * Z),
         length ws = 128%nat
         /\ samples c (trace s)
            = map (fun w => ux_sub idf_config (snd w) (fst w)) ws
         /\ core_trace c s
            = concat (imap (fun r w =>
                [EvNotifyTake c r; EvGetTime c r (fst w)]
                ++ map (fun k => EvQueueSend c r k true) (seq 0 256)
                ++ [EvElapsed c r (snd w) (ux_sub idf_config (snd w) (fst w));
                    EvQueueReset c r; EvSemGive c r]) ws).
Proof.
  intros Hme Hnw s Hdone.
  assert (Hinv : data_inv idf_config s) by (by apply data_inv_exec, data_inv_setup).
  split.
  - rewrite (reports_samples idf_config s Hinv), Hdone.
    change (printed idf_config MDone) with 2%nat.
    change (seq 0 2) with [0%nat; 1%nat]. cbn [map].
    rewrite !ux_accumulate_0.
    rewrite !to_UBaseType_small
      by (apply (samples_fit idf_config xCore sched); simpl; try done; lia).
    reflexivity.
  - intros c Hc.
    destruct (producer_complete idf_config s c Hinv Hdone Hc) as (ws & Hl & Htr & Hs).
    exists ws. split; [exact Hl|]. split; [exact Hs|].
    rewrite Htr. reflexivity.
Qed.

Lemma idf_run_reports_two_averages_witness :
  (0 < 2)%nat
  /\ no_wrap idf_config (round_robin 2 (128 * 270) 0) = true
  /\ let s := exec idf_config (round_robin 2 (128 * 270) 0)
               (setup_idf idf_config 0) in
  xMainPC s = MDone
  /\ reports s = [(0%nat, sumZ (samples 0 (trace s)) / 128);
                  (1%nat, sumZ (samples 1 (trace s)) / 128)]
  /\ forall c, (c < 2)%nat ->
       exists ws : list (Z * Z),
         length ws = 128%nat
         /\ samples c (trace s)
            = map (fun w => ux_sub idf_config (snd w) (fst w)) ws
         /\ core_trace c s
            = concat (imap (fun r w =>
                [EvNotifyTake c r; EvGetTime c r (fst w)]
                ++ map (fun k => EvQueueSend c r k true) (seq 0 256)
                ++ [EvElapsed c r (snd w) (ux_sub idf_config (snd w) (fst w));
                    EvQueueReset c r; EvSemGive c r]) ws).
Proof.
  assert (H0 : (0 < 2)%nat) by lia.
  assert (H1 : no_wrap idf_config (round_robin 2 (128 * 270) 0) = true)
    by (vm_compute; reflexivity).
  assert (H2 : xMainPC (exec idf_config (round_robin 2 (128 * 270) 0)
                          (setup_idf idf_config 0)) = MDone)
    by (vm_compute; reflexivity).
  split; [exact H0|]. split; [exact H1|]. split; [exact H2|].
  exact (idf_run_reports_two_averages 0 _ H0 H1 H2).
Defined.

(** *** Signals, rest and slots *)

Section Signals.
Context (cfg : port_config).
Local Abbreviation nCores := (configNUMBER_OF_CORES cfg).
Local Abbreviation nSamples := (portTEST_NUM_SAMPLES cfg).
Local Abbreviation nItems := (portTEST_NUM_ITEMS cfg).

Lemma count_lt_length {A} (p : A -> bool) (l : list A) i x :
  l !! i = Some x -> p x = false -> (count p l < length l)%nat.
Proof.
  intros Hi Hx. pose proof (count_le_length p l).
  destruct (decide (count p l = length l)) as [Heq|]; [|lia].
  rewrite (count_full p l Heq i x Hi) in Hx. done.
Qed.

(** X6. No signal of the barrier is lost.  A producer never has more than one
    release pending, and none when the test task is about to release it, so
    that [ulTaskNotifyTake( pdTRUE, ... )], which clears the value, never
    swallows a second release; and the counting semaphore, created with
    [configNUMBER_OF_CORES] as its maximum, is never full when a producer
    is about to give its completion signal, so that the [xSemaphoreGive]
    whose result the producer ignores always succeeds. *)
Theorem no_signal_is_lost (xCore : nat) (sched : list (task_id * Z)) :
  (xCore < nCores)%nat ->
  let s := exec cfg sched (setup_idf cfg xCore) in
  (forall c t, xProducerTaskHandles s !! c = Some t ->
     (ulNotifiedValue t <= 1)%nat)
  /\ (forall i c t, xProducerTaskHandles s !! c = Some t ->
        (xMainPC s = MNotify i c /\ c <> xCore)
        \/ (xMainPC s = MNotifyOwn i /\ c = xCore) ->
        ulNotifiedValue t = 0%nat)
  /\ uxMaxCount (xIterDoneSem s) = nCores
  /\ (uxCount (xIterDoneSem s) <= nCores)%nat
  /\ (forall c t r, xProducerTaskHandles s !! c = Some t -> pxPC t = PGive r ->
        snd (xSemaphoreGive (xIterDoneSem s)) = true).
Proof.
  intros Hme s.
  assert (Hsync : sync_inv cfg s).
  { apply sync_inv_exec.
    apply (sync_inv_setup cfg xCore (xQueueHandles (setup_idf cfg xCore)) Hme). }
  assert (Hcore : xMainCoreID s = xCore) by apply main_core_exec.
  pose proof (si_count _ _ Hsync) as Hcnt.
  pose proof (count_le_length (is_done cfg (main_round cfg (xMainPC s)))
                (xProducerTaskHandles s)) as Hle.
  rewrite (si_tasks_len _ _ Hsync) in Hle.
  split; [|split; [|split; [|split]]].
  - intros c t Ht. destruct (si_sync _ _ Hsync c t Ht) as [_ Hs].
    destruct (released _ _ _); [|lia].
    destruct Hs as [(-> & _)|[(-> & _)|(-> & _)]]; lia.
  - intros i c t Ht Hpc. destruct (si_sync _ _ Hsync c t Ht) as [_ Hs].
    rewrite Hcore in Hs.
    destruct Hpc as [[Hpc Hne]|[Hpc ->]]; rewrite Hpc in Hs; simpl in Hs.
    + rewrite Nat.ltb_irrefl in Hs. simpl in Hs. tauto.
    + rewrite Nat.eqb_refl in Hs. simpl in Hs. tauto.
  - apply (si_max _ _ Hsync).
  - lia.
  - intros c t r Ht Hpc. unfold xSemaphoreGive.
    assert (Hnd : is_done cfg (main_round cfg (xMainPC s)) t = false).
    { unfold is_done. by rewrite Hpc. }
    pose proof (count_lt_length _ _ c t Ht Hnd) as Hlt.
    rewrite (si_tasks_len _ _ Hsync) in Hlt. rewrite (si_max _ _ Hsync).
    destruct (_ <? _)%nat eqn:Hltb; [done|]. apply Nat.ltb_ge in Hltb. lia.
Qed.

(** X7. When the test task returns, the harness is at rest: no completion
    signal is left in the semaphore, and every producer has left its loop
    after [portTEST_NUM_SAMPLES] rounds (it is about to suspend itself or
    has done so), has no release pending, has timed all its windows and
    has left its queue empty. *)
Theorem harness_at_rest_when_done (xCore : nat) (sched : list (task_id * Z)) :
  (xCore < nCores)%nat ->
  let s := exec cfg sched (setup_idf cfg xCore) in
  xMainPC s = MDone ->
  uxCount (xIterDoneSem s) = 0%nat
  /\ length (xProducerTaskHandles s) = nCores
  /\ forall c t, xProducerTaskHandles s !! c = Some t ->
       (pxPC t = PSample nSamples \/ pxPC t = PSuspended)
       /\ ulNotifiedValue t = 0%nat
       /\ length (samples c (trace s)) = nSamples
       /\ exists q, xQueueHandles s !! c = Some q
            /\ uxQueueMessagesWaiting q = 0%nat.
Proof.
  intros Hme s Hdone.
  assert (Hinv : data_inv cfg s) by (by apply data_inv_exec, data_inv_setup).
  pose proof (di_sync _ _ Hinv) as Hsync.
  assert (Hfin : forall c t, xProducerTaskHandles s !! c = Some t ->
            pxPC t = PSample nSamples \/ pxPC t = PSuspended).
  { intros c t Ht. apply (producer_finished cfg s c t Hsync (or_intror Hdone) Ht). }
  split; [|split].
  - pose proof (si_count _ _ Hsync) as Hcnt. rewrite Hdone in Hcnt. simpl in Hcnt.
    rewrite count_all_false in Hcnt; [lia|].
    intros c t Ht. unfold is_done.
    destruct (Hfin c t Ht) as [-> | ->]; simpl; [|apply Nat.eqb_neq; lia].
    apply Nat.eqb_neq. lia.
  - apply (si_tasks_len _ _ Hsync).
  - intros c t Ht. split; [by apply (Hfin c t)|].
    destruct (si_sync _ _ Hsync c t Ht) as [_ Hs]. rewrite Hdone in Hs.
    simpl in Hs. split; [tauto|].
    assert (Hc : (c < nCores)%nat).
    { rewrite <- (si_tasks_len _ _ Hsync). by eapply lookup_lt_Some. }
    destruct (producer_complete cfg s c Hinv Hdone Hc) as (ws & Hl & _ & Hsm).
    split. { rewrite Hsm. unfold samples_of_readings. by rewrite length_map. }
    destruct (di_producers _ _ Hinv c t Ht) as (q & a & ws' & Hq & _ & Hit & _).
    exists q. split; [done|]. unfold uxQueueMessagesWaiting. rewrite Hit.
    by destruct (Hfin c t Ht) as [-> | ->].
Qed.

(** X8. Every task keeps to its own slots.  A step of the producer of core [i]
    leaves the test task where it is and touches neither the task, nor the
    queue, nor the accumulator of another core; a step of the test task
    changes no queue and no accumulator, and of a producer nothing but its
    notification value. *)
Theorem tasks_keep_to_their_slots (xCore : nat) (sched : list (task_id * Z))
    (l : task_id * Z) (s' : state) :
  (xCore < nCores)%nat ->
  let s := exec cfg sched (setup_idf cfg xCore) in
  step cfg l s = Some s' ->
  match fst l with
  | Producer i =>
      xMainPC s' = xMainPC s
      /\ forall j, j <> i ->
           xProducerTaskHandles s' !! j = xProducerTaskHandles s !! j
           /\ xQueueHandles s' !! j = xQueueHandles s !! j
           /\ uxElapsedCumulative s' !! j = uxElapsedCumulative s !! j
  | Main =>
      xQueueHandles s' = xQueueHandles s
      /\ uxElapsedCumulative s' = uxElapsedCumulative s
      /\ forall j t', xProducerTaskHandles s' !! j = Some t' ->
           exists t, xProducerTaskHandles s !! j = Some t
             /\ pxPC t' = pxPC t /\ uxTempTime t' = uxTempTime t
             /\ xCoreID t' = xCoreID t
  end.
Proof.
  intros Hme s Hstep.
  assert (Hsync : sync_inv cfg s).
  { apply sync_inv_exec.
    apply (sync_inv_setup cfg xCore (xQueueHandles (setup_idf cfg xCore)) Hme). }
  destruct l as [[|i] ccount]; simpl.
  - unfold step in Hstep. destruct (xTestFailure s); [done|]. simpl in Hstep.
    assert (Hnotify : forall k j t',
              alter (fun t => set_notified (xTaskNotifyGive (ulNotifiedValue t)) t) k
                (xProducerTaskHandles s) !! j = Some t' ->
              exists t, xProducerTaskHandles s !! j = Some t
                /\ pxPC t' = pxPC t /\ uxTempTime t' = uxTempTime t
                /\ xCoreID t' = xCoreID t).
    { intros k j t' Ht'. simpl in Ht'.
      apply lookup_alter_inv in Ht' as (t & Ht & ->). exists t.
      split; [done|]. by destruct (decide (j = k)). }
    case_step Hstep; simpl; (split; [done|]); (split; [done|]);
      intros j t' Ht'; first [by exists t' | by apply (Hnotify _ _ _ Ht')].
  - unfold step in Hstep. destruct (xTestFailure s); [done|]. simpl in Hstep.
    unfold prvProducerTask in Hstep.
    destruct (xProducerTaskHandles s !! i) as [t|] eqn:Ht; [|done].
    pose proof (si_core _ _ Hsync i t Ht) as Hc. rewrite Hc in Hstep.
    case_step Hstep; simpl; (split; [done|]); intros j Hne;
      rewrite ?list_lookup_insert_ne, ?list_lookup_alter_ne by done; done.
Qed.

End Signals.

(** *** Progress and the length of a run *)

Section Progress.
Context (cfg : port_config).
Local Abbreviation nCores := (configNUMBER_OF_CORES cfg).
Local Abbreviation nSamples := (portTEST_NUM_SAMPLES cfg).
Local Abbreviation nItems := (portTEST_NUM_ITEMS cfg).

(** Every step that is taken is one of the steps that were left. *)
Lemma step_counts_down l s s' :
  data_inv cfg s -> step cfg l s = Some s' ->
  steps_left cfg s = S (steps_left cfg s').
Proof.
  intros Hinv Hstep. pose proof (data_inv_step cfg l s s' Hinv Hstep) as Hinv'.
  pose proof (di_ok _ _ Hinv') as Hok'.
  pose proof (di_sync _ _ Hinv) as Hsync.
  pose proof (si_main _ _ Hsync) as Hwf.
  unfold step in Hstep. rewrite (di_ok _ _ Hinv) in Hstep.
  destruct l as [[|i] ccount]; simpl in Hstep.
  - (* the test task *)
    unfold steps_left.
    case_step Hstep; ltb_facts; simpl in *;
      rewrite ?sum_list_with_alter by done;
      unfold main_round_steps, main_tail_steps; nia.
  - (* a producer *)
    unfold prvProducerTask in Hstep.
    destruct (xProducerTaskHandles s !! i) as [t|] eqn:Ht; [|done].
    destruct (si_sync _ _ Hsync i t Ht) as [Hpwf _].
    unfold steps_left.
    case_step Hstep; ltb_facts; simpl in *; try done;
      match goal with
      | |- context [sum_list_with ?f (<[i := ?y]> _)] =>
          pose proof (sum_list_with_insert f _ i t y Ht) as Hsum; simpl in Hsum
      end;
      match goal with H : pxPC t = _ |- _ => rewrite H in Hsum end;
      simpl in Hsum;
      unfold producer_round_steps in *; nia.
Qed.

Lemma steps_taken_app sched1 sched2 s :
  steps_taken cfg (sched1 ++ sched2) s
  = (steps_taken cfg sched1 s + steps_taken cfg sched2 (exec cfg sched1 s))%nat.
Proof.
  revert s. induction sched1 as [|l sched1 IH]; intros s; simpl; [done|].
  destruct (step cfg l s) as [s'|]; simpl; rewrite IH; done.
Qed.

Lemma steps_left_setup xCore :
  steps_left cfg (setup_idf cfg xCore) = run_steps cfg.
Proof.
  unfold steps_left, run_steps. simpl.
  rewrite (sum_list_with_const _ _ (nSamples * producer_round_steps cfg + 1)).
  - rewrite length_map, length_seq. lia.
  - intros i t [-> _]%lookup_map_seq. simpl. lia.
Qed.

Lemma steps_account sched s :
  data_inv cfg s ->
  (steps_taken cfg sched s + steps_left cfg (exec cfg sched s))%nat
  = steps_left cfg s.
Proof.
  revert s. induction sched as [|l sched IH]; intros s Hinv; simpl; [done|].
  destruct (step cfg l s) as [s'|] eqn:Hstep; simpl; [|by apply IH].
  rewrite (step_counts_down l s s' Hinv Hstep).
  rewrite <- (IH s'); [lia|]. by eapply data_inv_step.
Qed.

(** A producer can run unless it is suspended or waits for a release that
    has not come. *)
Lemma producer_can_run s c t ccount :
  data_inv cfg s -> xProducerTaskHandles s !! c = Some t ->
  pxPC t <> PSuspended ->
  (forall r, pxPC t = PWait r -> ulNotifiedValue t <> 0%nat) ->
  is_Some (step cfg (Producer c, ccount) s).
Proof.
  intros Hinv Ht Hns Hw. pose proof (di_sync _ _ Hinv) as Hsync.
  unfold step. rewrite (di_ok _ _ Hinv). simpl. unfold prvProducerTask.
  rewrite Ht. rewrite (si_core _ _ Hsync c t Ht).
  destruct (di_producers _ _ Hinv c t Ht) as (q & a & ws & Hq & _).
  destruct (pxPC t) as [r|r|r|r k|r|r|r|] eqn:Hpc; try done.
  - by destruct (_ <? _)%nat.
  - specialize (Hw r eq_refl). by destruct (ulNotifiedValue t).
  - destruct (_ <? _)%nat; [|done]. rewrite Hq.
    destruct (xQueueSend q (Z.of_nat k)) as [q' ok].
    by destruct (TEST_ASSERT_EQUAL_MESSAGE _ _ _ _).
Qed.

Lemma sum_list_with_pos {A} (f : A -> nat) (l : list A) :
  sum_list_with f l <> 0%nat -> exists i x, l !! i = Some x /\ f x <> 0%nat.
Proof.
  induction l as [|z l IH]; simpl; [done|]. intros H.
  destruct (decide (f z = 0%nat)) as [Hz|Hz].
  - destruct IH as (i & x & Hi & Hx); [lia|]. by exists (S i), x.
  - by exists 0%nat, z.
Qed.

(** As long as a step is left, some task can run. *)
Lemma some_task_can_run s :
  data_inv cfg s -> steps_left cfg s <> 0%nat ->
  exists tid, forall ccount, is_Some (step cfg (tid, ccount) s).
Proof.
  intros Hinv Hleft. pose proof (di_sync _ _ Hinv) as Hsync.
  pose proof (si_main _ _ Hsync) as Hwf.
  assert (Hmain : is_Some (Test_QueueContention cfg s) ->
            exists tid, forall ccount, is_Some (step cfg (tid, ccount) s)).
  { intros H. exists Main. intros ccount. unfold step. by rewrite (di_ok _ _ Hinv). }
  destruct (xMainPC s) as [i|i k|i|i k| |k|] eqn:Hpc.
  - apply Hmain. unfold Test_QueueContention. rewrite Hpc.
    by destruct (_ <? _)%nat.
  - apply Hmain. unfold Test_QueueContention. rewrite Hpc.
    destruct (_ <? _)%nat; [|done]. by destruct (negb _).
  - apply Hmain. unfold Test_QueueContention. by rewrite Hpc.
  - destruct (k <? nCores)%nat eqn:Hk.
    2: { apply Hmain. unfold Test_QueueContention. by rewrite Hpc, Hk. }
    destruct (uxCount (xIterDoneSem s)) as [|n] eqn:Hcnt.
    2: { apply Hmain. unfold Test_QueueContention, xSemaphoreTake.
         by rewrite Hpc, Hk, Hcnt. }
    apply Nat.ltb_lt in Hk.
    pose proof (si_count _ _ Hsync) as Hc. rewrite Hpc, Hcnt in Hc. simpl in Hc.
    destruct (count_not_full (is_done cfg i) (xProducerTaskHandles s))
      as (c & t & Ht & Hnd).
    { rewrite (si_tasks_len _ _ Hsync). lia. }
    exists (Producer c). intros ccount.
    destruct (si_sync _ _ Hsync c t Ht) as [Hpwf Hs]. rewrite Hpc in Hs.
    simpl in Hs, Hwf.
    apply (producer_can_run s c t ccount Hinv Ht).
    + intros Hsus. rewrite Hsus in Hs. simpl in Hs.
      destruct Hs as [(_ & _ & Hr)|[(_ & Hr & _)|(_ & Hr)]];
        [lia|done|congruence].
    + intros r Hr. rewrite Hr in Hs. simpl in Hs.
      destruct Hs as [(Hn & _)|[(_ & Hn & _)|(_ & Hn)]];
        [lia|done|congruence].
  - apply Hmain. unfold Test_QueueContention. by rewrite Hpc.
  - apply Hmain. unfold Test_QueueContention. rewrite Hpc.
    by destruct (_ <? _)%nat.
  - unfold steps_left in Hleft. rewrite Hpc in Hleft. simpl in Hleft.
    apply sum_list_with_pos in Hleft as (c & t & Ht & Hpos).
    exists (Producer c). intros ccount.
    destruct (producer_finished cfg s c t Hsync (or_intror Hpc) Ht) as [_ Hfin].
    apply (producer_can_run s c t ccount Hinv Ht).
    + destruct Hfin as [Hf|Hf]; rewrite Hf in *; [done|]. simpl in Hpos. lia.
    + intros r Hr. destruct Hfin as [Hf|Hf]; congruence.
Qed.

(** From wherever it is, the test can be run to its end. *)
Lemma can_finish n s :
  data_inv cfg s -> (steps_left cfg s <= n)%nat ->
  exists sched, steps_left cfg (exec cfg sched s) = 0%nat.
Proof.
  revert s. induction n as [|n IH]; intros s Hinv Hn.
  - exists []. simpl. lia.
  - destruct (decide (steps_left cfg s = 0%nat)) as [Hz|Hnz]; [by exists []|].
    destruct (some_task_can_run s Hinv Hnz) as (tid & Hrun).
    destruct (Hrun 0) as [s' Hstep].
    pose proof (step_counts_down _ _ _ Hinv Hstep) as Hdown.
    destruct (IH s') as (sched & Hfin); [by eapply data_inv_step|lia|].
    exists ((tid, 0) :: sched). simpl. by rewrite Hstep.
Qed.

Lemma steps_left_zero s :
  sync_inv cfg s ->
  steps_left cfg s = 0%nat <->
  xMainPC s = MDone
  /\ forall c t, xProducerTaskHandles s !! c = Some t -> pxPC t = PSuspended.
Proof.
  intros Hsync. pose proof (si_main _ _ Hsync) as Hwf.
  unfold steps_left. split.
  - intros H.
    assert (Hm : main_steps_left cfg (xMainPC s) = 0%nat) by lia.
    assert (Hp : sum_list_with (fun t => producer_steps_left cfg (pxPC t))
                   (xProducerTaskHandles s) = 0%nat) by lia.
    split.
    + destruct (xMainPC s); simpl in Hm, Hwf; unfold main_tail_steps in Hm;
        try nia. done.
    + intros c t Ht. apply (proj1 (sum_list_with_zero _ _) Hp) in Ht.
      destruct (pxPC t); simpl in Ht; try nia. done.
  - intros [-> Hp]. simpl. apply sum_list_with_zero.
    intros c t Ht. by rewrite (Hp c t Ht).
Qed.

(** Every run can be continued until the test task has returned. *)
Lemma can_complete xCore sched :
  (xCore < nCores)%nat ->
  exists sched',
    xMainPC (exec cfg (sched ++ sched') (setup_idf cfg xCore)) = MDone.
Proof.
  intros Hme.
  assert (Hinv : data_inv cfg (exec cfg sched (setup_idf cfg xCore)))
    by (by apply data_inv_exec, data_inv_setup).
  destruct (can_finish _ _ Hinv (le_n _)) as (sched' & Hfin).
  exists sched'. rewrite exec_app.
  apply (steps_left_zero _ (di_sync _ _ (data_inv_exec cfg sched' _ Hinv))) in Hfin.
  by destruct Hfin.
Qed.

(** X9. The harness cannot deadlock.  In every state a run can reach, some
    task can take a step unless the test task has returned; and every run
    can be continued to the end of the test, where the test task has
    returned after printing an average for every core and every producer
    has suspended itself. *)
Theorem harness_never_deadlocks (xCore : nat) (sched : list (task_id * Z)) :
  (xCore < nCores)%nat ->
  let s := exec cfg sched (setup_idf cfg xCore) in
  (xMainPC s <> MDone ->
   exists tid, forall ccount, is_Some (step cfg (tid, ccount) s))
  /\ exists sched',
       let s' := exec cfg (sched ++ sched') (setup_idf cfg xCore) in
       xMainPC s' = MDone
       /\ (forall c t, xProducerTaskHandles s' !! c = Some t ->
             pxPC t = PSuspended)
       /\ map fst (reports s') = seq 0 nCores.
Proof.
  intros Hme s.
  assert (Hinv : data_inv cfg s) by (by apply data_inv_exec, data_inv_setup).
  pose proof (di_sync _ _ Hinv) as Hsync.
  split.
  - intros Hnd. apply (some_task_can_run s Hinv).
    intros Hz. by apply (steps_left_zero s Hsync) in Hz as [Hz _].
  - destruct (can_finish (steps_left cfg s) s Hinv (le_n _)) as (sched' & Hfin).
    exists sched'. intros s'.
    assert (Hs' : s' = exec cfg sched' s) by apply exec_app.
    assert (Hinv' : data_inv cfg s') by (rewrite Hs'; by apply data_inv_exec).
    rewrite <- Hs' in Hfin.
    apply (steps_left_zero s' (di_sync _ _ Hinv')) in Hfin as [Hdone Hsus].
    split; [done|]. split; [done|].
    rewrite (reports_samples cfg s' Hinv'), Hdone. simpl.
    rewrite map_map. simpl. apply map_id.
Qed.

(** X10. The length of a run.  The steps a run has taken and the steps that are
    left to the tasks always add up to the same number, that of the steps
    of [Test_QueueContention] and of the producers: no run takes more
    steps, and none are left exactly when the test task has returned and
    every producer is suspended. *)
Theorem run_length (xCore : nat) (sched : list (task_id * Z)) :
  (xCore < nCores)%nat ->
  let s0 := setup_idf cfg xCore in
  let s := exec cfg sched s0 in
  (steps_taken cfg sched s0 + steps_left cfg s)%nat
  = (nSamples * (2 * nCores + 4) + (nCores + 3)
     + nCores * (nSamples * (nItems + 7) + 1))%nat
  /\ (steps_taken cfg sched s0
      <= nSamples * (2 * nCores + 4) + (nCores + 3)
         + nCores * (nSamples * (nItems + 7) + 1))%nat
  /\ (steps_left cfg s = 0%nat <->
      xMainPC s = MDone
      /\ forall c t, xProducerTaskHandles s !! c = Some t -> pxPC t = PSuspended).
Proof.
  intros Hme s0 s.
  assert (Hinv0 : data_inv cfg s0) by (by apply data_inv_setup).
  assert (Hinv : data_inv cfg s) by (by apply data_inv_exec).
  pose proof (steps_account sched s0 Hinv0) as Hacc. fold s in Hacc.
  unfold s0 in Hacc at 2. rewrite (steps_left_setup xCore) in Hacc.
  change (run_steps cfg)
    with (nSamples * (2 * nCores + 4) + (nCores + 3)
          + nCores * (nSamples * (nItems + 7) + 1))%nat in Hacc.
  split; [exact Hacc|]. split; [lia|].
  apply steps_left_zero, (di_sync _ _ Hinv).
Qed.

End Progress.

Lemma harness_never_deadlocks_witness :
  (0 < configNUMBER_OF_CORES small_config)%nat
  /\ exists sched',
       xMainPC (exec small_config (round_robin 2 10 0 ++ sched')
                  (setup_idf small_config 0)) = MDone.
Proof.
  split; [simpl; lia|].
  destruct (harness_never_deadlocks small_config 0 (round_robin 2 10 0))
    as [_ (sched' & Hdone & _)]; [simpl; lia|].
  by exists sched'.
Defined.

Lemma run_length_witness :
  (0 < configNUMBER_OF_CORES small_config)%nat
  /\ (steps_taken small_config (round_robin 2 10 0) (setup_idf small_config 0)
      + steps_left small_config
          (exec small_config (round_robin 2 10 0) (setup_idf small_config 0)))%nat
     = 63%nat.
Proof.
  split; [simpl; lia|].
  destruct (run_length small_config 0 (round_robin 2 10 0)) as [H _];
    [simpl; lia|].
  exact H.
Defined.

(** *** The state in which an event was emitted *)

Section Cuts.
Context (cfg : port_config).
Local Abbreviation nCores := (configNUMBER_OF_CORES cfg).
Local Abbreviation nSamples := (portTEST_NUM_SAMPLES cfg).
Local Abbreviation nItems := (portTEST_NUM_ITEMS cfg).

Lemma trace_exec_extends sched s :
  data_inv cfg s -> exists tail, trace (exec cfg sched s) = trace s ++ tail.
Proof.
  revert s. induction sched as [|l sched IH]; intros s Hinv; simpl.
  - exists []. by rewrite app_nil_r.
  - destruct (step cfg l s) as [s'|] eqn:Hstep; simpl; [|by apply IH].
    destruct (IH s') as [tail Htail]; [by eapply data_inv_step|].
    destruct (step_event_ok cfg l s s' Hinv Hstep) as [Heq|(e & Heq & _)];
      rewrite Htail, Heq.
    + by exists tail.
    + exists (e :: tail). by rewrite <- app_assoc.
Qed.

(** Every event of a run was emitted by a step of the run, taken in the
    state the run had reached with the events before it. *)
Lemma trace_cut sched s pre e post :
  data_inv cfg s ->
  trace (exec cfg sched s) = trace s ++ pre ++ e :: post ->
  exists sched1 l sched2 s2,
    sched = sched1 ++ l :: sched2
    /\ trace (exec cfg sched1 s) = trace s ++ pre
    /\ step cfg l (exec cfg sched1 s) = Some s2
    /\ trace s2 = trace s ++ pre ++ [e].
Proof.
  revert s pre. induction sched as [|l sched IH]; intros s pre Hinv Heq.
  - simpl in Heq. apply (f_equal length) in Heq.
    rewrite !length_app in Heq. simpl in Heq. lia.
  - simpl in Heq. destruct (step cfg l s) as [s'|] eqn:Hstep; simpl in Heq.
    + pose proof (data_inv_step cfg l s s' Hinv Hstep) as Hinv'.
      destruct (step_event_ok cfg l s s' Hinv Hstep) as [Htr|(e' & Htr & _)].
      * rewrite <- Htr in Heq.
        destruct (IH s' pre Hinv' Heq) as (sched1 & l1 & sched2 & s2 & -> & H1 & H2 & H3).
        exists (l :: sched1), l1, sched2, s2. simpl. rewrite Hstep. simpl.
        rewrite <- Htr. done.
      * destruct (trace_exec_extends sched s' Hinv') as [tail Htail].
        rewrite Htail, Htr, <- app_assoc in Heq.
        apply app_inv_head in Heq. simpl in Heq.
        destruct pre as [|e'' pre]; simpl in Heq.
        -- injection Heq as -> _.
           exists [], l, sched, s'. simpl. rewrite app_nil_r.
           split; [reflexivity|]. split; [reflexivity|]. split; [exact Hstep|].
           exact Htr.
        -- injection Heq as -> Heq.
           destruct (IH s' pre Hinv') as (sched1 & l1 & sched2 & s2 & -> & H1 & H2 & H3).
           { rewrite Htail. by rewrite Heq. }
           exists (l :: sched1), l1, sched2, s2. simpl. rewrite Hstep. simpl.
           rewrite H1, H3, Htr, <- !app_assoc. done.
    + destruct (IH s pre Hinv Heq) as (sched1 & l1 & sched2 & s2 & -> & H1 & H2 & H3).
      exists (l :: sched1), l1, sched2, s2. simpl. rewrite Hstep. done.
Qed.

Lemma cons_neq_self {A} (x : A) (l : list A) : l <> x :: l.
Proof. intros H. apply (f_equal length) in H. simpl in H. lia. Qed.

(** The step that prints the line of a core. *)
Lemma print_step l s s' c average :
  step cfg l s = Some s' ->
  xEvents s' = EvPrintCore c average :: xEvents s ->
  xMainPC s = MPrint c /\ (c < nCores)%nat
  /\ average = ux_div (default 0 (uxElapsedCumulative s !! c)) nSamples.
Proof.
  intros Hstep He. unfold step in Hstep. destruct (xTestFailure s); [done|].
  destruct l as [[|i] ccount]; simpl in Hstep.
  - case_step Hstep; simpl in He; try (by destruct (cons_neq_self _ _ He));
      try discriminate He.
    injection He as <- <-. ltb_facts. done.
  - unfold prvProducerTask in Hstep.
    case_step Hstep; simpl in He; try (by destruct (cons_neq_self _ _ He));
      discriminate He.
Qed.

Lemma samples_length s c t :
  data_inv cfg s -> xProducerTaskHandles s !! c = Some t ->
  length (samples c (trace s)) = windows_done cfg (pxPC t)
  /\ (windows_done cfg (pxPC t) <= nSamples)%nat.
Proof.
  intros Hinv Ht. pose proof (di_sync _ _ Hinv) as Hsync.
  destruct (di_producers _ _ Hinv c t Ht) as (q & a & ws & _ & _ & _ & _ & _ & Hl & Htr).
  rewrite <- samples_core_trace, Htr, samples_producer_log by done.
  unfold samples_of_readings. rewrite length_map. split; [done|].
  destruct (si_sync _ _ Hsync c t Ht) as [Hwf _].
  destruct (pxPC t); simpl in *; lia.
Qed.

Lemma producer_idle_after_rounds s c t :
  sync_inv cfg s ->
  main_round cfg (xMainPC s) = nSamples ->
  released (xMainCoreID s) (xMainPC s) c = false ->
  xProducerTaskHandles s !! c = Some t ->
  windows_done cfg (pxPC t) = nSamples
  /\ (pxPC t = PSample nSamples \/ pxPC t = PSuspended).
Proof.
  intros Hsync Hround Hrel Ht. destruct (si_sync _ _ Hsync c t Ht) as [Hwf Hs].
  rewrite Hrel, Hround in Hs. destruct Hs as (_ & Hw & Hr).
  destruct (pxPC t); simpl in *; try done; subst; auto.
  lia.
Qed.

(** X11. An average is printed from an accumulator that is complete.  When the
    line of a core is printed, all the windows of that core, and of every
    other core, have been timed and added, and no Sample is added later:
    the value printed is the quotient of all the Samples of the core. *)
Theorem average_printed_after_last_sample (xCore : nat)
    (sched : list (task_id * Z)) (pre post : list event) (c : nat) (average : Z) :
  (xCore < nCores)%nat ->
  trace (exec cfg sched (setup_idf cfg xCore))
    = pre ++ EvPrintCore c average :: post ->
  (c < nCores)%nat
  /\ average = ux_div (ux_accumulate cfg 0 (samples c pre)) nSamples
  /\ forall c', (c' < nCores)%nat ->
       length (samples c' pre) = nSamples /\ samples c' post = [].
Proof.
  intros Hme Heq. set (s0 := setup_idf cfg xCore) in *.
  assert (Hinv0 : data_inv cfg s0) by (by apply data_inv_setup).
  destruct (trace_cut sched s0 pre _ post Hinv0 Heq)
    as (sched1 & l & sched2 & s2 & Hsched & Hpre & Hstep & Htr2).
  simpl in Hpre, Htr2. set (s1 := exec cfg sched1 s0) in *.
  assert (Hinv1 : data_inv cfg s1) by (by apply data_inv_exec).
  assert (Hinv : data_inv cfg (exec cfg sched s0)) by (by apply data_inv_exec).
  pose proof (di_sync _ _ Hinv1) as Hsync1.
  assert (He : xEvents s2 = EvPrintCore c average :: xEvents s1).
  { apply (inj reverse). rewrite reverse_cons. fold (trace s2) (trace s1).
    by rewrite Htr2, Hpre. }
  destruct (print_step l s1 s2 c average Hstep He) as (Hpc & Hc & ->).
  split; [exact Hc|]. split.
  - rewrite (accumulator_samples cfg s1 c Hinv1 Hc), Hpre. done.
  - intros c' Hc'.
    assert (Hlen1 : length (samples c' pre) = nSamples).
    { rewrite <- (si_tasks_len _ _ Hsync1) in Hc'.
      destruct (lookup_lt_is_Some_2 _ _ Hc') as [t Ht].
      destruct (samples_length s1 c' t Hinv1 Ht) as [Hl _].
      rewrite Hpre in Hl. rewrite Hl.
      apply (producer_idle_after_rounds s1 c' t Hsync1); [| |done];
        by rewrite Hpc. }
    split; [exact Hlen1|].
    assert (Hc'' := Hc').
    rewrite <- (si_tasks_len _ _ (di_sync _ _ Hinv)) in Hc''.
    destruct (lookup_lt_is_Some_2 _ _ Hc'') as [t Ht].
    destruct (samples_length _ c' t Hinv Ht) as [Hl Hle].
    rewrite Heq, samples_app, length_app, samples_cons_none in Hl by done.
    apply length_zero_iff_nil. lia.
Qed.

End Cuts.

(** Witnesses: the small configuration under the round-robin schedule,
    stopped in the middle of the first round, where the producer of core 1
    is about to give its completion signal, and run to the end. *)
Lemma no_signal_is_lost_witness :
  (0 < configNUMBER_OF_CORES small_config)%nat
  /\ let s := exec small_config (round_robin 2 10 0) (setup_idf small_config 0) in
     (forall c t, xProducerTaskHandles s !! c = Some t ->
        (ulNotifiedValue t <= 1)%nat)
     /\ (forall i c t, xProducerTaskHandles s !! c = Some t ->
           (xMainPC s = MNotify i c /\ c <> 0%nat)
           \/ (xMainPC s = MNotifyOwn i /\ c = 0%nat) ->
           ulNotifiedValue t = 0%nat)
     /\ uxMaxCount (xIterDoneSem s) = 2%nat
     /\ (uxCount (xIterDoneSem s) <= 2)%nat
     /\ (forall c t r, xProducerTaskHandles s !! c = Some t -> pxPC t = PGive r ->
           snd (xSemaphoreGive (xIterDoneSem s)) = true).
Proof.
  split; [simpl; lia|].
  apply (no_signal_is_lost small_config 0 (round_robin 2 10 0)).
  simpl; lia.
Defined.

Lemma harness_at_rest_when_done_witness :
  (0 < configNUMBER_OF_CORES small_config)%nat
  /\ let s := exec small_config (round_robin 2 40 0) (setup_idf small_config 0) in
     xMainPC s = MDone
     /\ uxCount (xIterDoneSem s) = 0%nat
     /\ length (xProducerTaskHandles s) = 2%nat
     /\ forall c t, xProducerTaskHandles s !! c = Some t ->
          (pxPC t = PSample 2 \/ pxPC t = PSuspended)
          /\ ulNotifiedValue t = 0%nat
          /\ length (samples c (trace s)) = 2%nat
          /\ exists q, xQueueHandles s !! c = Some q
               /\ uxQueueMessagesWaiting q = 0%nat.
Proof.
  assert (H0 : (0 < configNUMBER_OF_CORES small_config)%nat) by (simpl; lia).
  assert (H1 : xMainPC (exec small_config (round_robin 2 40 0)
                          (setup_idf small_config 0)) = MDone)
    by (vm_compute; reflexivity).
  split; [exact H0|]. split; [exact H1|].
  exact (harness_at_rest_when_done small_config 0 (round_robin 2 40 0) H0 H1).
Defined.

Lemma tasks_keep_to_their_slots_witness :
  (0 < configNUMBER_OF_CORES small_config)%nat
  /\ let s := exec small_config (round_robin 2 10 0) (setup_idf small_config 0) in
     exists s',
       step small_config (Producer 1, 7) s = Some s'
       /\ xMainPC s' = xMainPC s
       /\ forall j, j <> 1%nat ->
            xProducerTaskHandles s' !! j = xProducerTaskHandles s !! j
            /\ xQueueHandles s' !! j = xQueueHandles s !! j
            /\ uxElapsedCumulative s' !! j = uxElapsedCumulative s !! j.
Proof.
  assert (H0 : (0 < configNUMBER_OF_CORES small_config)%nat) by (simpl; lia).
  split; [exact H0|]. intros s.
  destruct (step small_config (Producer 1, 7) s) as [s'|] eqn:Hstep;
    [|vm_compute in Hstep; discriminate Hstep].
  exists s'. split; [reflexivity|].
  exact (tasks_keep_to_their_slots small_config 0 (round_robin 2 10 0)
           (Producer 1, 7) s' H0 Hstep).
Defined.

Lemma average_printed_after_last_sample_witness :
  (0 < configNUMBER_OF_CORES small_config)%nat
  /\ let tr := trace (exec small_config (round_robin 2 40 0)
                        (setup_idf small_config 0)) in
     tr = take 42 tr ++ EvPrintCore 1 5 :: []
     /\ 5 = ux_div (ux_accumulate small_config 0 (samples 1 (take 42 tr))) 2
     /\ length (samples 0 (take 42 tr)) = 2%nat.
Proof.
  assert (H0 : (0 < configNUMBER_OF_CORES small_config)%nat) by (simpl; lia).
  assert (Heq : trace (exec small_config (round_robin 2 40 0)
                         (setup_idf small_config 0))
                = take 42 (trace (exec small_config (round_robin 2 40 0)
                                    (setup_idf small_config 0)))
                  ++ EvPrintCore 1 5 :: [])
    by (vm_compute; reflexivity).
  split; [exact H0|]. intros tr. split; [exact Heq|].
  destruct (average_printed_after_last_sample small_config 0 _ _ _ _ _ H0 Heq)
    as (_ & Havg & Hall).
  split; [exact Havg|]. apply (Hall 0%nat). simpl; lia.
Defined.

(** *** Fair schedules *)

Section Fair.
Context (cfg : port_config).
Local Abbreviation nCores := (configNUMBER_OF_CORES cfg).
Local Abbreviation nSamples := (portTEST_NUM_SAMPLES cfg).
Local Abbreviation nItems := (portTEST_NUM_ITEMS cfg).

(** A stretch in which no step is taken leaves the state as it is, and
    none of its tasks could run. *)
Lemma no_step_taken block s :
  steps_taken cfg block s = 0%nat ->
  exec cfg block s = s /\ forall l, In l block -> step cfg l s = None.
Proof.
  induction block as [|l block IH]; simpl; [done|].
  destruct (step cfg l s) as [s'|] eqn:Hstep; [done|]. simpl.
  intros H. destruct (IH H) as [He Hn]. split; [done|].
  intros l' [<-|Hl]; [done|by apply Hn].
Qed.

(** A stretch with a turn for every task takes a step while one is left. *)
Lemma turn_for_all_steps block s :
  data_inv cfg s -> turn_for_all nCores block ->
  steps_left cfg s <> 0%nat ->
  (steps_left cfg (exec cfg block s) < steps_left cfg s)%nat.
Proof.
  intros Hinv [Hmain Hprod] Hleft.
  pose proof (steps_account cfg block s Hinv) as Hacc.
  destruct (decide (steps_taken cfg block s = 0%nat)) as [Hz|Hnz]; [|lia].
  exfalso. destruct (no_step_taken block s Hz) as [_ Hnone].
  destruct (some_task_can_run cfg s Hinv Hleft) as (tid & Hrun).
  assert (Hin : In tid (map fst block)).
  { destruct tid as [|c]; [done|]. apply Hprod.
    destruct (Hrun 0) as [s' Hs']. unfold step in Hs'.
    rewrite (di_ok _ _ Hinv) in Hs'. simpl in Hs'. unfold prvProducerTask in Hs'.
    destruct (xProducerTaskHandles s !! c) as [t|] eqn:Ht; [|done].
    rewrite <- (si_tasks_len _ _ (di_sync _ _ Hinv)). by eapply lookup_lt_Some. }
  destruct (proj1 (in_map_iff fst block tid) Hin) as ([tid' ccount] & Htid & Hin').
  simpl in Htid. subst tid'.
  specialize (Hnone _ Hin'). destruct (Hrun ccount) as [s' Hs']. congruence.
Qed.

Lemma fair_blocks_finish blocks s :
  data_inv cfg s -> Forall (turn_for_all nCores) blocks ->
  (steps_left cfg (exec cfg (concat blocks) s) + length blocks <= steps_left cfg s)%nat
  \/ steps_left cfg (exec cfg (concat blocks) s) = 0%nat.
Proof.
  revert s. induction blocks as [|block blocks IH]; intros s Hinv Hfair; simpl.
  - left. lia.
  - inversion Hfair as [|? ? Hb Hfair']; subst. rename Hfair' into Hrest.
    rewrite exec_app.
    assert (Hinv' : data_inv cfg (exec cfg block s)) by (by apply data_inv_exec).
    destruct (IH _ Hinv' Hrest) as [Hle|Hz]; [|by right].
    destruct (decide (steps_left cfg s = 0%nat)) as [Hs|Hs].
    + right. pose proof (steps_account cfg (block ++ concat blocks) s Hinv) as Hacc.
      rewrite exec_app in Hacc. lia.
    + left. pose proof (turn_for_all_steps block s Hinv Hb Hs). lia.
Qed.

(** X12. Under every fair schedule the test runs to its end.  A schedule made
    of stretches in each of which every task gets a turn, as many stretches
    as a run has steps, brings the test task to its return, with an average
    printed for every core, and every producer to its suspension. *)
Theorem fair_schedules_complete (xCore : nat) (blocks : list (list (task_id * Z))) :
  (xCore < nCores)%nat ->
  Forall (turn_for_all nCores) blocks ->
  (run_steps cfg <= length blocks)%nat ->
  let s := exec cfg (concat blocks) (setup_idf cfg xCore) in
  xMainPC s = MDone
  /\ (forall c t, xProducerTaskHandles s !! c = Some t -> pxPC t = PSuspended)
  /\ map fst (reports s) = seq 0 nCores.
Proof.
  intros Hme Hfair Hlen s.
  assert (Hinv0 : data_inv cfg (setup_idf cfg xCore)) by (by apply data_inv_setup).
  assert (Hinv : data_inv cfg s) by (by apply data_inv_exec).
  assert (Hz : steps_left cfg s = 0%nat).
  { destruct (fair_blocks_finish blocks _ Hinv0 Hfair) as [Hle|Hz]; [|done].
    rewrite steps_left_setup in Hle. fold s in Hle. lia. }
  apply (steps_left_zero cfg s (di_sync _ _ Hinv)) in Hz as [Hdone Hsus].
  split; [done|]. split; [done|].
  rewrite (reports_samples cfg s Hinv), Hdone. simpl.
  rewrite map_map. simpl. apply map_id.
Qed.

End Fair.

(** The round-robin schedule of the small configuration, 63 times over. *)
Lemma fair_schedules_complete_witness :
  (0 < configNUMBER_OF_CORES small_config)%nat
  /\ Forall (turn_for_all 2) (replicate 63 (round_robin 2 1 0))
  /\ (run_steps small_config <= length (replicate 63 (round_robin 2 1 0)))%nat
  /\ xMainPC (exec small_config (concat (replicate 63 (round_robin 2 1 0)))
                (setup_idf small_config 0)) = MDone.
Proof.
  assert (H0 : (0 < configNUMBER_OF_CORES small_config)%nat) by (simpl; lia).
  assert (H1 : Forall (turn_for_all 2) (replicate 63 (round_robin 2 1 0))).
  { apply Forall_replicate. split; [simpl; tauto|].
    intros c Hc. assert (Hc' : c = 0%nat \/ c = 1%nat) by lia.
    destruct Hc' as [-> | ->]; simpl; tauto. }
  assert (H2 : (run_steps small_config
                <= length (replicate 63 (round_robin 2 1 0)))%nat)
    by (vm_compute; lia).
  split; [exact H0|]. split; [exact H1|]. split; [exact H2|].
  apply (fair_schedules_complete small_config 0 _ H0 H1 H2).
Defined.

(** *** The producers and the rounds of the test task *)

Section Causality.
Context (cfg : port_config).
Local Abbreviation nCores := (configNUMBER_OF_CORES cfg).
Local Abbreviation nSamples := (portTEST_NUM_SAMPLES cfg).
Local Abbreviation nItems := (portTEST_NUM_ITEMS cfg).

Lemma in_released_cores i c tr :
  In c (released_cores i tr) <-> In (EvNotifyGive i c) tr.
Proof.
  unfold released_cores. induction tr as [|e tr IH]; simpl; [done|]. split.
  - destruct e; simpl; try (intros H; right; by apply IH).
    destruct (Nat.eqb_spec iIter i) as [->|Hne]; simpl.
    + intros [->|H]; [by left|right; by apply IH].
    + intros H. right. by apply IH.
  - intros [He|H].
    + subst e. simpl. rewrite Nat.eqb_refl. by left.
    + apply IH in H. destruct e; simpl; try done.
      destruct (_ =? _)%nat; [by right|done].
Qed.

Lemma released_in_so_far me pc c :
  (c < nCores)%nat -> released me pc c = true ->
  In c (released_so_far cfg me pc).
Proof.
  intros Hc Hrel. destruct pc; simpl in *; try done.
  - apply andb_true_iff in Hrel as [Hk Hne]. ltb_facts. by apply in_others.
  - ltb_facts. by apply in_others.
  - unfold release_order. apply in_app_iff.
    destruct (decide (c = me)) as [->|Hne]; [right; by left|left].
    by apply in_others.
Qed.

(** The step that emits an event of a producer: the producer is in the
    round of the event, at work or about to take a release that has
    come. *)
Lemma producer_step_event l s s' e c r :
  data_inv cfg s -> step cfg l s = Some s' ->
  xEvents s' = e :: xEvents s -> producer_event e = Some (c, r) ->
  exists t, xProducerTaskHandles s !! c = Some t
    /\ pc_round cfg (pxPC t) = r
    /\ (pc_working (pxPC t) = true
        \/ (pc_working (pxPC t) = false /\ ulNotifiedValue t <> 0%nat)).
Proof.
  intros Hinv Hstep He Hev. pose proof (di_sync _ _ Hinv) as Hsync.
  unfold step in Hstep. rewrite (di_ok _ _ Hinv) in Hstep.
  destruct l as [[|i] ccount]; simpl in Hstep.
  - case_step Hstep; simpl in He; try (by destruct (cons_neq_self _ _ He));
      injection He as <-; discriminate Hev.
  - unfold prvProducerTask in Hstep.
    destruct (xProducerTaskHandles s !! i) as [t|] eqn:Ht; [|done].
    pose proof (si_core _ _ Hsync i t Ht) as Hc. rewrite Hc in Hstep.
    case_step Hstep; simpl in He; try (by destruct (cons_neq_self _ _ He));
      injection He as <-; simpl in Hev; injection Hev as <- <-;
      exists t; (split; [done|]);
      match goal with H : pxPC t = _ |- _ => rewrite H end; simpl;
      (split; [done|]); auto.
    right. split; [done|]. unfold ulTaskNotifyTake in *.
    by destruct (ulNotifiedValue t).
Qed.

(** X13. A producer works on a round between its release and the end of the
    round.  Before any event of the producer of core [c] in round [r], the
    test task has released that producer for round [r], has released no
    producer for a later round, and has not yet taken all the completion
    signals of round [r]. *)
Theorem producers_work_inside_their_round (xCore : nat)
    (sched : list (task_id * Z)) (pre post : list event) (e : event) (c r : nat) :
  (xCore < nCores)%nat ->
  trace (exec cfg sched (setup_idf cfg xCore)) = pre ++ e :: post ->
  producer_event e = Some (c, r) ->
  (c < nCores)%nat /\ (r < nSamples)%nat
  /\ In (EvNotifyGive r c) pre
  /\ (forall i c', In (EvNotifyGive i c') pre -> (i <= r)%nat)
  /\ (length (List.filter (is_completion_of r) pre) < nCores)%nat.
Proof.
  intros Hme Heq Hev. set (s0 := setup_idf cfg xCore) in *.
  assert (Hinv0 : data_inv cfg s0) by (by apply data_inv_setup).
  destruct (trace_cut cfg sched s0 pre _ post Hinv0 Heq)
    as (sched1 & l & sched2 & s2 & Hsched & Hpre & Hstep & Htr2).
  simpl in Hpre, Htr2. set (s1 := exec cfg sched1 s0) in *.
  assert (Hinv1 : data_inv cfg s1) by (by apply data_inv_exec).
  pose proof (di_sync _ _ Hinv1) as Hsync.
  assert (He : xEvents s2 = e :: xEvents s1).
  { apply (inj reverse). rewrite reverse_cons. fold (trace s2) (trace s1).
    by rewrite Htr2, Hpre. }
  destruct (producer_step_event l s1 s2 e c r Hinv1 Hstep He Hev)
    as (t & Ht & Hround & Hwork).
  assert (Hc : (c < nCores)%nat).
  { rewrite <- (si_tasks_len _ _ Hsync). by eapply lookup_lt_Some. }
  destruct (si_sync _ _ Hsync c t Ht) as [Hwf Hs].
  assert (Hrel : released (xMainCoreID s1) (xMainPC s1) c = true
                 /\ main_round cfg (xMainPC s1) = r
                 /\ is_done cfg (main_round cfg (xMainPC s1)) t = false).
  { destruct (released _ _ _).
    - destruct Hs as [(Hn & Hw & Hr)|[(Hn & Hw & Hr)|(Hn & Hd)]].
      + split; [done|]. split; [congruence|]. unfold is_done.
        rewrite Hr, (proj2 (Nat.eqb_neq _ _)) by lia. by rewrite andb_false_r.
      + split; [done|]. split; [congruence|]. unfold is_done. by rewrite Hw.
      + unfold is_done in Hd. apply andb_true_iff in Hd as [Hd _].
        apply negb_true_iff in Hd. destruct Hwork as [Hw|[_ Hw]]; congruence.
    - destruct Hs as (Hn & Hw & _). destruct Hwork as [Hw'|[_ Hw']]; congruence. }
  destruct Hrel as (Hrel & Hmain & Hnd).
  assert (Hr : (r < nSamples)%nat).
  { pose proof (si_main _ _ Hsync) as Hmwf. rewrite <- Hmain.
    destruct (xMainPC s1); simpl in *; try done; lia. }
  split; [exact Hc|]. split; [exact Hr|].
  rewrite <- Hpre. split; [|split].
  - apply in_released_cores.
    rewrite (released_trace cfg s1 r Hsync), released_main_log, Hmain.
    rewrite Nat.ltb_irrefl, Nat.eqb_refl. by apply released_in_so_far.
  - intros i c' Hin. apply in_released_cores in Hin.
    rewrite (released_trace cfg s1 i Hsync), released_main_log, Hmain in Hin.
    destruct (Nat.ltb_spec i r); [lia|].
    destruct (Nat.eqb_spec i r); [lia|done].
  - rewrite filter_completion_map, length_map.
    rewrite (completions_trace cfg s1 r Hsync), completions_main_log, Hmain.
    rewrite Nat.ltb_irrefl, Nat.eqb_refl, length_seq.
    pose proof (si_count _ _ Hsync) as Hcnt.
    pose proof (count_lt_length _ _ c t Ht Hnd) as Hlt.
    rewrite (si_tasks_len _ _ Hsync) in Hlt. lia.
Qed.

(** X14. The calls of the test task are the same in every run that ends,
    whatever the schedule: in every round the releases in the order of
    [others xCore n ++ [xCore]], then the takes; after the last round the
    header line, once, and then the line of every core in the order of the
    cores, with the quotient of the Samples of the core. *)
Theorem test_task_calls_are_fixed (xCore : nat) (sched : list (task_id * Z)) :
  (xCore < nCores)%nat ->
  let s := exec cfg sched (setup_idf cfg xCore) in
  xMainPC s = MDone ->
  List.filter is_main_event (trace s)
  = flat_map (fun i => map (EvNotifyGive i) (others xCore nCores ++ [xCore])
                       ++ map (EvSemTake i) (seq 0 nCores)) (seq 0 nSamples)
    ++ [EvPrintHeader nItems nSamples]
    ++ map (fun c => EvPrintCore c
                       (ux_div (ux_accumulate cfg 0 (samples c (trace s))) nSamples))
         (seq 0 nCores).
Proof.
  intros Hme s Hdone.
  assert (Hinv : data_inv cfg s) by (by apply data_inv_exec, data_inv_setup).
  pose proof (di_sync _ _ Hinv) as Hsync.
  assert (Hcore : xMainCoreID s = xCore) by apply main_core_exec.
  fold (main_trace s). rewrite (si_main_log _ _ Hsync), Hdone, Hcore. simpl.
  f_equal. f_equal. unfold prints_log. apply map_ext_in.
  intros c [_ Hc]%in_seq. by rewrite (accumulator_samples cfg s c Hinv Hc).
Qed.

End Causality.

Lemma producers_work_inside_their_round_witness :
  (0 < configNUMBER_OF_CORES small_config)%nat
  /\ let tr := trace (exec small_config (round_robin 2 10 0)
                        (setup_idf small_config 0)) in
     tr = take 12 tr ++ EvElapsed 1 0 8 5 :: drop 13 tr
     /\ In (EvNotifyGive 0 1) (take 12 tr)
     /\ (length (List.filter (is_completion_of 0) (take 12 tr)) < 2)%nat.
Proof.
  assert (H0 : (0 < configNUMBER_OF_CORES small_config)%nat) by (simpl; lia).
  assert (Heq : trace (exec small_config (round_robin 2 10 0)
                         (setup_idf small_config 0))
                = take 12 (trace (exec small_config (round_robin 2 10 0)
                                    (setup_idf small_config 0)))
                  ++ EvElapsed 1 0 8 5
                  :: drop 13 (trace (exec small_config (round_robin 2 10 0)
                                       (setup_idf small_config 0))))
    by (vm_compute; reflexivity).
  split; [exact H0|]. intros tr. split; [exact Heq|].
  destruct (producers_work_inside_their_round small_config 0 _ _ _ _ 1%nat 0%nat
              H0 Heq eq_refl) as (_ & _ & Hin & _ & Hlt).
  split; [exact Hin|exact Hlt].
Defined.

Lemma test_task_calls_are_fixed_witness :
  (0 < configNUMBER_OF_CORES small_config)%nat
  /\ let s := exec small_config (round_robin 2 40 0) (setup_idf small_config 0) in
     xMainPC s = MDone
     /\ List.filter is_main_event (trace s)
        = [EvNotifyGive 0 1; EvNotifyGive 0 0; EvSemTake 0 0; EvSemTake 0 1;
           EvNotifyGive 1 1; EvNotifyGive 1 0; EvSemTake 1 0; EvSemTake 1 1;
           EvPrintHeader 3 2; EvPrintCore 0 5; EvPrintCore 1 5].
Proof.
  assert (H0 : (0 < configNUMBER_OF_CORES small_config)%nat) by (simpl; lia).
  assert (H1 : xMainPC (exec small_config (round_robin 2 40 0)
                          (setup_idf small_config 0)) = MDone)
    by (vm_compute; reflexivity).
  split; [exact H0|]. split; [exact H1|].
  rewrite (test_task_calls_are_fixed small_config 0 (round_robin 2 40 0) H0 H1).
  vm_compute. reflexivity.
Defined.

(** *** The properties of the harness *)

Section Claims.
Context (cfg : port_config).
Local Abbreviation nCores := (configNUMBER_OF_CORES cfg).
Local Abbreviation nSamples := (portTEST_NUM_SAMPLES cfg).
Local Abbreviation nItems := (portTEST_NUM_ITEMS cfg).

(** The step that releases a producer: the test task is in its first loop
    at a core other than its own, or past it at its own core. *)
Lemma release_step l s s' i c :
  step cfg l s = Some s' ->
  xEvents s' = EvNotifyGive i c :: xEvents s ->
  (xMainPC s = MNotify i c /\ c <> xMainCoreID s)
  \/ (xMainPC s = MNotifyOwn i /\ c = xMainCoreID s).
Proof.
  intros Hstep He. unfold step in Hstep. destruct (xTestFailure s); [done|].
  destruct l as [[|j] ccount]; simpl in Hstep.
  - case_step Hstep; simpl in He; try (by destruct (cons_neq_self _ _ He));
      try discriminate He; injection He as <- <-; ltb_facts; auto.
  - unfold prvProducerTask in Hstep.
    case_step Hstep; simpl in He; try (by destruct (cons_neq_self _ _ He));
      discriminate He.
Qed.

(** The releases and the completions of round [i] among the events of a
    run that has ended. *)
Lemma round_of_complete_run s i :
  sync_inv cfg s -> xMainPC s = MDone ->
  List.filter (is_release_of i) (trace s)
  = (if (i <? nSamples)%nat
     then map (EvNotifyGive i) (others (xMainCoreID s) nCores ++ [xMainCoreID s])
     else [])
  /\ List.filter (is_completion_of i) (trace s)
     = (if (i <? nSamples)%nat then map (EvSemTake i) (seq 0 nCores) else []).
Proof.
  intros Hsync Hdone.
  rewrite filter_release_map, filter_completion_map.
  rewrite (released_trace cfg s i Hsync), (completions_trace cfg s i Hsync).
  rewrite released_main_log, completions_main_log, Hdone. simpl.
  destruct (i <? nSamples)%nat; [done|]. by destruct (i =? nSamples)%nat.
Qed.

(** C2. In every run, whatever the schedule, each round of the test task
    has at most [configNUMBER_OF_CORES] release signals and as many
    completion signals consumed, and exactly that many once the test task
    has left the round; before any release of round [i + 1], round [i] is
    closed: all its releases were issued, all its completion signals were
    consumed, and every producer had given its completion signal.  Every
    run can be continued until the test task has returned, and then each
    of the [portTEST_NUM_SAMPLES] rounds has its [configNUMBER_OF_CORES]
    releases, one for every core, and its [configNUMBER_OF_CORES]
    completion signals consumed, and there is no other round. *)
Theorem rounds_strictly_serialized (xCore : nat) (sched : list (task_id * Z)) :
  (xCore < nCores)%nat ->
  let s := exec cfg sched (setup_idf cfg xCore) in
  (forall i,
     (length (List.filter (is_release_of i) (trace s)) <= nCores)%nat
     /\ (length (List.filter (is_completion_of i) (trace s)) <= nCores)%nat)
  /\ (forall i, (i < main_round cfg (xMainPC s))%nat ->
     length (List.filter (is_release_of i) (trace s)) = nCores
     /\ length (List.filter (is_completion_of i) (trace s)) = nCores)
  /\ (forall pre i c post,
     trace s = pre ++ EvNotifyGive (S i) c :: post ->
     length (List.filter (is_release_of i) pre) = nCores
     /\ length (List.filter (is_completion_of i) pre) = nCores
     /\ forall c', (c' < nCores)%nat -> In (EvSemGive c' i) pre)
  /\ (xMainPC s = MDone ->
      forall i,
        ((i < nSamples)%nat ->
         List.filter (is_release_of i) (trace s)
         = map (EvNotifyGive i) (others xCore nCores ++ [xCore])
         /\ length (List.filter (is_release_of i) (trace s)) = nCores
         /\ List.filter (is_completion_of i) (trace s)
            = map (EvSemTake i) (seq 0 nCores)
         /\ length (List.filter (is_completion_of i) (trace s)) = nCores)
        /\ ((nSamples <= i)%nat ->
            List.filter (is_release_of i) (trace s) = []
            /\ List.filter (is_completion_of i) (trace s) = []))
  /\ exists sched',
       xMainPC (exec cfg (sched ++ sched') (setup_idf cfg xCore)) = MDone.
Proof.
  intros Hme s.
  assert (Hinv : data_inv cfg s) by (by apply data_inv_exec, data_inv_setup).
  pose proof (di_sync _ _ Hinv) as Hsync.
  assert (Hcore : (xMainCoreID s < nCores)%nat) by apply (si_me _ _ Hsync).
  assert (Hme' : xMainCoreID s = xCore) by apply main_core_exec.
  split; [|split; [|split; [|split]]].
  - intros i. rewrite filter_release_map, filter_completion_map, !length_map.
    rewrite (released_trace cfg s i Hsync), (completions_trace cfg s i Hsync).
    rewrite released_main_log, completions_main_log.
    pose proof (si_main _ _ Hsync) as Hwf.
    pose proof (length_release_order cfg _ Hcore) as Hlen.
    destruct (_ <? _)%nat; [rewrite length_seq; lia|].
    destruct (_ =? _)%nat; [|simpl; lia].
    destruct (released_so_far_prefix cfg (xMainCoreID s) _ Hwf) as [k Hk].
    rewrite Hk, length_app in Hlen. rewrite length_seq.
    destruct (xMainPC s); simpl in *; lia.
  - intros i Hi.
    destruct (round_closed_of_state cfg s i Hinv Hi) as (H1 & H2 & _). done.
  - intros pre i c post Heq.
    apply (history_ok_run cfg xCore sched Hme pre (EvNotifyGive (S i) c) post Heq).
  - intros Hdone i.
    destruct (round_of_complete_run s i Hsync Hdone) as [Hrel Hcom].
    rewrite Hme' in Hrel. rewrite Hrel, Hcom. split.
    + intros Hi. rewrite (proj2 (Nat.ltb_lt _ _) Hi).
      rewrite !length_map, length_seq.
      fold (release_order cfg xCore). rewrite length_release_order by done.
      done.
    + intros Hi. by rewrite (proj2 (Nat.ltb_ge _ _) Hi).
  - by apply can_complete.
Qed.

(** C3. In every round the cores are released in the order
    [others xCore n ++ [xCore]]: every core other than the core of the test
    task, then the core of the test task, last.  When the producer of the
    core of the test task is released, every other producer has been
    released in the round and none is released in it afterwards; and in a
    run in which the test task has returned, which every run can be
    continued to, every round has released the cores in this order. *)
Theorem own_core_released_last (xCore : nat) (sched : list (task_id * Z)) (i : nat) :
  (xCore < nCores)%nat ->
  let s := exec cfg sched (setup_idf cfg xCore) in
  released_cores i (trace s) `prefix_of` others xCore nCores ++ [xCore]
  /\ ((i < main_round cfg (xMainPC s))%nat ->
      released_cores i (trace s) = others xCore nCores ++ [xCore])
  /\ (forall c, In c (others xCore nCores) <-> (c < nCores)%nat /\ c <> xCore)
  /\ (forall pre post,
      trace s = pre ++ EvNotifyGive i xCore :: post ->
      released_cores i pre = others xCore nCores
      /\ released_cores i post = [])
  /\ (xMainPC s = MDone -> (i < nSamples)%nat ->
      released_cores i (trace s) = others xCore nCores ++ [xCore]
      /\ List.filter (is_release_of i) (trace s)
         = map (EvNotifyGive i) (others xCore nCores) ++ [EvNotifyGive i xCore])
  /\ exists sched',
       xMainPC (exec cfg (sched ++ sched') (setup_idf cfg xCore)) = MDone.
Proof.
  intros Hme s.
  assert (Hinv0 : data_inv cfg (setup_idf cfg xCore)) by (by apply data_inv_setup).
  assert (Hinv : data_inv cfg s) by (by apply data_inv_exec).
  pose proof (di_sync _ _ Hinv) as Hsync.
  assert (Hcore : xMainCoreID s = xCore) by apply main_core_exec.
  assert (Hprefix : released_cores i (trace s)
                    `prefix_of` others xCore nCores ++ [xCore]).
  { rewrite (released_trace cfg s i Hsync), released_main_log, Hcore.
    fold (release_order cfg xCore).
    destruct (_ <? _)%nat; [done|]. destruct (_ =? _)%nat; [|apply prefix_nil].
    apply released_so_far_prefix, (si_main _ _ Hsync). }
  assert (Hclosed : (i < main_round cfg (xMainPC s))%nat ->
                    released_cores i (trace s) = others xCore nCores ++ [xCore]).
  { intros Hi.
    rewrite (released_trace cfg s i Hsync), released_main_log, Hcore.
    by rewrite (proj2 (Nat.ltb_lt _ _) Hi). }
  split; [exact Hprefix|]. split; [exact Hclosed|].
  split; [apply in_others|]. split; [|split].
  - intros pre post Heq.
    destruct (trace_cut cfg sched _ pre _ post Hinv0 Heq)
      as (sched1 & l & sched2 & s2 & Hsched & Hpre & Hstep & Htr2).
    simpl in Hpre, Htr2. set (s1 := exec cfg sched1 (setup_idf cfg xCore)) in *.
    assert (Hsync1 : sync_inv cfg s1).
    { apply sync_inv_exec.
      apply (sync_inv_setup cfg xCore (xQueueHandles (setup_idf cfg xCore)) Hme). }
    assert (Hcore1 : xMainCoreID s1 = xCore) by apply main_core_exec.
    assert (He : xEvents s2 = EvNotifyGive i xCore :: xEvents s1).
    { apply (inj reverse). rewrite reverse_cons. fold (trace s2) (trace s1).
      by rewrite Htr2, Hpre. }
    destruct (release_step l s1 s2 i xCore Hstep He) as [[_ Hne]|[Hpc _]];
      [congruence|].
    assert (Hrel : released_cores i pre = others xCore nCores).
    { rewrite <- Hpre, (released_trace cfg s1 i Hsync1), released_main_log.
      rewrite Hpc, Hcore1. simpl. by rewrite Nat.ltb_irrefl, Nat.eqb_refl. }
    split; [exact Hrel|].
    fold s in Heq. rewrite Heq in Hprefix.
    unfold released_cores in Hprefix, Hrel |- *.
    rewrite omap_app in Hprefix. simpl in Hprefix.
    rewrite Nat.eqb_refl, Hrel in Hprefix.
    apply prefix_length in Hprefix. rewrite !length_app in Hprefix.
    simpl in Hprefix. apply length_zero_iff_nil.
    change (list_omap event nat (release_of i) post)
      with (omap (release_of i) post) in Hprefix. lia.
  - intros Hdone Hi.
    assert (Hr : released_cores i (trace s) = others xCore nCores ++ [xCore]).
    { apply Hclosed. by rewrite Hdone. }
    split; [exact Hr|]. by rewrite filter_release_map, Hr, map_app.
  - by apply can_complete.
Qed.

(** C4. In every run, the Sample a producer adds to the accumulator of its
    core is the difference, in [UBaseType_t], of two clock readings with
    nothing between them, in the order of the producer, but the
    [portTEST_NUM_ITEMS] enqueue operations of the round; the reset of the
    queue comes right after the second reading, outside the window; and the
    accumulator of a core holds the Samples of the core added up.  Every
    run can be continued until the test task has returned, and then the
    producer of every core has gone through [portTEST_NUM_SAMPLES] rounds,
    each of them the release taken, the first reading, the enqueue
    operations, the second reading with the Sample added, the reset and
    the completion signal, in this order. *)
Theorem sample_times_only_the_enqueues (xCore : nat) (sched : list (task_id * Z)) :
  (xCore < nCores)%nat ->
  let s := exec cfg sched (setup_idf cfg xCore) in
  (forall pre c r uxTime uxSample post,
     trace s = pre ++ EvElapsed c r uxTime uxSample :: post ->
     exists pre' uxStart,
       List.filter (is_core_event c) pre
         = pre' ++ EvGetTime c r uxStart :: sends_log c r nItems
       /\ uxSample = ux_sub cfg uxTime uxStart)
  /\ (forall pre c r post,
     trace s = pre ++ EvQueueReset c r :: post ->
     exists pre' uxTime uxSample,
       List.filter (is_core_event c) pre = pre' ++ [EvElapsed c r uxTime uxSample])
  /\ (forall c, (c < nCores)%nat ->
     uxElapsedCumulative s !! c
     = Some (ux_accumulate cfg 0 (samples c (trace s))))
  /\ (xMainPC s = MDone ->
      forall c, (c < nCores)%nat ->
        exists ws : list (Z * Z),
          length ws = nSamples
          /\ List.filter (is_core_event c) (trace s)
             = concat (imap (fun r w =>
                 [EvNotifyTake c r; EvGetTime c r (fst w)]
                 ++ map (fun k => EvQueueSend c r k true) (seq 0 nItems)
                 ++ [EvElapsed c r (snd w) (ux_sub cfg (snd w) (fst w));
                     EvQueueReset c r; EvSemGive c r]) ws)
          /\ samples c (trace s) = map (fun w => ux_sub cfg (snd w) (fst w)) ws
          /\ uxElapsedCumulative s !! c
             = Some (ux_accumulate cfg 0
                       (map (fun w => ux_sub cfg (snd w) (fst w)) ws)))
  /\ exists sched',
       xMainPC (exec cfg (sched ++ sched') (setup_idf cfg xCore)) = MDone.
Proof.
  intros Hme s.
  assert (Hinv : data_inv cfg s) by (by apply data_inv_exec, data_inv_setup).
  pose proof (history_ok_run cfg xCore sched Hme) as Hh.
  split; [|split; [|split; [|split]]].
  - intros pre c r uxTime uxSample post Heq. apply (Hh _ _ _ Heq).
  - intros pre c r post Heq. apply (Hh _ _ _ Heq).
  - intros c Hc. by apply accumulator_samples.
  - intros Hdone c Hc.
    destruct (producer_complete cfg s c Hinv Hdone Hc) as (ws & Hl & Htr & Hs).
    exists ws. split; [exact Hl|].
    split.
    { fold (core_trace c s). rewrite Htr. unfold producer_rounds_log. f_equal.
      apply imap_ext. intros r w _. apply producer_round_log_flat. }
    split; [exact Hs|].
    rewrite (accumulator_samples cfg s c Hinv Hc), Hs. done.
  - by apply can_complete.
Qed.

(** C6. In every run, no assertion fails; every enqueue operation
    succeeds; the queue of a core has the capacity [portTEST_NUM_ITEMS] it
    was created with and holds the items its producer has sent in the
    round, so that it is empty when the workload of a round begins, in the
    first round and, thanks to the reset, in every later one. *)
Theorem private_queue_never_full (xCore : nat) (sched : list (task_id * Z)) :
  (xCore < nCores)%nat ->
  let s := exec cfg sched (setup_idf cfg xCore) in
  xTestFailure s = None
  /\ (forall pre c r k ok post,
        trace s = pre ++ EvQueueSend c r k ok :: post -> ok = true)
  /\ (forall c t, xProducerTaskHandles s !! c = Some t ->
        exists q, xQueueHandles s !! c = Some q
          /\ uxLength q = nItems
          /\ pcItems q = queue_items cfg (pxPC t))
  /\ (forall c t q r, xProducerTaskHandles s !! c = Some t ->
        xQueueHandles s !! c = Some q ->
        pxPC t = PStart r \/ pxPC t = PItem r 0 ->
        uxQueueMessagesWaiting q = 0%nat).
Proof.
  intros Hme s.
  assert (Hinv : data_inv cfg s) by (by apply data_inv_exec, data_inv_setup).
  pose proof (history_ok_run cfg xCore sched Hme) as Hh.
  split; [apply (di_ok _ _ Hinv)|]. split; [|split].
  - intros pre c r k ok post Heq. apply (Hh _ _ _ Heq).
  - intros c t Ht.
    destruct (di_producers _ _ Hinv c t Ht) as (q & a & ws & Hq & Hcap & Hit & _).
    by exists q.
  - intros c t q r Ht Hq Hpc.
    destruct (di_producers _ _ Hinv c t Ht) as (q' & a & ws & Hq' & Hcap & Hit & _).
    rewrite Hq in Hq'. injection Hq' as <-.
    unfold uxQueueMessagesWaiting. rewrite Hit. by destruct Hpc as [->| ->].
Qed.

End Claims.

(** Witnesses: the small configuration under the round-robin schedule, run
    until the test task has returned. *)

Lemma rounds_strictly_serialized_witness :
  (0 < configNUMBER_OF_CORES small_config)%nat
  /\ let s := exec small_config (round_robin 2 40 0) (setup_idf small_config 0) in
     xMainPC s = MDone
     /\ (forall i,
           ((i < 2)%nat ->
            List.filter (is_release_of i) (trace s)
            = [EvNotifyGive i 1; EvNotifyGive i 0]
            /\ length (List.filter (is_release_of i) (trace s)) = 2%nat
            /\ List.filter (is_completion_of i) (trace s)
               = [EvSemTake i 0; EvSemTake i 1]
            /\ length (List.filter (is_completion_of i) (trace s)) = 2%nat)
           /\ ((2 <= i)%nat ->
               List.filter (is_release_of i) (trace s) = []
               /\ List.filter (is_completion_of i) (trace s) = []))
     /\ trace s = take 20 (trace s) ++ EvNotifyGive 1 1 :: drop 21 (trace s)
     /\ length (List.filter (is_release_of 0) (take 20 (trace s))) = 2%nat
     /\ length (List.filter (is_completion_of 0) (take 20 (trace s))) = 2%nat
     /\ forall c', (c' < 2)%nat -> In (EvSemGive c' 0) (take 20 (trace s)).
Proof.
  assert (H0 : (0 < configNUMBER_OF_CORES small_config)%nat) by (simpl; lia).
  assert (H1 : xMainPC (exec small_config (round_robin 2 40 0)
                          (setup_idf small_config 0)) = MDone)
    by (vm_compute; reflexivity).
  assert (H2 : trace (exec small_config (round_robin 2 40 0)
                        (setup_idf small_config 0))
               = take 20 (trace (exec small_config (round_robin 2 40 0)
                                   (setup_idf small_config 0)))
                 ++ EvNotifyGive 1 1
                 :: drop 21 (trace (exec small_config (round_robin 2 40 0)
                                      (setup_idf small_config 0))))
    by (vm_compute; reflexivity).
  pose proof (rounds_strictly_serialized small_config 0 (round_robin 2 40 0) H0)
    as H.
  cbv zeta in H. destruct H as (_ & _ & Hclosed & Hdone & _).
  split; [exact H0|]. intros s. split; [exact H1|].
  split; [exact (Hdone H1)|]. split; [exact H2|].
  exact (Hclosed _ _ _ _ H2).
Defined.

Lemma own_core_released_last_witness :
  (0 < configNUMBER_OF_CORES small_config)%nat
  /\ let s := exec small_config (round_robin 2 40 0) (setup_idf small_config 0) in
     xMainPC s = MDone
     /\ released_cores 1 (trace s) = [1; 0]%nat
     /\ List.filter (is_release_of 1) (trace s)
        = [EvNotifyGive 1 1; EvNotifyGive 1 0]
     /\ trace s = take 23 (trace s) ++ EvNotifyGive 1 0 :: drop 24 (trace s)
     /\ released_cores 1 (take 23 (trace s)) = [1%nat]
     /\ released_cores 1 (drop 24 (trace s)) = [].
Proof.
  assert (H0 : (0 < configNUMBER_OF_CORES small_config)%nat) by (simpl; lia).
  assert (H1 : xMainPC (exec small_config (round_robin 2 40 0)
                          (setup_idf small_config 0)) = MDone)
    by (vm_compute; reflexivity).
  assert (H2 : trace (exec small_config (round_robin 2 40 0)
                        (setup_idf small_config 0))
               = take 23 (trace (exec small_config (round_robin 2 40 0)
                                   (setup_idf small_config 0)))
                 ++ EvNotifyGive 1 0
                 :: drop 24 (trace (exec small_config (round_robin 2 40 0)
                                      (setup_idf small_config 0))))
    by (vm_compute; reflexivity).
  assert (H3 : (1 < portTEST_NUM_SAMPLES small_config)%nat) by (simpl; lia).
  pose proof (own_core_released_last small_config 0 (round_robin 2 40 0) 1 H0)
    as H.
  cbv zeta in H. destruct H as (_ & _ & _ & Hown & Hdone & _).
  split; [exact H0|]. intros s. split; [exact H1|].
  destruct (Hdone H1 H3) as [Hr Hf]. split; [exact Hr|]. split; [exact Hf|].
  split; [exact H2|]. exact (Hown _ _ H2).
Defined.

Lemma sample_times_only_the_enqueues_witness :
  (0 < configNUMBER_OF_CORES small_config)%nat
  /\ let s := exec small_config (round_robin 2 40 0) (setup_idf small_config 0) in
     xMainPC s = MDone
     /\ (forall c, (c < 2)%nat ->
           exists ws : list (Z * Z),
             length ws = 2%nat
             /\ List.filter (is_core_event c) (trace s)
                = concat (imap (fun r w =>
                    [EvNotifyTake c r; EvGetTime c r (fst w)]
                    ++ map (fun k => EvQueueSend c r k true) (seq 0 3)
                    ++ [EvElapsed c r (snd w) (ux_sub small_config (snd w) (fst w));
                        EvQueueReset c r; EvSemGive c r]) ws)
             /\ samples c (trace s)
                = map (fun w => ux_sub small_config (snd w) (fst w)) ws
             /\ uxElapsedCumulative s !! c
                = Some (ux_accumulate small_config 0
                          (map (fun w => ux_sub small_config (snd w) (fst w)) ws)))
     /\ samples 1 (trace s) = [5; 5]
     /\ uxElapsedCumulative s = [10; 10]
     /\ trace s = take 32 (trace s) ++ EvElapsed 1 1 23 5 :: drop 33 (trace s)
     /\ (exists pre' uxStart,
           List.filter (is_core_event 1) (take 32 (trace s))
           = pre' ++ EvGetTime 1 1 uxStart :: sends_log 1 1 3
           /\ 5 = ux_sub small_config 23 uxStart)
     /\ trace s = take 33 (trace s) ++ EvQueueReset 1 1 :: drop 34 (trace s)
     /\ exists pre' uxTime uxSample,
          List.filter (is_core_event 1) (take 33 (trace s))
          = pre' ++ [EvElapsed 1 1 uxTime uxSample].
Proof.
  assert (H0 : (0 < configNUMBER_OF_CORES small_config)%nat) by (simpl; lia).
  assert (H1 : xMainPC (exec small_config (round_robin 2 40 0)
                          (setup_idf small_config 0)) = MDone)
    by (vm_compute; reflexivity).
  assert (H2 : trace (exec small_config (round_robin 2 40 0)
                        (setup_idf small_config 0))
               = take 32 (trace (exec small_config (round_robin 2 40 0)
                                   (setup_idf small_config 0)))
                 ++ EvElapsed 1 1 23 5
                 :: drop 33 (trace (exec small_config (round_robin 2 40 0)
                                      (setup_idf small_config 0))))
    by (vm_compute; reflexivity).
  assert (H3 : trace (exec small_config (round_robin 2 40 0)
                        (setup_idf small_config 0))
               = take 33 (trace (exec small_config (round_robin 2 40 0)
                                   (setup_idf small_config 0)))
                 ++ EvQueueReset 1 1
                 :: drop 34 (trace (exec small_config (round_robin 2 40 0)
                                      (setup_idf small_config 0))))
    by (vm_compute; reflexivity).
  pose proof (sample_times_only_the_enqueues small_config 0 (round_robin 2 40 0) H0)
    as H.
  cbv zeta in H. destruct H as (Hwin & Hreset & _ & Hdone & _).
  split; [exact H0|]. intros s. split; [exact H1|].
  split; [exact (Hdone H1)|].
  split; [vm_compute; reflexivity|]. split; [vm_compute; reflexivity|].
  split; [exact H2|]. split; [exact (Hwin _ _ _ _ _ _ H2)|].
  split; [exact H3|]. exact (Hreset _ _ _ _ H3).
Defined.

Lemma private_queue_never_full_witness :
  (0 < configNUMBER_OF_CORES small_config)%nat
  /\ let s := exec small_config (round_robin 2 40 0) (setup_idf small_config 0) in
     xTestFailure s = None
     /\ (forall pre c r k ok post,
           trace s = pre ++ EvQueueSend c r k ok :: post -> ok = true)
     /\ (forall c t, xProducerTaskHandles s !! c = Some t ->
           exists q, xQueueHandles s !! c = Some q
             /\ uxLength q = 3%nat
             /\ pcItems q = queue_items small_config (pxPC t))
     /\ (forall c t q r, xProducerTaskHandles s !! c = Some t ->
           xQueueHandles s !! c = Some q ->
           pxPC t = PStart r \/ pxPC t = PItem r 0 ->
           uxQueueMessagesWaiting q = 0%nat).
Proof.
  split; [simpl; lia|].
  apply (private_queue_never_full small_config 0 (round_robin 2 40 0)).
  simpl; lia.
Defined.


End QueueContentionProofs.

(** ** The critical section speed test *)

Module CritSpeedProofs.
Import CritSpeed.

Local Arguments Nat.mul _ _ : simpl never.

Section Loop.
Context (cfg : port_config) (ccount : nat -> Z).
Local Abbreviation nSamples := (portTEST_NUM_SAMPLES cfg).

Local Abbreviation entry_sample := (CritSpeed.entry_sample cfg ccount).
Local Abbreviation exit_sample := (CritSpeed.exit_sample cfg ccount).

Lemma sample_body_spec st i :
  uxReadings st = (4 * i)%nat ->
  uxReadings (sample_body cfg ccount st) = (4 * S i)%nat
  /\ uxEntryElapsedCumulative (sample_body cfg ccount st)
     = ux_add cfg (uxEntryElapsedCumulative st) (entry_sample i)
  /\ uxExitElapsedCumulative (sample_body cfg ccount st)
     = ux_add cfg (uxExitElapsedCumulative st) (exit_sample i)
  /\ uxCriticalNesting (sample_body cfg ccount st) = uxCriticalNesting st
  /\ trace (sample_body cfg ccount st) = trace st ++ sample_events cfg ccount i.
Proof.
  intros Hr. unfold sample_body, get_time, CritSpeed.entry_sample, CritSpeed.exit_sample,
    sample_events, trace. simpl. rewrite Hr.
  replace (S (4 * i)) with (4 * i + 1)%nat by lia.
  replace (S (4 * i + 1)) with (4 * i + 2)%nat by lia.
  replace (S (4 * i + 2)) with (4 * i + 3)%nat by lia.
  repeat split; try done; try lia.
  rewrite !reverse_cons. by rewrite <- !app_assoc.
Qed.

Lemma sample_loop_spec n st i :
  uxReadings st = (4 * i)%nat ->
  uxEntryElapsedCumulative (sample_loop cfg ccount n st)
  = ux_accumulate cfg (uxEntryElapsedCumulative st) (map entry_sample (seq i n))
  /\ uxExitElapsedCumulative (sample_loop cfg ccount n st)
     = ux_accumulate cfg (uxExitElapsedCumulative st) (map exit_sample (seq i n))
  /\ uxCriticalNesting (sample_loop cfg ccount n st) = uxCriticalNesting st
  /\ trace (sample_loop cfg ccount n st)
     = trace st ++ flat_map (sample_events cfg ccount) (seq i n).
Proof.
  revert st i. induction n as [|n IH]; intros st i Hr.
  - simpl. by rewrite app_nil_r.
  - destruct (sample_body_spec st i Hr) as (Hr' & He & Hx & Hn & Ht).
    destruct (IH _ _ Hr') as (He' & Hx' & Hn' & Ht').
    cbn [sample_loop seq map flat_map]. rewrite He', Hx', Hn', Ht', He, Hx, Hn, Ht.
    repeat split; try done. by rewrite <- app_assoc.
Qed.

(** The test as a whole: the events of the samples, then the two lines. *)
Lemma crit_speed_spec :
  let st := Test_CriticalSectionSpeed cfg ccount in
  trace st
  = flat_map (sample_events cfg ccount) (seq 0 nSamples)
    ++ [EvPrintf entry_format
          (ux_div (ux_accumulate cfg 0 (map entry_sample (seq 0 nSamples))) nSamples);
        EvPrintf exit_format
          (ux_div (ux_accumulate cfg 0 (map exit_sample (seq 0 nSamples))) nSamples)]
  /\ uxEntryElapsedCumulative st
     = ux_accumulate cfg 0 (map entry_sample (seq 0 nSamples))
  /\ uxExitElapsedCumulative st
     = ux_accumulate cfg 0 (map exit_sample (seq 0 nSamples))
  /\ uxCriticalNesting st = 0%nat.
Proof.
  destruct (sample_loop_spec nSamples initial 0 eq_refl) as (He & Hx & Hn & Ht).
  unfold Test_CriticalSectionSpeed, printf, trace in *. simpl.
  rewrite !reverse_cons, Ht, He, Hx, Hn. simpl. by rewrite <- !app_assoc.
Qed.

Lemma printed_lines_samples l :
  printed_lines (flat_map (sample_events cfg ccount) l) = [].
Proof.
  apply omap_none. intros e (i & _ & He)%in_flat_map.
  unfold sample_events in He. simpl in He.
  repeat (destruct He as [<-|He]; [done|]). done.
Qed.

(** Without a wrap of the counter, the Samples are the cycles elapsed and
    add up to less than [2^w]. *)
Section NoWrap.
Hypothesis Hnw : no_wrap cfg ccount.

Lemma entry_sample_exact i :
  (i < nSamples)%nat -> entry_sample i = entry_cycles ccount i.
Proof.
  intros Hi. destruct Hnw as [Hmono Hrange].
  unfold CritSpeed.entry_sample, entry_cycles, portTEST_GET_TIME, ux_sub.
  pose proof (Hrange (4 * i)%nat ltac:(lia)).
  pose proof (Hrange (4 * i + 1)%nat ltac:(lia)).
  pose proof (Hmono (4 * i)%nat (4 * i + 1)%nat ltac:(lia) ltac:(lia)).
  rewrite (to_UBaseType_small cfg (ccount (4 * i))) by lia.
  rewrite (to_UBaseType_small cfg (ccount (4 * i + 1))) by lia.
  apply to_UBaseType_small. lia.
Qed.

Lemma exit_sample_exact i :
  (i < nSamples)%nat -> exit_sample i = exit_cycles ccount i.
Proof.
  intros Hi. destruct Hnw as [Hmono Hrange].
  unfold CritSpeed.exit_sample, exit_cycles, portTEST_GET_TIME, ux_sub.
  pose proof (Hrange (4 * i + 2)%nat ltac:(lia)).
  pose proof (Hrange (4 * i + 3)%nat ltac:(lia)).
  pose proof (Hmono (4 * i + 2)%nat (4 * i + 3)%nat ltac:(lia) ltac:(lia)).
  rewrite (to_UBaseType_small cfg (ccount (4 * i + 2))) by lia.
  rewrite (to_UBaseType_small cfg (ccount (4 * i + 3))) by lia.
  apply to_UBaseType_small. lia.
Qed.

Lemma entry_cycles_sum n i :
  (i + S n <= nSamples)%nat ->
  0 <= sumZ (map (entry_cycles ccount) (seq i (S n)))
    <= ccount (4 * (i + n) + 1) - ccount (4 * i).
Proof.
  destruct Hnw as [Hmono Hrange].
  revert i. induction n as [|n IH]; intros i Hi.
  - simpl. unfold entry_cycles. rewrite Nat.add_0_r.
    pose proof (Hmono (4 * i)%nat (4 * i + 1)%nat ltac:(lia) ltac:(lia)). lia.
  - change (sumZ (map (entry_cycles ccount) (seq i (S (S n)))))
      with (entry_cycles ccount i
            + sumZ (map (entry_cycles ccount) (seq (S i) (S n)))).
    specialize (IH (S i) ltac:(lia)).
    replace (4 * (S i + n) + 1)%nat with (4 * (i + S n) + 1)%nat in IH by lia.
    unfold entry_cycles at 1 3.
    pose proof (Hmono (4 * i)%nat (4 * i + 1)%nat ltac:(lia) ltac:(lia)).
    pose proof (Hmono (4 * i + 1)%nat (4 * S i)%nat ltac:(lia) ltac:(lia)).
    lia.
Qed.

Lemma exit_cycles_sum n i :
  (i + S n <= nSamples)%nat ->
  0 <= sumZ (map (exit_cycles ccount) (seq i (S n)))
    <= ccount (4 * (i + n) + 3) - ccount (4 * i + 2).
Proof.
  destruct Hnw as [Hmono Hrange].
  revert i. induction n as [|n IH]; intros i Hi.
  - simpl. unfold exit_cycles. rewrite Nat.add_0_r.
    pose proof (Hmono (4 * i + 2)%nat (4 * i + 3)%nat ltac:(lia) ltac:(lia)). lia.
  - change (sumZ (map (exit_cycles ccount) (seq i (S (S n)))))
      with (exit_cycles ccount i
            + sumZ (map (exit_cycles ccount) (seq (S i) (S n)))).
    specialize (IH (S i) ltac:(lia)).
    replace (4 * (S i + n) + 3)%nat with (4 * (i + S n) + 3)%nat in IH by lia.
    unfold exit_cycles at 1 3.
    pose proof (Hmono (4 * i + 2)%nat (4 * i + 3)%nat ltac:(lia) ltac:(lia)).
    pose proof (Hmono (4 * i + 3)%nat (4 * S i + 2)%nat ltac:(lia) ltac:(lia)).
    lia.
Qed.

Lemma entry_accumulated :
  ux_accumulate cfg 0 (map entry_sample (seq 0 nSamples))
  = sumZ (map (entry_cycles ccount) (seq 0 nSamples)).
Proof.
  rewrite (map_ext_in entry_sample (entry_cycles ccount))
    by (intros i [_ Hi]%in_seq; by apply entry_sample_exact).
  rewrite ux_accumulate_0. apply to_UBaseType_small.
  destruct nSamples as [|n] eqn:Hn.
  - simpl. pose proof (uxModulus_pos cfg). lia.
  - pose proof (entry_cycles_sum n 0 ltac:(lia)) as Hs.
    destruct Hnw as [Hmono Hrange].
    pose proof (Hrange (4 * (0 + n) + 1)%nat ltac:(lia)).
    pose proof (Hrange (4 * 0)%nat ltac:(lia)). lia.
Qed.

Lemma exit_accumulated :
  ux_accumulate cfg 0 (map exit_sample (seq 0 nSamples))
  = sumZ (map (exit_cycles ccount) (seq 0 nSamples)).
Proof.
  rewrite (map_ext_in exit_sample (exit_cycles ccount))
    by (intros i [_ Hi]%in_seq; by apply exit_sample_exact).
  rewrite ux_accumulate_0. apply to_UBaseType_small.
  destruct nSamples as [|n] eqn:Hn.
  - simpl. pose proof (uxModulus_pos cfg). lia.
  - pose proof (exit_cycles_sum n 0 ltac:(lia)) as Hs.
    destruct Hnw as [Hmono Hrange].
    pose proof (Hrange (4 * (0 + n) + 3)%nat ltac:(lia)).
    pose proof (Hrange (4 * 0 + 2)%nat ltac:(lia)). lia.
Qed.

End NoWrap.

End Loop.

End CritSpeedProofs.

(** ** The queue speed test *)

Module QueueSpeedProofs.
Import Kernel QueueSpeed.

Section Loops.
Context (cfg : port_config) (ccount : nat -> Z).
Local Abbreviation nSamples := (portTEST_NUM_SAMPLES cfg).

Lemma queue_events_emit e st st' :
  xEvents st' = e :: xEvents st ->
  queue_events st' = queue_events st ++ (if is_queue_event e then [e] else []).
Proof.
  intros H. unfold queue_events, trace. rewrite H, reverse_cons. apply filter_snoc.
Qed.

(** A send into a queue with room. *)
Lemma send_body_spec i st q :
  xQueueHandle st = Some q ->
  (length (pcItems q) < uxLength q)%nat ->
  exists st',
    send_body cfg ccount i st = Ok st'
    /\ xQueueHandle st'
       = Some {| uxLength := uxLength q; pcItems := pcItems q ++ [Z.of_nat i] |}
    /\ queue_events st' = queue_events st ++ [EvQueueSend (Z.of_nat i) true].
Proof.
  intros Hq Hroom. unfold send_body, get_time, queue_send. simpl. rewrite Hq.
  unfold xQueueSend, uxQueueMessagesWaiting.
  rewrite (proj2 (Nat.ltb_lt _ _) Hroom). simpl.
  eexists. split; [reflexivity|]. split; [done|].
  unfold queue_events, trace. simpl. rewrite !reverse_cons, !filter_snoc. simpl.
  by rewrite !app_nil_r.
Qed.

Lemma send_loop_spec n i st q :
  xQueueHandle st = Some q ->
  (length (pcItems q) + n <= uxLength q)%nat ->
  exists st',
    for_loop (send_body cfg ccount) i n st = Ok st'
    /\ xQueueHandle st'
       = Some {| uxLength := uxLength q;
                 pcItems := pcItems q ++ map Z.of_nat (seq i n) |}
    /\ queue_events st'
       = queue_events st ++ map (fun j => EvQueueSend (Z.of_nat j) true) (seq i n).
Proof.
  revert i st q. induction n as [|n IH]; intros i st q Hq Hroom.
  - exists st. simpl. rewrite !app_nil_r. by destruct q.
  - destruct (send_body_spec i st q Hq ltac:(lia)) as (st1 & Hb & Hq1 & He1).
    destruct (IH (S i) st1 _ Hq1) as (st' & Hl & Hq' & He').
    { simpl. rewrite length_app. simpl. lia. }
    exists st'. cbn [for_loop]. rewrite Hb. simpl. split; [done|].
    rewrite Hq', He', He1. simpl. by rewrite <- !app_assoc.
Qed.

(** A receive from a queue that is not empty. *)
Lemma recv_body_spec i st q v rest :
  xQueueHandle st = Some q -> pcItems q = v :: rest ->
  exists st',
    recv_body cfg ccount i st = Ok st'
    /\ xQueueHandle st' = Some {| uxLength := uxLength q; pcItems := rest |}
    /\ queue_events st' = queue_events st ++ [EvQueueReceive (Some v)].
Proof.
  intros Hq Hitems. unfold recv_body, get_time, queue_receive. simpl. rewrite Hq.
  unfold xQueueReceive. rewrite Hitems. simpl.
  eexists. split; [reflexivity|]. split; [done|].
  unfold queue_events, trace. simpl. rewrite !reverse_cons, !filter_snoc. simpl.
  by rewrite !app_nil_r.
Qed.

Lemma recv_loop_spec n i st q :
  xQueueHandle st = Some q ->
  (n <= length (pcItems q))%nat ->
  exists st',
    for_loop (recv_body cfg ccount) i n st = Ok st'
    /\ xQueueHandle st'
       = Some {| uxLength := uxLength q; pcItems := drop n (pcItems q) |}
    /\ queue_events st'
       = queue_events st
         ++ map (fun v => EvQueueReceive (Some v)) (take n (pcItems q)).
Proof.
  revert i st q. induction n as [|n IH]; intros i st q Hq Hlen.
  - exists st. simpl. rewrite !app_nil_r. by destruct q.
  - destruct (pcItems q) as [|v rest] eqn:Hitems; [simpl in Hlen; lia|].
    destruct (recv_body_spec i st q v rest Hq Hitems) as (st1 & Hb & Hq1 & He1).
    destruct (IH (S i) st1 _ Hq1) as (st' & Hl & Hq' & He').
    { simpl in *. lia. }
    exists st'. cbn [for_loop]. rewrite Hb. simpl. split; [done|].
    rewrite Hq', He', He1. simpl. by rewrite <- !app_assoc.
Qed.

(** The whole test on the queue of [setup_idf]. *)
Lemma queue_speed_spec :
  exists st,
    Test_QueueSpeedNonBlocking cfg ccount (setup_idf cfg) = Ok st
    /\ queue_events st
       = map (fun i => EvQueueSend (Z.of_nat i) true) (seq 0 nSamples)
         ++ map (fun i => EvQueueReceive (Some (Z.of_nat i))) (seq 0 nSamples)
    /\ xQueueHandle st = Some {| uxLength := nSamples; pcItems := [] |}.
Proof.
  unfold Test_QueueSpeedNonBlocking.
  edestruct (send_loop_spec nSamples 0) as (st1 & Hl1 & Hq1 & He1);
    [ | | rewrite Hl1 ]; [reflexivity|simpl; lia|].
  simpl in Hq1. cbn [bind].
  edestruct (recv_loop_spec nSamples 0 st1) as (st2 & Hl2 & Hq2 & He2);
    [exact Hq1| |rewrite Hl2]; [simpl; by rewrite length_map, length_seq|].
  simpl in Hq2, He2. cbn [bind]. eexists. split; [reflexivity|].
  split.
  - erewrite queue_events_emit by reflexivity.
    erewrite queue_events_emit by reflexivity. simpl.
    rewrite !app_nil_r, He2, He1.
    rewrite firstn_all2 by (by rewrite length_map, length_seq).
    by rewrite map_map.
  - simpl. rewrite Hq2. f_equal. f_equal.
    apply drop_ge. by rewrite length_map, length_seq.
Qed.

End Loops.

End QueueSpeedProofs.
(** * Properties of the three tests together *)

Section Averages.
Import Kernel.
Context (cfg : port_config).
Local Abbreviation nCores := (configNUMBER_OF_CORES cfg).
Local Abbreviation nSamples := (portTEST_NUM_SAMPLES cfg).

(** The lines [Test_CriticalSectionSpeed] prints. *)
Lemma crit_printed_lines ccount :
  let st := CritSpeed.Test_CriticalSectionSpeed cfg ccount in
  CritSpeed.printed_lines (CritSpeed.trace st)
  = [(CritSpeed.entry_format,
      ux_div (CritSpeed.uxEntryElapsedCumulative st) nSamples);
     (CritSpeed.exit_format,
      ux_div (CritSpeed.uxExitElapsedCumulative st) nSamples)].
Proof.
  intros st. destruct (CritSpeedProofs.crit_speed_spec cfg ccount) as (Htr & He & Hx & _).
  fold st in Htr, He, Hx. rewrite Htr, He, Hx.
  unfold CritSpeed.printed_lines. rewrite omap_app.
  fold (CritSpeed.printed_lines
          (flat_map (CritSpeed.sample_events cfg ccount) (seq 0 nSamples))).
  by rewrite CritSpeedProofs.printed_lines_samples.
Qed.

(** An average printed by [Test_QueueContention] is the quotient of the
    accumulator of its core. *)
Lemma contention_report xCore sched c average :
  (xCore < nCores)%nat ->
  let s := QueueContention.exec cfg sched (QueueContention.setup_idf cfg xCore) in
  In (c, average) (QueueContention.reports s) ->
  (c < nCores)%nat
  /\ QueueContention.uxElapsedCumulative s !! c
     = Some (ux_accumulate cfg 0
               (QueueContention.samples c (QueueContention.trace s)))
  /\ average
     = ux_div (ux_accumulate cfg 0
                 (QueueContention.samples c (QueueContention.trace s))) nSamples.
Proof.
  intros Hme s Hin.
  assert (Hinv : QueueContention.data_inv cfg s).
  { by apply QueueContentionProofs.data_inv_exec,
             QueueContentionProofs.data_inv_setup. }
  pose proof (QueueContention.di_sync _ _ Hinv) as Hsync.
  rewrite (QueueContentionProofs.reports_samples cfg s Hinv) in Hin.
  apply in_map_iff in Hin as (j & [= <- <-] & [_ Hj]%in_seq).
  assert (Hc : (j < nCores)%nat).
  { pose proof (QueueContention.si_main _ _ Hsync) as Hwf.
    destruct (QueueContention.xMainPC s); simpl in *; lia. }
  split; [exact Hc|]. split; [|done].
  by apply QueueContentionProofs.accumulator_samples.
Qed.

End Averages.

Lemma sumZ_nonneg (l : list Z) : (forall x, In x l -> 0 <= x) -> 0 <= sumZ l.
Proof.
  induction l as [|x l IH]; intros H; simpl; [lia|].
  pose proof (H x (or_introl eq_refl)).
  pose proof (IH (fun y Hy => H y (or_intror Hy))). lia.
Qed.

(** C5. Every average [Test_QueueContention] prints for a core is the
    accumulator of that core divided by [portTEST_NUM_SAMPLES] with the
    division of C on unsigned integers: the greatest integer whose product
    with the divisor is not above the accumulator, the remainder dropped.
    When the test has returned it has printed one such average for every
    core, in the order of the cores, and every run can be continued until
    the test returns.  The same holds for the two averages
    [Test_CriticalSectionSpeed] prints. *)
Theorem average_is_integer_quotient (cfg : port_config) (xCore : nat)
    (sched : list (QueueContention.task_id * Z)) (ccount : nat -> Z) :
  (0 < portTEST_NUM_SAMPLES cfg)%nat ->
  (xCore < configNUMBER_OF_CORES cfg)%nat ->
  let n := Z.of_nat (portTEST_NUM_SAMPLES cfg) in
  let s := QueueContention.exec cfg sched (QueueContention.setup_idf cfg xCore) in
  let st := CritSpeed.Test_CriticalSectionSpeed cfg ccount in
  (forall c average, In (c, average) (QueueContention.reports s) ->
     exists a, QueueContention.uxElapsedCumulative s !! c = Some a
       /\ average = a / n
       /\ n * average <= a < n * average + n)
  /\ (QueueContention.xMainPC s = QueueContention.MDone ->
      length (QueueContention.reports s) = configNUMBER_OF_CORES cfg
      /\ forall c, (c < configNUMBER_OF_CORES cfg)%nat ->
           exists a, QueueContention.uxElapsedCumulative s !! c = Some a
             /\ QueueContention.reports s !! c = Some (c, a / n)
             /\ n * (a / n) <= a < n * (a / n) + n)
  /\ (exists sched',
        QueueContention.xMainPC
          (QueueContention.exec cfg (sched ++ sched')
             (QueueContention.setup_idf cfg xCore)) = QueueContention.MDone)
  /\ exists uxEntry uxExit,
       CritSpeed.printed_lines (CritSpeed.trace st)
       = [(CritSpeed.entry_format, uxEntry); (CritSpeed.exit_format, uxExit)]
       /\ uxEntry = CritSpeed.uxEntryElapsedCumulative st / n
       /\ n * uxEntry <= CritSpeed.uxEntryElapsedCumulative st < n * uxEntry + n
       /\ uxExit = CritSpeed.uxExitElapsedCumulative st / n
       /\ n * uxExit <= CritSpeed.uxExitElapsedCumulative st < n * uxExit + n.
Proof.
  intros Hn Hme n s st. assert (Hpos : 0 < n) by (subst n; lia).
  assert (Hinv : QueueContention.data_inv cfg s).
  { by apply QueueContentionProofs.data_inv_exec,
             QueueContentionProofs.data_inv_setup. }
  split; [|split; [|split]].
  - intros c average Hin.
    destruct (contention_report cfg xCore sched c average Hme Hin) as (_ & Ha & ->).
    eexists. split; [exact Ha|]. split; [done|]. by apply quotient_floor.
  - intros Hdone.
    pose proof (QueueContentionProofs.reports_samples cfg s Hinv) as Hr.
    rewrite Hdone in Hr.
    change (QueueContention.printed cfg QueueContention.MDone)
      with (configNUMBER_OF_CORES cfg) in Hr.
    split; [by rewrite Hr, length_map, length_seq|].
    intros c Hc. eexists.
    split; [by apply QueueContentionProofs.accumulator_samples|].
    split; [|by apply quotient_floor].
    rewrite Hr. change (map ?f ?l) with (f <$> l).
    by rewrite list_lookup_fmap, lookup_seq_lt.
  - by apply QueueContentionProofs.can_complete.
  - eexists _, _. split; [apply crit_printed_lines|].
    unfold ux_div. fold n. repeat split; by apply quotient_floor.
Qed.

Lemma average_is_integer_quotient_witness :
  (0 < portTEST_NUM_SAMPLES small_config)%nat
  /\ (0 < configNUMBER_OF_CORES small_config)%nat
  /\ let s := QueueContention.exec small_config
                (QueueContention.round_robin 2 4 0
                 ++ QueueContention.round_robin 2 40 5)
                (QueueContention.setup_idf small_config 0) in
     let st := CritSpeed.Test_CriticalSectionSpeed small_config
                 (fun i => 2 ^ Z.of_nat i) in
     QueueContention.xMainPC s = QueueContention.MDone
     /\ QueueContention.uxElapsedCumulative s = [10; 11]
     /\ QueueContention.reports s = [(0%nat, 5); (1%nat, 5)]
     /\ (exists a, QueueContention.uxElapsedCumulative s !! 1%nat = Some a
           /\ 5 = a / 2 /\ 2 * 5 <= a < 2 * 5 + 2)
     /\ (exists a, QueueContention.uxElapsedCumulative s !! 1%nat = Some a
           /\ QueueContention.reports s !! 1%nat = Some (1%nat, a / 2)
           /\ 2 * (a / 2) <= a < 2 * (a / 2) + 2)
     /\ CritSpeed.uxEntryElapsedCumulative st = 17
     /\ CritSpeed.uxExitElapsedCumulative st = 68
     /\ CritSpeed.printed_lines (CritSpeed.trace st)
        = [(CritSpeed.entry_format, 8); (CritSpeed.exit_format, 34)]
     /\ exists uxEntry uxExit,
          CritSpeed.printed_lines (CritSpeed.trace st)
          = [(CritSpeed.entry_format, uxEntry); (CritSpeed.exit_format, uxExit)]
          /\ uxEntry = CritSpeed.uxEntryElapsedCumulative st / 2
          /\ 2 * uxEntry <= CritSpeed.uxEntryElapsedCumulative st < 2 * uxEntry + 2
          /\ uxExit = CritSpeed.uxExitElapsedCumulative st / 2
          /\ 2 * uxExit <= CritSpeed.uxExitElapsedCumulative st < 2 * uxExit + 2.
Proof.
  assert (H1 : (0 < portTEST_NUM_SAMPLES small_config)%nat) by (simpl; lia).
  assert (H2 : (0 < configNUMBER_OF_CORES small_config)%nat) by (simpl; lia).
  split; [exact H1|]. split; [exact H2|].
  pose proof (average_is_integer_quotient small_config 0
                (QueueContention.round_robin 2 4 0
                 ++ QueueContention.round_robin 2 40 5)
                (fun i => 2 ^ Z.of_nat i) H1 H2) as H.
  cbv zeta in H. destruct H as (Hin & Hdone & _ & Hcrit).
  intros s st.
  assert (Hd : QueueContention.xMainPC s = QueueContention.MDone)
    by (vm_compute; reflexivity).
  split; [exact Hd|].
  split; [vm_compute; reflexivity|].
  split; [vm_compute; reflexivity|].
  split.
  { apply (Hin 1%nat 5). vm_compute. right. left. reflexivity. }
  split.
  { apply (proj2 (Hdone Hd) 1%nat). simpl. lia. }
  split; [vm_compute; reflexivity|].
  split; [vm_compute; reflexivity|].
  split; [vm_compute; reflexivity|].
  exact Hcrit.
Defined.

(** C8. [Test_CriticalSectionSpeed] with 128 samples and a cycle counter
    that does not wrap: the test goes 128 times through "read the clock,
    enter, read the clock, read the clock, exit, read the clock" and then
    prints two lines, nothing else: the average for entering and the
    average for exiting a critical section; each is the sum of the cycles
    of the 128 calls, every call alone between its two readings, divided by
    128 as integers. *)
Theorem crit_speed_reports_two_means (ccount : nat -> Z) :
  CritSpeed.no_wrap idf_config ccount ->
  let st := CritSpeed.Test_CriticalSectionSpeed idf_config ccount in
  let t := fun i => portTEST_GET_TIME idf_config (ccount i) in
  portTEST_NUM_SAMPLES idf_config = 128%nat
  /\ CritSpeed.trace st
     = flat_map (fun i => [CritSpeed.EvGetTime (t (4 * i)%nat);
                           CritSpeed.EvEnterCritical;
                           CritSpeed.EvGetTime (t (4 * i + 1)%nat);
                           CritSpeed.EvGetTime (t (4 * i + 2)%nat);
                           CritSpeed.EvExitCritical;
                           CritSpeed.EvGetTime (t (4 * i + 3)%nat)]) (seq 0 128)
       ++ [CritSpeed.EvPrintf CritSpeed.entry_format
             (sumZ (map (fun i => t (4 * i + 1)%nat - t (4 * i)%nat) (seq 0 128)) / 128);
           CritSpeed.EvPrintf CritSpeed.exit_format
             (sumZ (map (fun i => t (4 * i + 3)%nat - t (4 * i + 2)%nat) (seq 0 128)) / 128)]
  /\ CritSpeed.printed_lines (CritSpeed.trace st)
     = [(CritSpeed.entry_format,
         sumZ (map (fun i => t (4 * i + 1)%nat - t (4 * i)%nat) (seq 0 128)) / 128);
        (CritSpeed.exit_format,
         sumZ (map (fun i => t (4 * i + 3)%nat - t (4 * i + 2)%nat) (seq 0 128)) / 128)]
  /\ length (map (fun i => t (4 * i + 1)%nat - t (4 * i)%nat) (seq 0 128)) = 128%nat
  /\ length (map (fun i => t (4 * i + 3)%nat - t (4 * i + 2)%nat) (seq 0 128)) = 128%nat.
Proof.
  intros Hnw st t. split; [reflexivity|].
  assert (Ht : forall i, (i < 4 * 128)%nat -> t i = ccount i).
  { intros i Hi. apply to_UBaseType_small. apply (proj2 Hnw).
    change (portTEST_NUM_SAMPLES idf_config) with 128%nat. exact Hi. }
  assert (He : map (fun i => t (4 * i + 1)%nat - t (4 * i)%nat) (seq 0 128)
               = map (CritSpeed.entry_cycles ccount) (seq 0 128)).
  { apply map_ext_in. intros i [_ Hi]%in_seq. unfold CritSpeed.entry_cycles.
    rewrite !Ht by lia. reflexivity. }
  assert (Hx : map (fun i => t (4 * i + 3)%nat - t (4 * i + 2)%nat) (seq 0 128)
               = map (CritSpeed.exit_cycles ccount) (seq 0 128)).
  { apply map_ext_in. intros i [_ Hi]%in_seq. unfold CritSpeed.exit_cycles.
    rewrite !Ht by lia. reflexivity. }
  rewrite He, Hx. clear He Hx Ht.
  change (fun i : nat =>
            [CritSpeed.EvGetTime (t (4 * i)%nat); CritSpeed.EvEnterCritical;
             CritSpeed.EvGetTime (t (4 * i + 1)%nat);
             CritSpeed.EvGetTime (t (4 * i + 2)%nat); CritSpeed.EvExitCritical;
             CritSpeed.EvGetTime (t (4 * i + 3)%nat)])
    with (CritSpeed.sample_events idf_config ccount).
  destruct (CritSpeedProofs.crit_speed_spec idf_config ccount) as (Htr & _).
  fold st in Htr.
  rewrite (CritSpeedProofs.entry_accumulated idf_config ccount Hnw) in Htr.
  rewrite (CritSpeedProofs.exit_accumulated idf_config ccount Hnw) in Htr.
  change (portTEST_NUM_SAMPLES idf_config) with 128%nat in Htr.
  change (ux_div ?a 128) with (a / 128) in Htr.
  split; [exact Htr|]. split.
  - rewrite Htr. unfold CritSpeed.printed_lines at 1. rewrite omap_app.
    fold (CritSpeed.printed_lines
            (flat_map (CritSpeed.sample_events idf_config ccount) (seq 0 128))).
    rewrite CritSpeedProofs.printed_lines_samples. reflexivity.
  - rewrite !length_map, length_seq. split; reflexivity.
Qed.

Lemma crit_speed_reports_two_means_witness :
  CritSpeed.no_wrap idf_config Z.of_nat
  /\ CritSpeed.printed_lines
       (CritSpeed.trace (CritSpeed.Test_CriticalSectionSpeed idf_config Z.of_nat))
     = [(CritSpeed.entry_format, 1); (CritSpeed.exit_format, 1)].
Proof.
  assert (Hnw : CritSpeed.no_wrap idf_config Z.of_nat).
  { split.
    - intros i j Hij _. lia.
    - intros i Hi. unfold uxModulus. simpl in *. lia. }
  split; [exact Hnw|].
  destruct (crit_speed_reports_two_means Z.of_nat Hnw) as (_ & _ & Hp & _).
  rewrite Hp. vm_compute. reflexivity.
Defined.

(** C9. Samples and accumulators are [UBaseType_t] values of [w] bits.  In
    [Test_QueueContention] a Sample is the difference of the two readings
    of its window modulo [2^w], the accumulator of a core holds the sum of
    the Samples of the core modulo [2^w], and the average printed for a
    core is the quotient of that residue; it is the quotient of the sum
    itself exactly when the sum is below [2^w].  When the test has returned
    every core has its [portTEST_NUM_SAMPLES] Samples, each between its two
    readings, and its average printed, and every run can be continued until
    the test returns.  The same holds for the two accumulators and the two
    averages of [Test_CriticalSectionSpeed].  While the cycle counters do
    not wrap, the sums stay below [2^w] in both tests: the accumulators
    hold the sums themselves and the averages are their quotients. *)
Theorem accumulators_wrap_modulo (cfg : port_config) (xCore : nat)
    (sched : list (QueueContention.task_id * Z)) (ccount : nat -> Z) :
  (0 < portTEST_NUM_SAMPLES cfg)%nat ->
  Z.of_nat (portTEST_NUM_SAMPLES cfg) <= 2 ^ Z.pos (portUBASE_BITS cfg) ->
  (xCore < configNUMBER_OF_CORES cfg)%nat ->
  let m := 2 ^ Z.pos (portUBASE_BITS cfg) in
  let n := Z.of_nat (portTEST_NUM_SAMPLES cfg) in
  let s := QueueContention.exec cfg sched (QueueContention.setup_idf cfg xCore) in
  let total := fun c => sumZ (QueueContention.samples c (QueueContention.trace s)) in
  let st := CritSpeed.Test_CriticalSectionSpeed cfg ccount in
  let t := fun i => ccount i mod m in
  let entry := sumZ (map (fun i => (t (4 * i + 1)%nat - t (4 * i)%nat) mod m)
                       (seq 0 (portTEST_NUM_SAMPLES cfg))) in
  let exit_ := sumZ (map (fun i => (t (4 * i + 3)%nat - t (4 * i + 2)%nat) mod m)
                       (seq 0 (portTEST_NUM_SAMPLES cfg))) in
  (forall pre c r uxTime uxSample post,
     QueueContention.trace s
       = pre ++ QueueContention.EvElapsed c r uxTime uxSample :: post ->
     exists pre' uxStart,
       List.filter (QueueContention.is_core_event c) pre
         = pre' ++ QueueContention.EvGetTime c r uxStart
                :: QueueContention.sends_log c r (portTEST_NUM_ITEMS cfg)
       /\ uxSample = (uxTime - uxStart) mod m)
  /\ (forall c, (c < configNUMBER_OF_CORES cfg)%nat ->
        QueueContention.uxElapsedCumulative s !! c = Some (total c mod m))
  /\ (forall c average, In (c, average) (QueueContention.reports s) ->
        average = (total c mod m) / n
        /\ (average = total c / n <-> total c < m))
  /\ CritSpeed.uxEntryElapsedCumulative st = entry mod m
  /\ CritSpeed.uxExitElapsedCumulative st = exit_ mod m
  /\ CritSpeed.printed_lines (CritSpeed.trace st)
     = [(CritSpeed.entry_format, (entry mod m) / n);
        (CritSpeed.exit_format, (exit_ mod m) / n)]
  /\ ((entry mod m) / n = entry / n <-> entry < m)
  /\ ((exit_ mod m) / n = exit_ / n <-> exit_ < m)
  /\ (QueueContention.xMainPC s = QueueContention.MDone ->
      QueueContention.reports s
      = map (fun c => (c, (total c mod m) / n)) (seq 0 (configNUMBER_OF_CORES cfg))
      /\ forall c, (c < configNUMBER_OF_CORES cfg)%nat ->
           exists ws : list (Z * Z),
             length ws = portTEST_NUM_SAMPLES cfg
             /\ List.filter (QueueContention.is_core_event c) (QueueContention.trace s)
                = concat (imap (fun r w =>
                    [QueueContention.EvNotifyTake c r;
                     QueueContention.EvGetTime c r (fst w)]
                    ++ QueueContention.sends_log c r (portTEST_NUM_ITEMS cfg)
                    ++ [QueueContention.EvElapsed c r (snd w) ((snd w - fst w) mod m);
                        QueueContention.EvQueueReset c r;
                        QueueContention.EvSemGive c r]) ws)
             /\ QueueContention.samples c (QueueContention.trace s)
                = map (fun w => (snd w - fst w) mod m) ws
             /\ QueueContention.uxElapsedCumulative s !! c
                = Some (sumZ (map (fun w => (snd w - fst w) mod m) ws) mod m))
  /\ (exists sched',
        QueueContention.xMainPC
          (QueueContention.exec cfg (sched ++ sched')
             (QueueContention.setup_idf cfg xCore)) = QueueContention.MDone)
  /\ (QueueContention.no_wrap cfg sched = true ->
      forall c, (c < configNUMBER_OF_CORES cfg)%nat ->
        total c < m
        /\ QueueContention.uxElapsedCumulative s !! c = Some (total c)
        /\ forall average, In (c, average) (QueueContention.reports s) ->
             average = total c / n)
  /\ (CritSpeed.no_wrap cfg ccount ->
      entry < m /\ exit_ < m
      /\ entry = sumZ (map (fun i => ccount (4 * i + 1)%nat - ccount (4 * i)%nat)
                         (seq 0 (portTEST_NUM_SAMPLES cfg)))
      /\ exit_ = sumZ (map (fun i => ccount (4 * i + 3)%nat - ccount (4 * i + 2)%nat)
                         (seq 0 (portTEST_NUM_SAMPLES cfg)))
      /\ CritSpeed.uxEntryElapsedCumulative st = entry
      /\ CritSpeed.uxExitElapsedCumulative st = exit_
      /\ CritSpeed.printed_lines (CritSpeed.trace st)
         = [(CritSpeed.entry_format, entry / n); (CritSpeed.exit_format, exit_ / n)]).
Proof.
  intros Hn Hm Hme m n s total st t entry exit_.
  assert (Hinv : QueueContention.data_inv cfg s).
  { by apply QueueContentionProofs.data_inv_exec,
             QueueContentionProofs.data_inv_setup. }
  assert (Hnm : 0 < n <= m) by (subst n m; lia).
  assert (Hmod : forall l, (forall x, In x l -> exists y, x = y mod m) -> 0 <= sumZ l).
  { intros l Hl. apply sumZ_nonneg. intros x [y ->]%Hl.
    apply Z.mod_pos_bound. lia. }
  assert (Hentry : 0 <= entry).
  { apply Hmod. intros x (i & <- & _)%in_map_iff. by eexists. }
  assert (Hexit : 0 <= exit_).
  { apply Hmod. intros x (i & <- & _)%in_map_iff. by eexists. }
  pose proof (CritSpeedProofs.crit_speed_spec cfg ccount) as (_ & Hen & Hex & _).
  fold st in Hen, Hex. rewrite ux_accumulate_0 in Hen, Hex.
  change (CritSpeed.uxEntryElapsedCumulative st = entry mod m) in Hen.
  change (CritSpeed.uxExitElapsedCumulative st = exit_ mod m) in Hex.
  assert (Hlines : CritSpeed.printed_lines (CritSpeed.trace st)
                   = [(CritSpeed.entry_format, (entry mod m) / n);
                      (CritSpeed.exit_format, (exit_ mod m) / n)]).
  { etrans; [apply (crit_printed_lines cfg ccount)|]. fold st. by rewrite Hen, Hex. }
  assert (Hacc : forall c, (c < configNUMBER_OF_CORES cfg)%nat ->
            QueueContention.uxElapsedCumulative s !! c = Some (total c mod m)).
  { intros c Hc.
    rewrite (QueueContentionProofs.accumulator_samples cfg s c Hinv Hc).
    by rewrite ux_accumulate_0. }
  assert (Hrep : forall c average, In (c, average) (QueueContention.reports s) ->
            average = (total c mod m) / n).
  { intros c average Hin.
    destruct (contention_report cfg xCore sched c average Hme Hin) as (_ & _ & ->).
    by rewrite ux_accumulate_0. }
  split; [|split; [|split; [|split; [|split; [|split; [|split; [|split;
    [|split; [|split; [|split]]]]]]]]]].
  - intros pre c r uxTime uxSample post Heq.
    apply (QueueContentionProofs.history_ok_run cfg xCore sched Hme _ _ _ Heq).
  - exact Hacc.
  - intros c average Hin. split; [by apply Hrep|].
    rewrite (Hrep c average Hin).
    destruct (contention_report cfg xCore sched c average Hme Hin) as (Hc & _).
    apply wrapped_quotient; [done|].
    apply (QueueContentionProofs.trace_samples_nonneg cfg s c Hinv Hc).
  - exact Hen.
  - exact Hex.
  - exact Hlines.
  - by apply wrapped_quotient.
  - by apply wrapped_quotient.
  - intros Hdone. split.
    + rewrite (QueueContentionProofs.reports_samples cfg s Hinv), Hdone.
      apply map_ext. intros c. by rewrite ux_accumulate_0.
    + intros c Hc.
      destruct (QueueContentionProofs.producer_complete cfg s c Hinv Hdone Hc)
        as (ws & Hl & Htr & Hs).
      exists ws. split; [exact Hl|]. split.
      { fold (QueueContention.core_trace c s). rewrite Htr.
        unfold QueueContention.producer_rounds_log. f_equal.
        apply imap_ext. intros r w _.
        apply QueueContentionProofs.producer_round_log_flat. }
      split; [exact Hs|].
      rewrite (Hacc c Hc). unfold total. by rewrite Hs.
  - by apply QueueContentionProofs.can_complete.
  - intros Hnw c Hc.
    pose proof (QueueContentionProofs.samples_fit cfg xCore sched c Hme Hnw Hc) as Hfit.
    fold s in Hfit. fold (total c) in Hfit.
    change (uxModulus cfg) with m in Hfit.
    assert (Hsmall : total c mod m = total c) by (by apply Z.mod_small).
    split; [lia|]. split; [by rewrite (Hacc c Hc), Hsmall|].
    intros average Hin. by rewrite (Hrep c average Hin), Hsmall.
  - intros Hnw.
    pose proof (CritSpeedProofs.entry_accumulated cfg ccount Hnw) as Ha.
    pose proof (CritSpeedProofs.exit_accumulated cfg ccount Hnw) as Hb.
    rewrite ux_accumulate_0 in Ha, Hb.
    assert (He : entry = sumZ (map (CritSpeed.entry_cycles ccount)
                                 (seq 0 (portTEST_NUM_SAMPLES cfg)))).
    { change entry with (sumZ (map (CritSpeed.entry_sample cfg ccount)
                                 (seq 0 (portTEST_NUM_SAMPLES cfg)))).
      f_equal. apply map_ext_in. intros i [_ Hi]%in_seq.
      by apply CritSpeedProofs.entry_sample_exact. }
    assert (Hx : exit_ = sumZ (map (CritSpeed.exit_cycles ccount)
                                 (seq 0 (portTEST_NUM_SAMPLES cfg)))).
    { change exit_ with (sumZ (map (CritSpeed.exit_sample cfg ccount)
                                 (seq 0 (portTEST_NUM_SAMPLES cfg)))).
      f_equal. apply map_ext_in. intros i [_ Hi]%in_seq.
      by apply CritSpeedProofs.exit_sample_exact. }
    change (to_UBaseType cfg ?x) with (x mod m) in Ha, Hb.
    change (sumZ (map (CritSpeed.entry_sample cfg ccount)
                    (seq 0 (portTEST_NUM_SAMPLES cfg)))) with entry in Ha.
    change (sumZ (map (CritSpeed.exit_sample cfg ccount)
                    (seq 0 (portTEST_NUM_SAMPLES cfg)))) with exit_ in Hb.
    rewrite <- He in Ha. rewrite <- Hx in Hb.
    pose proof (Z.mod_pos_bound entry m ltac:(lia)).
    pose proof (Z.mod_pos_bound exit_ m ltac:(lia)).
    split; [lia|]. split; [lia|].
    split; [exact He|]. split; [exact Hx|].
    split; [by rewrite Hen|]. split; [by rewrite Hex|].
    by rewrite Hlines, Ha, Hb.
Qed.

Lemma accumulators_wrap_modulo_witness :
  (0 < portTEST_NUM_SAMPLES (narrow_config 3))%nat
  /\ Z.of_nat (portTEST_NUM_SAMPLES (narrow_config 3))
     <= 2 ^ Z.pos (portUBASE_BITS (narrow_config 3))
  /\ (0 < configNUMBER_OF_CORES (narrow_config 3))%nat
  /\ (let cfg := narrow_config 3 in
      let sched := QueueContention.round_robin 2 40 0 in
      let s := QueueContention.exec cfg sched (QueueContention.setup_idf cfg 0) in
      let st := CritSpeed.Test_CriticalSectionSpeed cfg (fun i => 5 * Z.of_nat i) in
      QueueContention.no_wrap cfg sched = false
      /\ QueueContention.xMainPC s = QueueContention.MDone
      /\ QueueContention.samples 1 (QueueContention.trace s) = [5; 5]
      /\ (exists pre' uxStart,
            List.filter (QueueContention.is_core_event 1)
              (take 12 (QueueContention.trace s))
            = pre' ++ QueueContention.EvGetTime 1 0 uxStart
                   :: QueueContention.sends_log 1 0 3
            /\ 5 = (0 - uxStart) mod 8)
      /\ QueueContention.uxElapsedCumulative s !! 1%nat
         = Some (sumZ (QueueContention.samples 1 (QueueContention.trace s)) mod 8)
      /\ QueueContention.uxElapsedCumulative s = [2; 2]
      /\ QueueContention.reports s
         = map (fun c => (c, (sumZ (QueueContention.samples c (QueueContention.trace s))
                              mod 8) / 2)) (seq 0 2)
      /\ QueueContention.reports s = [(0%nat, 1); (1%nat, 1)]
      /\ (1 = (sumZ (QueueContention.samples 1 (QueueContention.trace s)) mod 8) / 2
          /\ (1 = sumZ (QueueContention.samples 1 (QueueContention.trace s)) / 2
              <-> sumZ (QueueContention.samples 1 (QueueContention.trace s)) < 8))
      /\ sumZ (QueueContention.samples 1 (QueueContention.trace s)) / 2 = 5
      /\ CritSpeed.uxEntryElapsedCumulative st = 10 mod 8
      /\ CritSpeed.uxExitElapsedCumulative st = 10 mod 8
      /\ CritSpeed.printed_lines (CritSpeed.trace st)
         = [(CritSpeed.entry_format, 1); (CritSpeed.exit_format, 1)])
  /\ (let cfg := narrow_config 3 in
      let sched := QueueContention.slowed 7 (QueueContention.round_robin 2 40 0) in
      let s := QueueContention.exec cfg sched (QueueContention.setup_idf cfg 0) in
      let st := CritSpeed.Test_CriticalSectionSpeed cfg Z.of_nat in
      QueueContention.no_wrap cfg sched = true
      /\ CritSpeed.no_wrap cfg Z.of_nat
      /\ QueueContention.xMainPC s = QueueContention.MDone
      /\ QueueContention.samples 1 (QueueContention.trace s) = [1; 1]
      /\ (sumZ (QueueContention.samples 1 (QueueContention.trace s)) < 8
          /\ QueueContention.uxElapsedCumulative s !! 1%nat
             = Some (sumZ (QueueContention.samples 1 (QueueContention.trace s)))
          /\ forall average, In (1%nat, average) (QueueContention.reports s) ->
               average = sumZ (QueueContention.samples 1 (QueueContention.trace s)) / 2)
      /\ QueueContention.reports s = [(0%nat, 1); (1%nat, 1)]
      /\ CritSpeed.uxEntryElapsedCumulative st = 2
      /\ CritSpeed.uxExitElapsedCumulative st = 2
      /\ CritSpeed.printed_lines (CritSpeed.trace st)
         = [(CritSpeed.entry_format, 2 / 2); (CritSpeed.exit_format, 2 / 2)]).
Proof.
  assert (H1 : (0 < portTEST_NUM_SAMPLES (narrow_config 3))%nat) by (simpl; lia).
  assert (H2 : Z.of_nat (portTEST_NUM_SAMPLES (narrow_config 3))
               <= 2 ^ Z.pos (portUBASE_BITS (narrow_config 3)))
    by (vm_compute; discriminate).
  assert (H3 : (0 < configNUMBER_OF_CORES (narrow_config 3))%nat) by (simpl; lia).
  split; [exact H1|]. split; [exact H2|]. split; [exact H3|]. split.
  - pose proof (accumulators_wrap_modulo (narrow_config 3) 0
                  (QueueContention.round_robin 2 40 0)
                  (fun i => 5 * Z.of_nat i) H1 H2 H3) as H.
    cbv zeta in H.
    destruct H as (Hwin & Hacc & Hrep & Hen & Hex & Hlines & _ & _ & Hdone & _).
    intros cfg sched s st.
    assert (Hd : QueueContention.xMainPC s = QueueContention.MDone)
      by (vm_compute; reflexivity).
    split; [vm_compute; reflexivity|].
    split; [exact Hd|].
    split; [vm_compute; reflexivity|].
    split.
    { apply (Hwin (take 12 (QueueContention.trace s)) 1%nat 0%nat 0 5
                  (drop 13 (QueueContention.trace s))).
      vm_compute. reflexivity. }
    split; [apply Hacc; simpl; lia|].
    split; [vm_compute; reflexivity|].
    split; [exact (proj1 (Hdone Hd))|].
    split; [vm_compute; reflexivity|].
    split; [apply Hrep; vm_compute; right; left; reflexivity|].
    split; [vm_compute; reflexivity|].
    split; [exact Hen|]. split; [exact Hex|]. exact Hlines.
  - assert (Hnw : CritSpeed.no_wrap (narrow_config 3) Z.of_nat).
    { split.
      - intros i j Hij _. lia.
      - intros i Hi. unfold uxModulus. simpl in *. lia. }
    assert (Hqw : QueueContention.no_wrap (narrow_config 3)
                    (QueueContention.slowed 7 (QueueContention.round_robin 2 40 0))
                  = true) by (vm_compute; reflexivity).
    pose proof (accumulators_wrap_modulo (narrow_config 3) 0
                  (QueueContention.slowed 7 (QueueContention.round_robin 2 40 0))
                  Z.of_nat H1 H2 H3) as H.
    cbv zeta in H.
    destruct H as (_ & _ & _ & _ & _ & _ & _ & _ & _ & _ & Hq & Hc).
    intros cfg sched s st.
    split; [exact Hqw|]. split; [exact Hnw|].
    split; [vm_compute; reflexivity|].
    split; [vm_compute; reflexivity|].
    split; [apply (Hq Hqw 1%nat); simpl; lia|].
    split; [vm_compute; reflexivity|].
    destruct (Hc Hnw) as (_ & _ & _ & _ & He & Hx & Hl).
    split; [exact He|]. split; [exact Hx|]. exact Hl.
Defined.

(** The largest total a run without a wrap can reach on three bits: the
    counters of both cores go from 0 to 7 inside the first window, every
    core has the Samples 7 and 0, and its accumulator holds their sum, 7,
    not a residue of it.  Whatever the schedule, as long as the counters do
    not wrap the Samples of a core add up to less than 8 and the
    accumulator holds their sum. *)
Lemma no_wrap_bounds_the_accumulators :
  let cfg := narrow_config 3 in
  let sched := QueueContention.jump_at 6 7 (QueueContention.round_robin 2 40 0) in
  let s := QueueContention.exec cfg sched (QueueContention.setup_idf cfg 0) in
  QueueContention.no_wrap cfg sched = true
  /\ QueueContention.xMainPC s = QueueContention.MDone
  /\ QueueContention.samples 0 (QueueContention.trace s) = [7; 0]
  /\ QueueContention.samples 1 (QueueContention.trace s) = [7; 0]
  /\ QueueContention.uxElapsedCumulative s = [7; 7]
  /\ QueueContention.reports s = [(0%nat, 7 / 2); (1%nat, 7 / 2)]
  /\ (forall sched' c,
        QueueContention.no_wrap cfg sched' = true -> (c < 2)%nat ->
        let s' := QueueContention.exec cfg sched' (QueueContention.setup_idf cfg 0) in
        sumZ (QueueContention.samples c (QueueContention.trace s')) < 8
        /\ QueueContention.uxElapsedCumulative s' !! c
           = Some (sumZ (QueueContention.samples c (QueueContention.trace s'))))
  /\ (forall ccount,
        CritSpeed.no_wrap cfg ccount ->
        let st := CritSpeed.Test_CriticalSectionSpeed cfg ccount in
        CritSpeed.uxEntryElapsedCumulative st
        = sumZ (map (CritSpeed.entry_cycles ccount) (seq 0 2))
        /\ CritSpeed.uxExitElapsedCumulative st
           = sumZ (map (CritSpeed.exit_cycles ccount) (seq 0 2))).
Proof.
  intros cfg sched s.
  split; [vm_compute; reflexivity|]. split; [vm_compute; reflexivity|].
  split; [vm_compute; reflexivity|]. split; [vm_compute; reflexivity|].
  split; [vm_compute; reflexivity|]. split; [vm_compute; reflexivity|].
  split.
  - intros sched' c Hnw Hc s'.
    assert (Hme : (0 < configNUMBER_OF_CORES cfg)%nat) by (simpl; lia).
    pose proof (QueueContentionProofs.samples_fit cfg 0 sched' c Hme Hnw Hc) as Hfit.
    fold s' in Hfit. change (uxModulus cfg) with 8 in Hfit.
    split; [lia|].
    assert (Hinv : QueueContention.data_inv cfg s').
    { by apply QueueContentionProofs.data_inv_exec,
               QueueContentionProofs.data_inv_setup. }
    rewrite (QueueContentionProofs.accumulator_samples cfg s' c Hinv Hc).
    rewrite ux_accumulate_0. f_equal. by apply to_UBaseType_small.
  - intros ccount Hnw st.
    destruct (CritSpeedProofs.crit_speed_spec cfg ccount) as (_ & Hen & Hex & _).
    fold st in Hen, Hex.
    rewrite (CritSpeedProofs.entry_accumulated cfg ccount Hnw) in Hen.
    rewrite (CritSpeedProofs.exit_accumulated cfg ccount Hnw) in Hex.
    split; [exact Hen|exact Hex].
Qed.

(** C10. [Test_QueueSpeedNonBlocking] on the queue of [setup_idf]: the
    queue is created with room for 128 items; the test runs to its end, no
    assertion failing; its queue operations are 128 sends of the values 0
    to 127, all successful, followed by 128 receives, all successful, which
    yield the values 0 to 127 in the order they were sent; and the queue is
    empty when the test ends. *)
Theorem queue_speed_fifo_round_trip (ccount : nat -> Z) :
  QueueSpeed.xQueueHandle (QueueSpeed.setup_idf idf_config)
  = Some (Kernel.xQueueCreate 128)
  /\ exists st,
       QueueSpeed.Test_QueueSpeedNonBlocking idf_config ccount
         (QueueSpeed.setup_idf idf_config) = QueueSpeed.Ok st
       /\ QueueSpeed.queue_events st
          = map (fun i => QueueSpeed.EvQueueSend (Z.of_nat i) true) (seq 0 128)
            ++ map (fun i => QueueSpeed.EvQueueReceive (Some (Z.of_nat i))) (seq 0 128)
       /\ exists q, QueueSpeed.xQueueHandle st = Some q
            /\ Kernel.uxLength q = 128%nat
            /\ Kernel.uxQueueMessagesWaiting q = 0%nat.
Proof.
  split; [reflexivity|].
  destruct (QueueSpeedProofs.queue_speed_spec idf_config ccount) as (st & Hok & Hev & Hq).
  exists st. split; [exact Hok|]. split; [exact Hev|].
  eexists. split; [exact Hq|]. split; reflexivity.
Qed.
(** ** The queue speed test on any queue *)

Module QueueSpeedRuns.
Import Kernel QueueSpeed.

Local Arguments Nat.mul _ _ : simpl never.

Section Loops.
Context (cfg : port_config) (ccount : nat -> Z).
Local Abbreviation nSamples := (portTEST_NUM_SAMPLES cfg).

(** A send into a queue with room: the whole effect of the body. *)
Lemma send_body_full i st q :
  xQueueHandle st = Some q ->
  (length (pcItems q) < uxLength q)%nat ->
  exists st',
    send_body cfg ccount i st = Ok st'
    /\ xQueueHandle st'
       = Some {| uxLength := uxLength q; pcItems := pcItems q ++ [Z.of_nat i] |}
    /\ uxSendElapsedCumulative st'
       = ux_add cfg (uxSendElapsedCumulative st)
           (ux_sub cfg (portTEST_GET_TIME cfg (ccount (S (uxReadings st))))
              (portTEST_GET_TIME cfg (ccount (uxReadings st))))
    /\ uxRecvElapsedCumulative st' = uxRecvElapsedCumulative st
    /\ uxReadings st' = S (S (uxReadings st))
    /\ trace st'
       = trace st
         ++ [EvGetTime (portTEST_GET_TIME cfg (ccount (uxReadings st)));
             EvQueueSend (Z.of_nat i) true;
             EvGetTime (portTEST_GET_TIME cfg (ccount (S (uxReadings st))))].
Proof.
  intros Hq Hroom. unfold send_body, get_time, queue_send. simpl. rewrite Hq.
  unfold xQueueSend, uxQueueMessagesWaiting.
  rewrite (proj2 (Nat.ltb_lt _ _) Hroom). simpl.
  eexists. split; [reflexivity|]. simpl. repeat split.
  unfold trace. simpl. rewrite !reverse_cons. by rewrite <- !app_assoc.
Qed.

(** A send into a full queue: the assertion fails. *)
Lemma send_body_full_queue i st q :
  xQueueHandle st = Some q ->
  (uxLength q <= length (pcItems q))%nat ->
  exists st',
    send_body cfg ccount i st = Abort send_failure st'
    /\ xQueueHandle st' = Some q
    /\ trace st'
       = trace st
         ++ [EvGetTime (portTEST_GET_TIME cfg (ccount (uxReadings st)));
             EvQueueSend (Z.of_nat i) false].
Proof.
  intros Hq Hfull. unfold send_body, get_time, queue_send. simpl. rewrite Hq.
  unfold xQueueSend, uxQueueMessagesWaiting.
  rewrite (proj2 (Nat.ltb_ge _ _) Hfull). simpl.
  eexists. split; [reflexivity|]. simpl. split; [done|].
  unfold trace. simpl. rewrite !reverse_cons. by rewrite <- !app_assoc.
Qed.

Lemma recv_body_full i st q v rest :
  xQueueHandle st = Some q -> pcItems q = v :: rest ->
  exists st',
    recv_body cfg ccount i st = Ok st'
    /\ xQueueHandle st' = Some {| uxLength := uxLength q; pcItems := rest |}
    /\ uxSendElapsedCumulative st' = uxSendElapsedCumulative st
    /\ uxRecvElapsedCumulative st'
       = ux_add cfg (uxRecvElapsedCumulative st)
           (ux_sub cfg (portTEST_GET_TIME cfg (ccount (S (uxReadings st))))
              (portTEST_GET_TIME cfg (ccount (uxReadings st))))
    /\ uxReadings st' = S (S (uxReadings st))
    /\ trace st'
       = trace st
         ++ [EvGetTime (portTEST_GET_TIME cfg (ccount (uxReadings st)));
             EvQueueReceive (Some v);
             EvGetTime (portTEST_GET_TIME cfg (ccount (S (uxReadings st))))].
Proof.
  intros Hq Hitems. unfold recv_body, get_time, queue_receive. simpl. rewrite Hq.
  unfold xQueueReceive. rewrite Hitems. simpl.
  eexists. split; [reflexivity|]. simpl. repeat split.
  unfold trace. simpl. rewrite !reverse_cons. by rewrite <- !app_assoc.
Qed.

Lemma for_loop_app body i a b st :
  for_loop body i (a + b) st
  = bind (for_loop body i a st) (for_loop body (i + a) b).
Proof.
  revert i st. induction a as [|a IH]; intros i st; simpl.
  - by rewrite Nat.add_0_r.
  - destruct (body i st) as [st1|f st1]; simpl; [|done].
    rewrite IH. by replace (S i + a)%nat with (i + S a)%nat by lia.
Qed.

Lemma send_loop_full r0 n i st q :
  xQueueHandle st = Some q ->
  (length (pcItems q) + n <= uxLength q)%nat ->
  uxReadings st = (r0 + 2 * i)%nat ->
  exists st',
    for_loop (send_body cfg ccount) i n st = Ok st'
    /\ xQueueHandle st'
       = Some {| uxLength := uxLength q;
                 pcItems := pcItems q ++ map Z.of_nat (seq i n) |}
    /\ uxSendElapsedCumulative st'
       = ux_accumulate cfg (uxSendElapsedCumulative st)
           (map (call_sample cfg ccount r0) (seq i n))
    /\ uxRecvElapsedCumulative st' = uxRecvElapsedCumulative st
    /\ uxReadings st' = (r0 + 2 * (i + n))%nat
    /\ trace st' = trace st ++ flat_map (send_events cfg ccount r0) (seq i n).
Proof.
  revert i st q. induction n as [|n IH]; intros i st q Hq Hroom Hr.
  - exists st. simpl. rewrite !app_nil_r, Nat.add_0_r. by destruct q.
  - destruct (send_body_full i st q Hq ltac:(lia))
      as (st1 & Hb & Hq1 & Ha1 & Hr1 & Hn1 & He1).
    destruct (IH (S i) st1 _ Hq1) as (st' & Hl & Hq' & Ha' & Hr' & Hn' & He').
    { simpl. rewrite length_app. simpl. lia. }
    { lia. }
    exists st'. cbn [for_loop]. rewrite Hb. cbn [bind]. split; [done|].
    rewrite Hq', Ha', Hr', Hn', He', He1, Ha1, Hr1, Hr.
    cbn [seq map flat_map pcItems uxLength]. rewrite <- !app_assoc.
    unfold send_events, call_sample, reading.
    replace (r0 + (2 * i + 1))%nat with (S (r0 + 2 * i)) by lia.
    split; [done|]. split; [done|]. split; [done|].
    split; [lia|]. done.
Qed.

Lemma recv_loop_full r0 k0 n i st q :
  xQueueHandle st = Some q ->
  (n <= length (pcItems q))%nat ->
  uxReadings st = (r0 + 2 * (k0 + i))%nat ->
  exists st',
    for_loop (recv_body cfg ccount) i n st = Ok st'
    /\ xQueueHandle st'
       = Some {| uxLength := uxLength q; pcItems := drop n (pcItems q) |}
    /\ uxSendElapsedCumulative st' = uxSendElapsedCumulative st
    /\ uxRecvElapsedCumulative st'
       = ux_accumulate cfg (uxRecvElapsedCumulative st)
           (map (call_sample cfg ccount r0) (seq (k0 + i) n))
    /\ uxReadings st' = (r0 + 2 * (k0 + i + n))%nat
    /\ trace st'
       = trace st
         ++ concat (imap (fun j v => recv_events cfg ccount r0 (k0 + i + j) v)
                      (take n (pcItems q))).
Proof.
  revert i st q. induction n as [|n IH]; intros i st q Hq Hlen Hr.
  - exists st. simpl. rewrite !app_nil_r, Nat.add_0_r. by destruct q.
  - destruct (pcItems q) as [|v rest] eqn:Hitems; [simpl in Hlen; lia|].
    destruct (recv_body_full i st q v rest Hq Hitems)
      as (st1 & Hb & Hq1 & Ha1 & Hr1 & Hn1 & He1).
    destruct (IH (S i) st1 _ Hq1) as (st' & Hl & Hq' & Ha' & Hr' & Hn' & He').
    { simpl in *. lia. }
    { lia. }
    exists st'. cbn [for_loop]. rewrite Hb. cbn [bind]. split; [done|].
    rewrite Hq', Ha', Hr', Hn', He', He1, Ha1, Hr1, Hr.
    cbn [seq map pcItems take drop uxLength]. rewrite imap_cons. cbn [concat].
    rewrite <- !app_assoc.
    unfold recv_events, call_sample, reading.
    replace (k0 + i + 0)%nat with (k0 + i)%nat by lia.
    replace (r0 + (2 * (k0 + i) + 1))%nat with (S (r0 + 2 * (k0 + i))) by lia.
    replace (k0 + S i)%nat with (S (k0 + i)) by lia.
    split; [done|]. split; [done|]. split; [done|].
    split; [lia|]. cbn [app]. do 4 f_equal. f_equal.
    apply imap_ext. intros j x _. simpl.
    by replace (k0 + i + S j)%nat with (S (k0 + i + j)) by lia.
Qed.

Lemma printed_lines_app tr1 tr2 :
  printed_lines (tr1 ++ tr2) = printed_lines tr1 ++ printed_lines tr2.
Proof. apply omap_app. Qed.

Lemma printed_lines_sends r0 l :
  printed_lines (flat_map (send_events cfg ccount r0) l) = [].
Proof.
  apply omap_none. intros e (i & _ & He)%in_flat_map.
  unfold send_events in He. simpl in He.
  repeat (destruct He as [<-|He]; [done|]). done.
Qed.

Lemma printed_lines_recvs r0 k0 l :
  printed_lines
    (concat (imap (fun j v => recv_events cfg ccount r0 (k0 + j) v) l)) = [].
Proof.
  revert k0. induction l as [|v l IH]; intros k0; [done|].
  rewrite imap_cons. cbn [concat]. rewrite printed_lines_app.
  replace (imap ((fun j v => recv_events cfg ccount r0 (k0 + j) v) ∘ S) l)
    with (imap (fun j v => recv_events cfg ccount r0 (S k0 + j) v) l).
  - by rewrite IH.
  - apply imap_ext. intros j x _. simpl.
    by replace (k0 + S j)%nat with (S (k0 + j)) by lia.
Qed.

(** X1. When the queue has room for [portTEST_NUM_SAMPLES] more items, the
    test runs to its end: every send succeeds, every receive succeeds and
    yields the oldest item, those that waited in the queue first, and the
    queue holds as many items after the test as before. *)
Theorem queue_speed_with_room st0 q :
  xQueueHandle st0 = Some q ->
  (uxQueueMessagesWaiting q + nSamples <= uxLength q)%nat ->
  let r0 := uxReadings st0 in
  let sent := map Z.of_nat (seq 0 nSamples) in
  exists st,
    Test_QueueSpeedNonBlocking cfg ccount st0 = Ok st
    /\ trace st
       = trace st0
         ++ flat_map (send_events cfg ccount r0) (seq 0 nSamples)
         ++ concat (imap (fun j v => recv_events cfg ccount r0 (nSamples + j) v)
                      (take nSamples (pcItems q ++ sent)))
         ++ [EvPrintf send_format
               (ux_div (ux_accumulate cfg 0
                          (map (call_sample cfg ccount r0) (seq 0 nSamples)))
                  nSamples);
             EvPrintf recv_format
               (ux_div (ux_accumulate cfg 0
                          (map (call_sample cfg ccount r0) (seq nSamples nSamples)))
                  nSamples)]
    /\ xQueueHandle st
       = Some {| uxLength := uxLength q;
                 pcItems := drop nSamples (pcItems q ++ sent) |}
    /\ length (drop nSamples (pcItems q ++ sent)) = length (pcItems q)
    /\ uxReadings st = (r0 + 4 * nSamples)%nat.
Proof.
  intros Hq Hroom r0 sent. unfold uxQueueMessagesWaiting in Hroom.
  unfold Test_QueueSpeedNonBlocking.
  match goal with |- context [for_loop _ 0 _ ?s] => set (st00 := s) end.
  destruct (send_loop_full r0 nSamples 0 st00 q Hq Hroom ltac:(simpl; lia))
    as (st1 & Hl1 & Hq1 & Ha1 & Hr1 & Hn1 & He1).
  rewrite Hl1. cbn [bind]. simpl in Ha1, Hr1, He1.
  edestruct (recv_loop_full r0 nSamples nSamples 0 st1)
    as (st2 & Hl2 & Hq2 & Ha2 & Hr2 & Hn2 & He2); [exact Hq1| | |rewrite Hl2].
  { simpl. rewrite length_app, length_map, length_seq. lia. }
  { rewrite Hn1. lia. }
  cbn [bind]. eexists. split; [reflexivity|].
  cbn [pcItems uxLength] in Hq2, He2. rewrite Nat.add_0_r in Hr2, Hn2.
  split; [|split; [|split]].
  - unfold trace in *. cbn [emit xEvents]. rewrite !reverse_cons.
    cbn [emit uxSendElapsedCumulative uxRecvElapsedCumulative].
    rewrite He2, Ha2, Ha1, Hr2, Hr1, He1. rewrite <- !app_assoc. cbn [app].
    do 3 f_equal. f_equal. apply imap_ext. intros j x _. simpl.
    by rewrite Nat.add_0_r.
  - exact Hq2.
  - rewrite length_drop, length_app. unfold sent.
    rewrite length_map, length_seq. lia.
  - simpl. rewrite Hn2. lia.
Qed.

(** X2. When the queue has room for fewer than [portTEST_NUM_SAMPLES] items,
    the test is aborted by the assertion of line 81 at the first send that
    finds the queue full, after as many successful sends as there were
    places; no receive is made and no line is printed. *)
Theorem queue_speed_without_room st0 q :
  xQueueHandle st0 = Some q ->
  (uxQueueMessagesWaiting q <= uxLength q)%nat ->
  (uxLength q < uxQueueMessagesWaiting q + nSamples)%nat ->
  let r0 := uxReadings st0 in
  exists st,
    Test_QueueSpeedNonBlocking cfg ccount st0 = Abort send_failure st
    /\ trace st
       = trace st0
         ++ flat_map (send_events cfg ccount r0) (seq 0 (free_places q))
         ++ failed_send_events cfg ccount r0 (free_places q)
    /\ xQueueHandle st
       = Some {| uxLength := uxLength q;
                 pcItems := pcItems q ++ map Z.of_nat (seq 0 (free_places q)) |}
    /\ printed_lines (trace st) = printed_lines (trace st0).
Proof.
  intros Hq Hwf Hroom r0. unfold uxQueueMessagesWaiting in Hwf, Hroom.
  assert (Hfree : free_places q = (uxLength q - length (pcItems q))%nat) by done.
  unfold Test_QueueSpeedNonBlocking.
  match goal with |- context [for_loop _ 0 _ ?s] => set (st00 := s) end.
  assert (Hloop : exists st,
    for_loop (send_body cfg ccount) 0 nSamples st00 = Abort send_failure st
    /\ trace st
       = trace st0
         ++ flat_map (send_events cfg ccount r0) (seq 0 (free_places q))
         ++ failed_send_events cfg ccount r0 (free_places q)
    /\ xQueueHandle st
       = Some {| uxLength := uxLength q;
                 pcItems := pcItems q ++ map Z.of_nat (seq 0 (free_places q)) |}).
  { replace nSamples
      with (free_places q + S (nSamples - free_places q - 1))%nat by lia.
    rewrite for_loop_app.
    assert (Hroom' : (length (pcItems q) + free_places q <= uxLength q)%nat) by lia.
    destruct (send_loop_full r0 (free_places q) 0 st00 q Hq Hroom' ltac:(simpl; lia))
      as (st1 & Hl1 & Hq1 & Ha1 & Hr1 & Hn1 & He1).
    rewrite Hl1. cbn [bind for_loop]. simpl in He1.
    destruct (send_body_full_queue (0 + free_places q) st1 _ Hq1)
      as (st2 & Hb & Hq2 & He2).
    { simpl. rewrite length_app, length_map, length_seq. lia. }
    rewrite Hb. cbn [bind]. exists st2. split; [done|]. split; [|exact Hq2].
    rewrite He2, He1, Hn1. rewrite <- !app_assoc.
    unfold failed_send_events, reading. simpl. reflexivity. }
  destruct Hloop as (st & Hl & Htr & Hq').
  rewrite Hl. cbn [bind]. exists st. split; [done|].
  split; [exact Htr|]. split; [exact Hq'|].
  rewrite Htr, !printed_lines_app, printed_lines_sends. simpl.
  by rewrite app_nil_r.
Qed.

Lemma call_samples_exact r0 n l :
  calls_short cfg ccount r0 n -> (forall k, In k l -> (k < n)%nat) ->
  map (call_sample cfg ccount r0) l = map (call_cycles ccount r0) l.
Proof.
  intros Hs Hl. apply map_ext_in. intros k Hk%Hl.
  unfold call_sample, reading, call_cycles. apply ux_sub_readings.
  apply (Hs k Hk).
Qed.

Lemma call_cycles_accumulated r0 n l :
  calls_short cfg ccount r0 n -> (forall k, In k l -> (k < n)%nat) ->
  sumZ (map (call_cycles ccount r0) l) < uxModulus cfg ->
  ux_accumulate cfg 0 (map (call_sample cfg ccount r0) l)
  = sumZ (map (call_cycles ccount r0) l).
Proof.
  intros Hs Hl Hsum. rewrite (call_samples_exact r0 n l Hs Hl).
  rewrite ux_accumulate_0. apply to_UBaseType_small, sumZ_bounds; [|done].
  intros x (k & <- & Hk%Hl)%in_map_iff. apply (Hs k Hk).
Qed.

(** The test on the queue [setup_idf] has created: it runs to its end
    after four readings for every sample and prints the two averages. *)
Lemma queue_speed_on_new_queue :
  exists st,
    Test_QueueSpeedNonBlocking cfg ccount (setup_idf cfg) = Ok st
    /\ uxReadings st = (4 * nSamples)%nat
    /\ printed_lines (trace st)
       = [(send_format,
           ux_div (ux_accumulate cfg 0
                     (map (call_sample cfg ccount 0) (seq 0 nSamples))) nSamples);
          (recv_format,
           ux_div (ux_accumulate cfg 0
                     (map (call_sample cfg ccount 0) (seq nSamples nSamples)))
             nSamples)].
Proof.
  unfold Test_QueueSpeedNonBlocking.
  match goal with |- context [for_loop _ 0 _ ?s] => set (st00 := s) end.
  destruct (send_loop_full 0 nSamples 0 st00 (xQueueCreate nSamples) eq_refl
              ltac:(simpl; lia) ltac:(simpl; lia))
    as (st1 & Hl1 & Hq1 & Ha1 & Hr1 & Hn1 & He1).
  rewrite Hl1. cbn [bind]. simpl in Ha1, Hr1, He1.
  edestruct (recv_loop_full 0 nSamples nSamples 0 st1)
    as (st2 & Hl2 & Hq2 & Ha2 & Hr2 & Hn2 & He2); [exact Hq1| | |rewrite Hl2].
  { simpl. rewrite length_map, length_seq. lia. }
  { rewrite Hn1. simpl. lia. }
  cbn [bind]. eexists. split; [reflexivity|].
  rewrite Nat.add_0_r in Hr2, Hn2.
  split; [simpl; rewrite Hn2; lia|].
  unfold trace in *. cbn [emit xEvents]. rewrite !reverse_cons.
  cbn [emit uxSendElapsedCumulative uxRecvElapsedCumulative].
  rewrite He2, Ha2, Ha1, Hr2, Hr1, He1.
  rewrite !printed_lines_app, printed_lines_sends, printed_lines_recvs.
  reflexivity.
Qed.

(** X3. The test case [setup_idf(); Test_QueueSpeedNonBlocking();
    teardown_idf();].  When [xQueueCreate] returns [NULL] the assertion of
    line 105 aborts the test case before the clock is read or anything is
    printed.  When it returns the queue, the test case runs to its end,
    reads the clock four times for every sample, prints the two averages
    and nothing else, each the accumulator of its loop divided by the
    number of samples, and leaves the handle [NULL].  When moreover no call
    takes [2^w] cycles or more and the cycles of the sends and those of the
    receives add up to less than [2^w], the averages are the cycles of the
    sends and those of the receives divided by the number of samples, also
    when the counter wraps during the test. *)
Theorem queue_speed_case_averages :
  (exists st0,
     test_case cfg ccount false = Abort creation_failure st0
     /\ xQueueHandle st0 = None /\ uxReadings st0 = 0%nat /\ trace st0 = [])
  /\ setup_idf_or_abort cfg true = Ok (setup_idf cfg)
  /\ exists st,
       test_case cfg ccount true = Ok st
       /\ xQueueHandle st = None
       /\ uxReadings st = (4 * nSamples)%nat
       /\ printed_lines (trace st)
          = [(send_format,
              ux_accumulate cfg 0 (map (call_sample cfg ccount 0) (seq 0 nSamples))
              / Z.of_nat nSamples);
             (recv_format,
              ux_accumulate cfg 0
                (map (call_sample cfg ccount 0) (seq nSamples nSamples))
              / Z.of_nat nSamples)]
       /\ (calls_short cfg ccount 0 (2 * nSamples) ->
           sumZ (map (call_cycles ccount 0) (seq 0 nSamples)) < uxModulus cfg ->
           sumZ (map (call_cycles ccount 0) (seq nSamples nSamples)) < uxModulus cfg ->
           printed_lines (trace st)
           = [(send_format,
               sumZ (map (call_cycles ccount 0) (seq 0 nSamples)) / Z.of_nat nSamples);
              (recv_format,
               sumZ (map (call_cycles ccount 0) (seq nSamples nSamples))
               / Z.of_nat nSamples)]).
Proof.
  split; [eexists; split; [reflexivity|]; by repeat split|].
  split; [reflexivity|].
  unfold test_case. change (setup_idf_or_abort cfg true) with (Ok (setup_idf cfg)).
  cbn [bind].
  destruct queue_speed_on_new_queue as (st & Hok & Hn & Hp).
  rewrite Hok. cbn [bind]. eexists. split; [reflexivity|].
  split; [reflexivity|]. split; [exact Hn|].
  change (trace (teardown_idf st)) with (trace st). rewrite Hp.
  split; [reflexivity|].
  intros Hs Hsend Hrecv. unfold ux_div.
  rewrite (call_cycles_accumulated 0 (2 * nSamples)); [|done| |done].
  - rewrite (call_cycles_accumulated 0 (2 * nSamples)); [done|done| |done].
    intros k [_ Hk]%in_seq. lia.
  - intros k [_ Hk]%in_seq. lia.
Qed.

End Loops.

(** A counter that wraps during the test: it starts three cycles before
    [2^32] and every reading comes one cycle after the one before. *)
Lemma queue_speed_case_averages_witness :
  calls_short small_config (fun n => 2 ^ 32 - 3 + Z.of_nat n) 0 4
  /\ (exists st0,
        test_case small_config (fun n => 2 ^ 32 - 3 + Z.of_nat n) false
        = Abort creation_failure st0
        /\ xQueueHandle st0 = None /\ uxReadings st0 = 0%nat /\ trace st0 = [])
  /\ exists st,
       test_case small_config (fun n => 2 ^ 32 - 3 + Z.of_nat n) true = Ok st
       /\ uxReadings st = 8%nat
       /\ omap (fun e => match e with EvGetTime t => Some t | _ => None end)
            (trace st)
          = [2 ^ 32 - 3; 2 ^ 32 - 2; 2 ^ 32 - 1; 0; 1; 2; 3; 4]
       /\ printed_lines (trace st) = [(send_format, 1); (recv_format, 1)].
Proof.
  assert (Hs : calls_short small_config (fun n => 2 ^ 32 - 3 + Z.of_nat n) 0
                 (2 * portTEST_NUM_SAMPLES small_config)).
  { intros k Hk. unfold call_cycles, uxModulus. simpl. lia. }
  split; [exact Hs|].
  destruct (queue_speed_case_averages small_config
              (fun n => 2 ^ 32 - 3 + Z.of_nat n))
    as (Hfail & _ & st & Hok & _ & Hn & _ & Hp).
  split; [exact Hfail|].
  assert (Hlines : printed_lines (trace st) = [(send_format, 1); (recv_format, 1)]).
  { rewrite Hp; [vm_compute; reflexivity|exact Hs|vm_compute; reflexivity
                |vm_compute; reflexivity]. }
  exists st. split; [exact Hok|]. split; [exact Hn|]. split; [|exact Hlines].
  clear Hlines Hp Hn.
  assert (Hst : Ok st = test_case small_config
                          (fun n => 2 ^ 32 - 3 + Z.of_nat n) true) by done.
  vm_compute in Hst. injection Hst as ->. vm_compute. reflexivity.
Defined.

(** A queue of five places in which the item 7 waits: the test receives 7
    and 0 and leaves 1 in the queue. *)
Lemma queue_speed_with_room_witness :
  exists st,
    Test_QueueSpeedNonBlocking small_config Z.of_nat
      (set_queue (Some {| uxLength := 5; pcItems := [7] |}) (setup_idf small_config))
    = Ok st
    /\ queue_events st
       = [EvQueueSend 0 true; EvQueueSend 1 true;
          EvQueueReceive (Some 7); EvQueueReceive (Some 0)]
    /\ xQueueHandle st = Some {| uxLength := 5; pcItems := [1] |}.
Proof.
  destruct (queue_speed_with_room small_config Z.of_nat
              (set_queue (Some {| uxLength := 5; pcItems := [7] |})
                 (setup_idf small_config))
              {| uxLength := 5; pcItems := [7] |} eq_refl)
    as (st & Hok & Htr & Hq & _); [vm_compute; lia|].
  exists st. split; [exact Hok|]. split; [|exact Hq].
  unfold queue_events. rewrite Htr. vm_compute. reflexivity.
Defined.

(** A queue of one place: the second send finds it full. *)
Lemma queue_speed_without_room_witness :
  exists st,
    Test_QueueSpeedNonBlocking small_config Z.of_nat
      (set_queue (Some (xQueueCreate 1)) (setup_idf small_config))
    = Abort send_failure st
    /\ queue_events st = [EvQueueSend 0 true; EvQueueSend 1 false]
    /\ printed_lines (trace st) = [].
Proof.
  destruct (queue_speed_without_room small_config Z.of_nat
              (set_queue (Some (xQueueCreate 1)) (setup_idf small_config))
              (xQueueCreate 1) eq_refl)
    as (st & Hok & Htr & _ & Hp); [vm_compute; lia|vm_compute; lia|].
  exists st. split; [exact Hok|]. split; [|exact Hp].
  unfold queue_events. rewrite Htr. vm_compute. reflexivity.
Defined.

End QueueSpeedRuns.

(** ** The critical section speed test: nesting and wrap-around *)

Module CritSpeedRuns.
Import CritSpeed.

Local Arguments Nat.mul _ _ : simpl never.

Section Runs.
Context (cfg : port_config) (ccount : nat -> Z).
Local Abbreviation nSamples := (portTEST_NUM_SAMPLES cfg).

Lemma nesting_after_app n tr1 tr2 :
  nesting_after n (tr1 ++ tr2)
  = match nesting_after n tr1 with
    | Some m => nesting_after m tr2
    | None => None
    end.
Proof.
  revert n. induction tr1 as [|e tr1 IH]; intros n; [done|].
  destruct e; simpl; try apply IH. destruct n; [done|apply IH].
Qed.

Lemma nesting_block i rest :
  nesting_after 0 (sample_events cfg ccount i ++ rest) = nesting_after 0 rest.
Proof. done. Qed.

Lemma nesting_prefix_block i rest :
  (forall pre post, rest = pre ++ post ->
     exists d, nesting_after 0 pre = Some d /\ (d <= 1)%nat) ->
  forall pre post, sample_events cfg ccount i ++ rest = pre ++ post ->
    exists d, nesting_after 0 pre = Some d /\ (d <= 1)%nat.
Proof.
  intros Hrest pre post Heq. unfold sample_events in Heq. simpl in Heq.
  destruct pre as [|e1 pre]; [exists 0%nat; split; [done|lia]|].
  injection Heq as <- Heq.
  destruct pre as [|e2 pre]; [exists 0%nat; split; [done|lia]|].
  injection Heq as <- Heq.
  destruct pre as [|e3 pre]; [exists 1%nat; split; [done|lia]|].
  injection Heq as <- Heq.
  destruct pre as [|e4 pre]; [exists 1%nat; split; [done|lia]|].
  injection Heq as <- Heq.
  destruct pre as [|e5 pre]; [exists 1%nat; split; [done|lia]|].
  injection Heq as <- Heq.
  destruct pre as [|e6 pre]; [exists 0%nat; split; [done|lia]|].
  injection Heq as <- Heq. simpl. by apply (Hrest pre post).
Qed.

Lemma nesting_prefix_blocks l rest :
  (forall pre post, rest = pre ++ post ->
     exists d, nesting_after 0 pre = Some d /\ (d <= 1)%nat) ->
  forall pre post, flat_map (sample_events cfg ccount) l ++ rest = pre ++ post ->
    exists d, nesting_after 0 pre = Some d /\ (d <= 1)%nat.
Proof.
  intros Hrest. induction l as [|i l IH]; [done|].
  cbn [flat_map]. intros pre post Heq. rewrite <- app_assoc in Heq.
  by apply (nesting_prefix_block i _ IH pre post).
Qed.

Lemma nesting_blocks l rest :
  nesting_after 0 (flat_map (sample_events cfg ccount) l ++ rest)
  = nesting_after 0 rest.
Proof.
  induction l as [|i l IH]; [done|]. cbn [flat_map].
  by rewrite <- app_assoc, nesting_block.
Qed.

Lemma events_at_blocks l rest :
  events_at 1 0 (flat_map (sample_events cfg ccount) l ++ rest)
  = flat_map (fun i => [EvGetTime (portTEST_GET_TIME cfg (ccount (4 * i + 1)));
                        EvGetTime (portTEST_GET_TIME cfg (ccount (4 * i + 2)));
                        EvExitCritical]) l
    ++ events_at 1 0 rest.
Proof.
  induction l as [|i l IH]; [done|]. cbn [flat_map].
  rewrite <- !app_assoc. unfold sample_events at 1. simpl. by rewrite IH.
Qed.

(** X4. The critical section is entered and left [portTEST_NUM_SAMPLES] times
    and never nested: the nesting count is zero or one at every instant,
    no exit comes without its entry, the count is zero when the test
    returns, and what the test does inside the critical section is, each
    time, two readings of the clock and the exit: both lines are printed
    outside of it. *)
Theorem critical_sections_never_nested :
  let st := Test_CriticalSectionSpeed cfg ccount in
  (forall pre post, trace st = pre ++ post ->
     exists d, nesting_after 0 pre = Some d /\ (d <= 1)%nat)
  /\ nesting_after 0 (trace st) = Some 0%nat
  /\ uxCriticalNesting st = 0%nat
  /\ events_at 1 0 (trace st)
     = flat_map (fun i => [EvGetTime (portTEST_GET_TIME cfg (ccount (4 * i + 1)));
                           EvGetTime (portTEST_GET_TIME cfg (ccount (4 * i + 2)));
                           EvExitCritical]) (seq 0 nSamples).
Proof.
  intros st.
  destruct (CritSpeedProofs.crit_speed_spec cfg ccount) as (Htr & _ & _ & Hn).
  fold st in Htr, Hn. rewrite Htr. split; [|split; [|split]].
  - apply nesting_prefix_blocks. intros pre post Heq. exists 0%nat.
    split; [|lia].
    destruct pre as [|e1 [|e2 [|e3 pre]]]; simpl in Heq; simplify_eq; done.
  - by rewrite nesting_blocks.
  - exact Hn.
  - rewrite events_at_blocks. simpl. by rewrite app_nil_r.
Qed.

Lemma crit_samples_exact :
  calls_short cfg ccount ->
  map (entry_sample cfg ccount) (seq 0 nSamples)
  = map (entry_cycles ccount) (seq 0 nSamples)
  /\ map (exit_sample cfg ccount) (seq 0 nSamples)
     = map (exit_cycles ccount) (seq 0 nSamples).
Proof.
  intros Hs. split; apply map_ext_in; intros i [_ Hi]%in_seq;
    destruct (Hs i ltac:(lia)) as [He Hx];
    unfold entry_sample, exit_sample; by apply ux_sub_readings.
Qed.

(** X5. The two averages [Test_CriticalSectionSpeed] prints are the cycles the
    entries took, added up and divided by the number of samples, and those
    the exits took, whenever no single call takes [2^w] cycles or more and
    each of the two sums is below [2^w]: the counter may wrap during the
    test. *)
Theorem crit_speed_averages_across_wrap :
  calls_short cfg ccount ->
  sumZ (map (entry_cycles ccount) (seq 0 nSamples)) < uxModulus cfg ->
  sumZ (map (exit_cycles ccount) (seq 0 nSamples)) < uxModulus cfg ->
  printed_lines (trace (Test_CriticalSectionSpeed cfg ccount))
  = [(entry_format,
      sumZ (map (entry_cycles ccount) (seq 0 nSamples)) / Z.of_nat nSamples);
     (exit_format,
      sumZ (map (exit_cycles ccount) (seq 0 nSamples)) / Z.of_nat nSamples)].
Proof.
  intros Hs Hentry Hexit.
  destruct (CritSpeedProofs.crit_speed_spec cfg ccount) as (Htr & _).
  rewrite Htr. destruct (crit_samples_exact Hs) as [-> ->].
  unfold printed_lines. rewrite omap_app.
  fold (printed_lines (flat_map (sample_events cfg ccount) (seq 0 nSamples))).
  rewrite CritSpeedProofs.printed_lines_samples, !ux_accumulate_0.
  rewrite !to_UBaseType_small; [done| |].
  - apply sumZ_bounds; [|done].
    intros x (i & <- & [_ Hi]%in_seq)%in_map_iff. apply (Hs i ltac:(lia)).
  - apply sumZ_bounds; [|done].
    intros x (i & <- & [_ Hi]%in_seq)%in_map_iff. apply (Hs i ltac:(lia)).
Qed.

End Runs.

(** A counter that wraps during the first entry: it starts one cycle
    before [2^32], and every timed call takes two cycles. *)
Lemma crit_speed_averages_across_wrap_witness :
  calls_short small_config
    (fun n => 2 ^ 32 - 1 + 3 * Z.of_nat n - Z.of_nat (n mod 2))
  /\ printed_lines
       (trace (Test_CriticalSectionSpeed small_config
                 (fun n => 2 ^ 32 - 1 + 3 * Z.of_nat n - Z.of_nat (n mod 2))))
     = [(entry_format, 2); (exit_format, 2)].
Proof.
  assert (Hs : calls_short small_config
                 (fun n => 2 ^ 32 - 1 + 3 * Z.of_nat n - Z.of_nat (n mod 2))).
  { intros i Hi. change (portTEST_NUM_SAMPLES small_config) with 2%nat in Hi.
    assert (Hi' : i = 0%nat \/ i = 1%nat) by lia.
    destruct Hi' as [-> | ->]; vm_compute; repeat split; discriminate. }
  split; [exact Hs|].
  rewrite (crit_speed_averages_across_wrap small_config _ Hs);
    vm_compute; reflexivity.
Defined.

End CritSpeedRuns.

